(** * A trading bot over a relational store: trade execution and bookkeeping

    Shallow embedding of [bot.py] (class [SolanaTrader], the handlers
    [handle_callback] and [handle_message]) and of [database.py] (class
    [Database]).

    Layout of the development:
    - [PyNum]: Python numbers as the code uses them ([int] as [Z], [float]
      as an exactly represented binary64 value with its rounding written
      out);
    - [Chain]: the ledger and aggregator as a record of responses, and the
      trader's methods as functions returning a result and a trace;
    - [Store]: the four tables, the cursor monad, [get_cursor] and the
      [Database] methods;
    - [Bot]: the handlers, passing the store explicitly;
    - [Operations], [Concurrent], [Scenario]: the store calls as one type,
      connections that take their driver calls in turn, and a test double;
    - [Commands], [Shapes], [Kept], [TokenInfo], [Cases]: the commands and
      keyboards, the shape of a swap's calls, what the store keeps, the
      token lookup, and more of the test double;
    - the properties. *)

From Stdlib Require Import ZArith QArith Qcanon Lia Ascii String.
From stdpp Require Import gmap strings list fin_maps sorting.

Local Open Scope Z_scope.

(** ** Python numbers *)

Module PyNum.

(** A Python [float] is an IEEE-754 binary64 value.  Finite values are
    dyadic rationals and are kept exactly, as canonical rationals, so that
    equality of floats is equality of terms; the two infinities and NaN are
    separate constructors.  The sign of zero is not kept: nothing in the
    program observes it. *)
Inductive pyfloat : Type :=
  | PFin (q : Qc)
  | PInf (negative : bool)
  | PNan.

Definition Qc_of_Z (z : Z) : Qc := Q2Qc (inject_Z z).

(** [m * 2^e] as a canonical rational. *)
Definition Qc_of_scaled (m e : Z) : Qc :=
  if 0 <=? e then Qc_of_Z (m * 2 ^ e)
  else Q2Qc (Qmake m (Z.to_pos (2 ^ (- e)))).

(** floor (log2 (n / d)) for [n], [d] positive. *)
Definition floor_log2_ratio (n d : Z) : Z :=
  let k := Z.log2 n - Z.log2 d in
  let fits := if 0 <=? k then d * 2 ^ k <=? n else d <=? n * 2 ^ (- k) in
  if fits then k else k - 1.

(** [n / d] rounded to the nearest integer, ties to the even one
    ([0 <= n], [0 < d]). *)
Definition div_half_even (n d : Z) : Z :=
  let q := n / d in
  let r := n mod d in
  match 2 * r ?= d with
  | Lt => q
  | Gt => q + 1
  | Eq => if Z.even q then q else q + 1
  end.

(** The binary64 significand and exponent of the positive ratio [n / d]:
    53 bits of precision, minimal exponent -1074 (gradual underflow),
    round to nearest, ties to even. *)
Definition round_mantissa (n d : Z) : Z * Z :=
  let e := Z.max (floor_log2_ratio n d - 52) (-1074) in
  let m := if 0 <=? e then div_half_even n (d * 2 ^ e)
           else div_half_even (n * 2 ^ (- e)) d in
  (m, e).

(** The binary64 value nearest to [n / d] ([0 < d]); magnitudes that round
    to [2^1024] or more overflow to an infinity. *)
Definition binary64_of_ratio (n d : Z) : pyfloat :=
  if n =? 0 then PFin (Qc_of_Z 0)
  else
    let '(m, e) := round_mantissa (Z.abs n) d in
    if (971 <=? e) && (2 ^ 1024 <=? m * 2 ^ e) then PInf (n <? 0)
    else PFin (Qc_of_scaled (Z.sgn n * m) e).

Definition binary64_of_Qc (q : Qc) : pyfloat :=
  binary64_of_ratio (Qnum (this q)) (Z.pos (Qden (this q))).

(** [a / b] on two Python ints: true division, correctly rounded from the
    exact quotient whatever the size of the operands.  [None] stands for
    the exception ([ZeroDivisionError], or [OverflowError] when the
    quotient is too large for a float). *)
Definition int_truediv (a b : Z) : option pyfloat :=
  if b =? 0 then None
  else
    match binary64_of_ratio (Z.sgn b * a) (Z.abs b) with
    | PFin q => Some (PFin q)
    | _ => None
    end.

(** [float(n)] for a Python int: [None] is [OverflowError]. *)
Definition float_of_int (n : Z) : option pyfloat :=
  match binary64_of_ratio n 1 with
  | PFin q => Some (PFin q)
  | _ => None
  end.

(** [x * y] on two floats. *)
Definition float_mul (x y : pyfloat) : pyfloat :=
  match x, y with
  | PNan, _ | _, PNan => PNan
  | PFin a, PFin b => binary64_of_Qc (a * b)%Qc
  | PInf s, PFin b | PFin b, PInf s =>
      if bool_decide (b = Qc_of_Z 0) then PNan
      else PInf (xorb s (bool_decide (b < Qc_of_Z 0)%Qc))
  | PInf s, PInf t => PInf (xorb s t)
  end.

(** [x < y] on two floats; every comparison with NaN is false. *)
Definition float_lt (x y : pyfloat) : bool :=
  match x, y with
  | PNan, _ | _, PNan => false
  | PFin a, PFin b => bool_decide (a < b)%Qc
  | PFin _, PInf s => negb s
  | PInf s, PFin _ => s
  | PInf s, PInf t => s && negb t
  end.

Definition float_le (x y : pyfloat) : bool :=
  match x, y with
  | PNan, _ | _, PNan => false
  | _, _ => negb (float_lt y x)
  end.

(** [x + y] on two floats: the exact sum rounded to binary64; opposite
    infinities give NaN. *)
Definition float_add (x y : pyfloat) : pyfloat :=
  match x, y with
  | PNan, _ | _, PNan => PNan
  | PFin a, PFin b => binary64_of_Qc (a + b)%Qc
  | PInf s, PFin _ | PFin _, PInf s => PInf s
  | PInf s, PInf t => if Bool.eqb s t then PInf s else PNan
  end.

(** [int(x)] on a float: truncation toward zero; [None] is the exception
    ([ValueError] on NaN, [OverflowError] on an infinity). *)
Definition int_of_float (x : pyfloat) : option Z :=
  match x with
  | PFin q => Some (Z.quot (Qnum (this q)) (Z.pos (Qden (this q))))
  | _ => None
  end.

End PyNum.

Import PyNum.

Definition LAMPORTS_PER_SOL : Z := 1000000000.

(** [int(token_balance * percentage / 100)] of
    [SolanaTrader.swap_token_for_sol]: the product is an exact int, [/] is
    true division into a float, [int] truncates. *)
Definition sell_amount_of (token_balance percentage : Z) : option Z :=
  x ← int_truediv (token_balance * percentage) 100;
  int_of_float x.

(** ** Python values and exceptions *)

(** The dynamically typed values the program passes around: JSON fields of
    the aggregator's replies, statement parameters, settings read back. *)
Inductive pyval : Type :=
  | VNone
  | VBool (b : bool)
  | VInt (z : Z)
  | VFloat (x : pyfloat)
  | VStr (s : string).

(** A call either returns or raises; the exception is kept as its message,
    which is all the program ever reads of it ([str(e)]). *)
Inductive result (A : Type) : Type :=
  | Ret (a : A)
  | Exc (msg : string).
Arguments Ret {A} a.
Arguments Exc {A} msg.

Definition of_option {A} (msg : string) (o : option A) : result A :=
  match o with
  | Some a => Ret a
  | None => Exc msg
  end.

(** [s * k] on a str: repetition, empty for [k <= 0]. *)
Fixpoint str_repeat (s : string) (k : nat) : string :=
  match k with
  | O => EmptyString
  | S k' => String.append s (str_repeat s k')
  end.

(** ** The ledger and the aggregator *)

Module Chain.

Record Quote : Type := {
  outAmount : option pyval;        (* [None]: the key is missing *)
  priceImpactPct : option pyval;
}.

Record SwapData : Type := {
  swapTransaction : option pyval;
}.

Record http_response (A : Type) : Type := {
  status_code : Z;
  json : result A;                 (* [response.json()] *)
}.
Arguments status_code {A} _.
Arguments json {A} _.

(** One entry of [response.value] of
    [get_token_accounts_by_owner_json_parsed], reduced to what
    [get_token_balance] reads of it:
    [account.account.data.parsed.get("info", {}).get("tokenAmount", {})
      .get("amount", 0)].
    A key missing at any of the three levels gives the default;
    [ParsedMalformed] is a shape on which one of the [get]s raises. *)
Inductive token_account : Type :=
  | ParsedAmount (amount : option pyval)
  | ParsedMalformed (msg : string).

(** The calls that leave the process.  The [amount] and [slippageBps]
    parameters of a quote are sent as [str(n)] of an int [n]; the int is
    kept here. *)
Inductive call : Type :=
  | rpc_get_balance (pubkey : string)
  | rpc_get_token_accounts_by_owner (wallet mint : string)
  | http_get_quote (inputMint outputMint : string) (amount slippageBps : Z)
  | http_post_swap (quoteResponse : Quote) (userPublicKey : string)
  | rpc_send_raw_transaction (tx : list Byte.byte).

Definition is_aggregator_or_submit (c : call) : bool :=
  match c with
  | http_get_quote _ _ _ _ | http_post_swap _ _ | rpc_send_raw_transaction _ => true
  | _ => false
  end.

(** Everything outside the program during one handler run: the replies of
    the ledger and of the aggregator, and the library functions that are
    not embedded. *)
Record World : Type := {
  (* [str(Keypair.from_bytes(base58.b58decode(private_key)).pubkey())] *)
  keypair_pubkey : string → result string;
  (* [Pubkey.from_string] *)
  Pubkey_from_string : string → result string;
  (* [base64.b64decode] *)
  b64decode : string → result (list Byte.byte);
  (* [int(s)] and [float(s)] on a str *)
  int_of_str : string → option Z;
  float_of_str : string → option pyfloat;
  (* the ledger *)
  client_get_balance : string → result (option Z);
  client_get_token_accounts : string → string → result (list token_account);
  client_send_raw_transaction : list Byte.byte → result string;
  (* the aggregator *)
  quote_api : string → string → Z → Z → result (http_response Quote);
  swap_api : Quote → string → result (http_response SwapData);
}.

(** A computation that performs calls and may raise: the calls made so
    far, and how it ended. *)
Definition io (A : Type) : Type := list call * result A.

Definition io_ret {A} (a : A) : io A := ([], Ret a).

Definition io_bind {A B} (m : io A) (f : A → io B) : io B :=
  match m with
  | (t, Ret a) => let '(t', r) := f a in (t ++ t', r)
  | (t, Exc e) => (t, Exc e)
  end.

Definition perform {A} (c : call) (r : result A) : io A := ([c], r).
Definition lift {A} (r : result A) : io A := ([], r).

(** [try: body except Exception as e: handler(str(e))] *)
Definition try_except {A} (body : io A) (handler : string → A) : list call * A :=
  match body with
  | (t, Ret a) => (t, a)
  | (t, Exc e) => (t, handler e)
  end.

#[global] Instance io_mret : MRet io := @io_ret.
#[global] Instance io_mbind : MBind io := λ A B f m, io_bind m f.

Section Trader.

Variable w : World.

(** [int(v)] *)
Definition py_int (v : pyval) : result Z :=
  match v with
  | VInt z => Ret z
  | VBool b => Ret (if b then 1 else 0)
  | VFloat (PFin q) => of_option "" (int_of_float (PFin q))
  | VFloat PNan => Exc "cannot convert float NaN to integer"
  | VFloat (PInf _) => Exc "cannot convert float infinity to integer"
  | VStr s => of_option "invalid literal for int() with base 10" (int_of_str w s)
  | VNone => Exc "int() argument must be a string, a bytes-like object or a real number, not 'NoneType'"
  end.

(** [v * k] for an int [k] *)
Definition py_mul_int (v : pyval) (k : Z) : result pyval :=
  match v with
  | VInt z => Ret (VInt (z * k))
  | VBool b => Ret (VInt ((if b then 1 else 0) * k))
  | VFloat x =>
      match float_of_int k with
      | Some y => Ret (VFloat (float_mul x y))
      | None => Exc "int too large to convert to float"
      end
  | VStr s => Ret (VStr (str_repeat s (Z.to_nat k)))
  | VNone => Exc "unsupported operand type(s) for *: 'NoneType' and 'int'"
  end.

(** [not v] *)
Definition py_not (v : pyval) : bool :=
  match v with
  | VNone => true
  | VBool b => negb b
  | VInt z => z =? 0
  | VFloat (PFin q) => bool_decide (q = Qc_of_Z 0)
  | VFloat _ => false
  | VStr s => bool_decide (s = EmptyString)
  end.

(** [SolanaTrader.get_balance] *)
Definition get_balance (pubkey : string) : list call * pyfloat :=
  try_except
    (key ← lift (Pubkey_from_string w pubkey);
     value ← perform (rpc_get_balance key) (client_get_balance w key);
     match value with
     | Some lamports =>
         lift (of_option "integer division result too large for a float"
                 (int_truediv lamports LAMPORTS_PER_SOL))
     | None => io_ret (PFin (Qc_of_Z 0))
     end)
    (fun _ => PFin (Qc_of_Z 0)).

(** [SolanaTrader.get_token_balance]: the loop over [response.value]
    returns in its first iteration. *)
Definition get_token_balance (wallet token_address : string) : list call * Z :=
  try_except
    (owner ← lift (Pubkey_from_string w wallet);
     mint ← lift (Pubkey_from_string w token_address);
     value ← perform (rpc_get_token_accounts_by_owner owner mint)
                (client_get_token_accounts w owner mint);
     match value with
     | [] => io_ret 0
     | ParsedAmount amount :: _ => lift (py_int (default (VInt 0) amount))
     | ParsedMalformed msg :: _ => lift (Exc msg)
     end)
    (fun _ => 0).

(** The lookup behind [get_balance] fails: the address does not parse or
    the ledger call raises. *)
Definition balance_lookup_fails (pubkey : string) : bool :=
  match Pubkey_from_string w pubkey with
  | Exc _ => true
  | Ret key =>
      match client_get_balance w key with
      | Exc _ => true
      | Ret _ => false
      end
  end.

(** The lookup behind [get_token_balance] fails: an address does not
    parse, the ledger call raises, or the first account of the reply
    cannot be read as an amount. *)
Definition token_lookup_fails (wallet token_address : string) : bool :=
  match Pubkey_from_string w wallet, Pubkey_from_string w token_address with
  | Ret owner, Ret mint =>
      match client_get_token_accounts w owner mint with
      | Exc _ => true
      | Ret (ParsedMalformed _ :: _) => true
      | Ret (ParsedAmount amount :: _) =>
          match py_int (default (VInt 0) amount) with
          | Exc _ => true
          | Ret _ => false
          end
      | Ret [] => false
      end
  | _, _ => true
  end.

(** What a swap returns: the dict with ["success": True] and its four
    other keys, or the dict with ["success": False] and ["error"]. *)
Inductive swap_result : Type :=
  | SwapOk (signature : string) (amount_in amount_out price_impact : pyval)
  | SwapFailed (error : string).

Definition SOL_MINT : string := "So11111111111111111111111111111111111111112".

(** A method that catches its own exceptions, called from a [try] body. *)
Definition total {A} (p : list call * A) : io A := (p.1, Ret p.2).

(** The part the two swaps share, from the quote request to the
    submission: it returns the quote and the signature, or the error
    message of an early [return].  The text is the same in both methods
    but for the two mints. *)
Definition quote_build_submit (wallet_pubkey inputMint outputMint : string)
    (amount slippage_bps : Z) : io (string + Quote * string) :=
  quote_response ← perform (http_get_quote inputMint outputMint amount slippage_bps)
                     (quote_api w inputMint outputMint amount slippage_bps);
  if negb (status_code quote_response =? 200) then mret (inl "Failed to get quote")
  else
    quote ← lift (json quote_response);
    swap_response ← perform (http_post_swap quote wallet_pubkey)
                      (swap_api w quote wallet_pubkey);
    if negb (status_code swap_response =? 200)
    then mret (inl "Failed to create swap transaction")
    else
      swap_data ← lift (json swap_response);
      let swap_transaction := default VNone (swapTransaction swap_data) in
      if py_not swap_transaction then mret (inl "No swap transaction returned")
      else
        tx_bytes ← lift (match swap_transaction with
                         | VStr s => b64decode w s
                         | _ => Exc "argument should be a bytes-like object or ASCII string"
                         end);
        signature ← perform (rpc_send_raw_transaction tx_bytes)
                      (client_send_raw_transaction w tx_bytes);
        mret (inr (quote, signature)).

(** [SolanaTrader.swap_sol_for_token] *)
Definition swap_sol_for_token (private_key token_address : string)
    (amount_sol : pyfloat) (slippage : pyval) : list call * swap_result :=
  try_except
    (wallet_pubkey ← lift (keypair_pubkey w private_key);
     scaled ← lift (py_mul_int (VFloat amount_sol) LAMPORTS_PER_SOL);
     amount_lamports ← lift (py_int scaled);
     percent ← lift (py_mul_int slippage 100);
     slippage_bps ← lift (py_int percent);
     r ← quote_build_submit wallet_pubkey SOL_MINT token_address
           amount_lamports slippage_bps;
     match r with
     | inl error => mret (SwapFailed error)
     | inr (quote, signature) =>
         out ← lift (py_int (default (VInt 0) (outAmount quote)));
         mret (SwapOk signature (VFloat amount_sol) (VInt out)
                 (default (VInt 0) (priceImpactPct quote)))
     end)
    SwapFailed.

(** [SolanaTrader.swap_token_for_sol] *)
Definition swap_token_for_sol (private_key token_address : string)
    (percentage : Z) (slippage : pyval) : list call * swap_result :=
  try_except
    (wallet_pubkey ← lift (keypair_pubkey w private_key);
     token_balance ← total (get_token_balance wallet_pubkey token_address);
     if token_balance <=? 0 then mret (SwapFailed "No tokens to sell")
     else
       sell_amount ← lift (of_option "integer division result too large for a float"
                             (sell_amount_of token_balance percentage));
       percent ← lift (py_mul_int slippage 100);
       slippage_bps ← lift (py_int percent);
       r ← quote_build_submit wallet_pubkey token_address SOL_MINT
             sell_amount slippage_bps;
       match r with
       | inl error => mret (SwapFailed error)
       | inr (quote, signature) =>
           out ← lift (py_int (default (VInt 0) (outAmount quote)));
           sol ← lift (of_option "integer division result too large for a float"
                         (int_truediv out LAMPORTS_PER_SOL));
           mret (SwapOk signature (VInt sell_amount) (VFloat sol)
                   (default (VInt 0) (priceImpactPct quote)))
       end)
    SwapFailed.

End Trader.

End Chain.

(** ** The store *)

Module Store.

(** *** Tables

    One record per table of [_init_sqlite] / [_init_postgres].  A table
    with a UNIQUE key is a finite map from that key ([users] and
    [settings] by [telegram_id], [positions] by
    [(telegram_id, token_address)]); [trades] has none and is the list of
    its rows in insertion order.  The surrogate [id] columns are left out:
    no statement of the program reads them.  Timestamps are ticks of the
    engine's clock.  A column of [settings] or [positions] that is given
    a statement parameter holds what the engine makes of that parameter
    for the declared type of the column ([stored], below), as a later
    [SELECT] hands it back to Python; [positions.amount], the one column
    SQL computes on, changes by the engine's own [+] ([real_add]).  A
    row of [trades] keeps its six parameters as they were bound. *)

Record User : Type := {
  username : string;
  wallet_address : string;
  private_key : string;
  user_created_at : nat;
}.

Record Settings : Type := {
  slippage : pyval;
  auto_buy_amount : pyval;
  mev_protection : pyval;
  priority_fee : pyval;
}.

Record Trade : Type := {
  trade_telegram_id : Z;
  trade_token_address : string;
  trade_type : string;
  amount_in : pyval;
  amount_out : pyval;
  signature : string;
  status : string;
  trade_created_at : nat;
}.

Record Position : Type := {
  symbol : string;
  name : string;
  amount : pyval;
  entry_price : pyval;
  created_at : nat;
  updated_at : nat;
}.

Record Tables : Type := {
  users : gmap Z User;
  settings : gmap Z Settings;
  trades : list Trade;
  positions : gmap (Z * string) Position;
}.

Definition empty_tables : Tables :=
  {| users := ∅; settings := ∅; trades := []; positions := ∅ |}.

(** *** Connections and cursors *)

(** The columns that are given a statement parameter of any Python type
    or that SQL computes on. *)
Inductive column_name : Type :=
  | settings_slippage | settings_auto_buy_amount | settings_mev_protection
  | settings_priority_fee | positions_amount | positions_entry_price.

(** What the engine does during one operation besides executing the
    statements: the failures it can inject at each driver call, and its
    clock.  [execute_error n] is the failure of the [n]-th [execute] of
    the transaction for a reason other than a constraint of the schema
    (a lost connection, a value the column refuses, an overflow).

    The last three fields are the engine's treatment of values, which is
    not part of the repository.  [stored c v] is the value that column
    [c] holds, as a [SELECT] hands it to Python, after the parameter [v]
    was assigned to it in a statement that succeeded: SQLite applies the
    affinity of the column (an int given to a REAL column comes back as
    a float) and keeps REAL as binary64; PostgreSQL casts to the declared
    type, where REAL is single precision.  [real_add a b] is the engine's
    [a + b] on two values of a REAL column, with the rounding of that
    type.  [is_positive a] is whether [a > 0] holds for the engine. *)
Record DbEnv : Type := {
  connect_error : option string;
  execute_error : nat → option string;
  commit_error : option string;
  rollback_error : option string;
  now : nat;
  stored : column_name → pyval → pyval;
  real_add : pyval → pyval → pyval;
  is_positive : pyval → bool;
}.

(** The driver calls of one [with self.get_cursor()] block, in order.
    [conn.cursor()], [cursor.close()] and [conn.close()] only touch
    client-side objects and are taken to return. *)
Inductive conn_event : Type :=
  | ev_connect (ok : bool)
  | ev_cursor
  | ev_execute
  | ev_commit (ok : bool)
  | ev_rollback (ok : bool)
  | ev_cursor_close
  | ev_conn_close.

#[global] Instance conn_event_eq_dec : EqDecision conn_event.
Proof. solve_decision. Defined.

Record cursor_state : Type := {
  work : Tables;       (* the tables as the open transaction sees them *)
  executed : nat;      (* number of [execute] calls so far *)
}.

(** The body of a [with] block: it runs statements on the cursor and may
    raise. *)
Definition cur (A : Type) : Type := cursor_state → cursor_state * result A.

#[global] Instance cur_mret : MRet cur := λ A a st, (st, Ret a).
#[global] Instance cur_mbind : MBind cur := λ A B f m st,
  match m st with
  | (st', Ret a) => f a st'
  | (st', Exc e) => (st', Exc e)
  end.

(** The cursor that [conn.cursor()] returns on a new connection. *)
Definition fresh_cursor (db : Tables) : cursor_state := {| work := db; executed := 0 |}.

Section Engine.

Variable env : DbEnv.

(** [cursor.execute(stmt, params)], with the rows it makes available to
    [fetchone] / [fetchall]. *)
Definition execute {A} (stmt : Tables → result (Tables * A)) : cur A := λ st,
  let st' := {| work := work st; executed := S (executed st) |} in
  match execute_error env (executed st) with
  | Some e => (st', Exc e)
  | None =>
      match stmt (work st) with
      | Ret (t, a) => ({| work := t; executed := S (executed st) |}, Ret a)
      | Exc e => (st', Exc e)
      end
  end.

(** [Database.get_cursor] around a body:
<<
    conn = self._get_connection()
    try:
        cursor = conn.cursor(...)
        yield cursor
        conn.commit()
    except Exception as e:
        conn.rollback()
        raise e
    finally:
        cursor.close()
        conn.close()
>>
    It returns the driver calls made, the tables afterwards and the value
    or exception the [with] statement ends with.  A transaction that is
    not committed leaves the tables as they were. *)
Definition rollback (e : string) : list conn_event * string :=
  match rollback_error env with
  | Some e' => ([ev_rollback false], e')
  | None => ([ev_rollback true], e)
  end.

Definition get_cursor {A} (body : cur A) (db : Tables)
    : list conn_event * Tables * result A :=
  match connect_error env with
  | Some e => ([ev_connect false], db, Exc e)
  | None =>
      let '(st, r) := body (fresh_cursor db) in
      let opened := [ev_connect true; ev_cursor] ++ replicate (executed st) ev_execute in
      let finally := [ev_cursor_close; ev_conn_close] in
      match r with
      | Ret a =>
          match commit_error env with
          | None => (opened ++ [ev_commit true] ++ finally, work st, Ret a)
          | Some e =>
              let '(rb, e') := rollback e in
              (opened ++ [ev_commit false] ++ rb ++ finally, db, Exc e')
          end
      | Exc e =>
          let '(rb, e') := rollback e in
          (opened ++ rb ++ finally, db, Exc e')
      end
  end.

(** *** Statements *)

Definition with_users (f : gmap Z User → gmap Z User) (t : Tables) : Tables :=
  {| users := f (users t); settings := settings t;
     trades := trades t; positions := positions t |}.
Definition with_settings (f : gmap Z Settings → gmap Z Settings) (t : Tables) : Tables :=
  {| users := users t; settings := f (settings t);
     trades := trades t; positions := positions t |}.
Definition with_trades (f : list Trade → list Trade) (t : Tables) : Tables :=
  {| users := users t; settings := settings t;
     trades := f (trades t); positions := positions t |}.
Definition with_positions
    (f : gmap (Z * string) Position → gmap (Z * string) Position) (t : Tables) : Tables :=
  {| users := users t; settings := settings t;
     trades := trades t; positions := f (positions t) |}.

Variable is_postgres : bool.

(** [INSERT INTO users (telegram_id, username, wallet_address, private_key)
    VALUES (?, ?, ?, ?)]; [telegram_id] is UNIQUE. *)
Definition sql_insert_user (telegram_id : Z) (username wallet_address private_key : string)
    (t : Tables) : result (Tables * ()) :=
  match users t !! telegram_id with
  | Some _ => Exc "UNIQUE constraint failed: users.telegram_id"
  | None =>
      let row := {| username := username; wallet_address := wallet_address;
                    private_key := private_key; user_created_at := now env |} in
      Ret (with_users <[telegram_id := row]> t, ())
  end.

(** The column defaults of [settings].  [mev_protection] defaults to the
    integer 1 under SQLite and to TRUE under PostgreSQL. *)
Definition default_settings_row : Settings :=
  {| slippage := VFloat (binary64_of_ratio 15 1);
     auto_buy_amount := VFloat (binary64_of_ratio 1 10);
     mev_protection := if is_postgres then VBool true else VInt 1;
     priority_fee := VStr "medium" |}.

(** [INSERT INTO settings (telegram_id) VALUES (?)]; [telegram_id] is
    UNIQUE.  Its foreign key into [users] holds at the one place the
    statement is issued, right after the user's row is inserted. *)
Definition sql_insert_settings (telegram_id : Z) (t : Tables) : result (Tables * ()) :=
  match settings t !! telegram_id with
  | Some _ => Exc "UNIQUE constraint failed: settings.telegram_id"
  | None => Ret (with_settings <[telegram_id := default_settings_row]> t, ())
  end.

(** [SELECT * FROM users WHERE telegram_id = ?] then [fetchone()] *)
Definition sql_select_user (telegram_id : Z) (t : Tables) : result (Tables * option User) :=
  Ret (t, users t !! telegram_id).

(** [SELECT * FROM settings WHERE telegram_id = ?] then [fetchone()] *)
Definition sql_select_settings (telegram_id : Z) (t : Tables)
    : result (Tables * option Settings) :=
  Ret (t, settings t !! telegram_id).

Definition set_column (key : string) (value : pyval) (r : Settings) : Settings :=
  if String.eqb key "slippage" then
    {| slippage := value; auto_buy_amount := auto_buy_amount r;
       mev_protection := mev_protection r; priority_fee := priority_fee r |}
  else if String.eqb key "auto_buy_amount" then
    {| slippage := slippage r; auto_buy_amount := value;
       mev_protection := mev_protection r; priority_fee := priority_fee r |}
  else if String.eqb key "mev_protection" then
    {| slippage := slippage r; auto_buy_amount := auto_buy_amount r;
       mev_protection := value; priority_fee := priority_fee r |}
  else if String.eqb key "priority_fee" then
    {| slippage := slippage r; auto_buy_amount := auto_buy_amount r;
       mev_protection := mev_protection r; priority_fee := value |}
  else r.

(** The value of a column of a [settings] row, by column name. *)
Definition column (key : string) (r : Settings) : option pyval :=
  if String.eqb key "slippage" then Some (slippage r)
  else if String.eqb key "auto_buy_amount" then Some (auto_buy_amount r)
  else if String.eqb key "mev_protection" then Some (mev_protection r)
  else if String.eqb key "priority_fee" then Some (priority_fee r)
  else None.

(** The column of [settings] that a key of the dictionary names. *)
Definition settings_column (key : string) : option column_name :=
  if String.eqb key "slippage" then Some settings_slippage
  else if String.eqb key "auto_buy_amount" then Some settings_auto_buy_amount
  else if String.eqb key "mev_protection" then Some settings_mev_protection
  else if String.eqb key "priority_fee" then Some settings_priority_fee
  else None.

(** What the column named [key] holds once [value] was assigned to it. *)
Definition stored_setting (key : string) (value : pyval) : pyval :=
  match settings_column key with
  | Some c => stored env c value
  | None => value
  end.

(** [UPDATE settings SET {key} = ? WHERE telegram_id = ?] *)
Definition sql_update_setting (key : string) (value : pyval) (telegram_id : Z)
    (t : Tables) : result (Tables * ()) :=
  Ret (with_settings (alter (set_column key (stored_setting key value)) telegram_id) t,
       ()).

(** The row of [trades] for the six values of an insert; [status] and
    [created_at] take their column defaults. *)
Definition trade_row (telegram_id : Z) (token_address trade_type : string)
    (amount_in amount_out : pyval) (signature : string) : Trade :=
  {| trade_telegram_id := telegram_id; trade_token_address := token_address;
     trade_type := trade_type; amount_in := amount_in;
     amount_out := amount_out; signature := signature;
     status := "completed"; trade_created_at := now env |}.

(** [INSERT INTO trades (telegram_id, token_address, trade_type, amount_in,
    amount_out, signature) VALUES (?, ?, ?, ?, ?, ?)] *)
Definition sql_insert_trade (telegram_id : Z) (token_address trade_type : string)
    (amount_in amount_out : pyval) (signature : string) (t : Tables)
    : result (Tables * ()) :=
  Ret (with_trades
         (λ l, l ++ [trade_row telegram_id token_address trade_type
                       amount_in amount_out signature]) t, ()).

Definition newer_trade (a b : Trade) : Prop := (trade_created_at b ≤ trade_created_at a)%nat.
#[local] Instance newer_trade_dec : RelDecision newer_trade.
Proof. intros a b. unfold newer_trade. apply _. Defined.

(** [SELECT * FROM trades WHERE telegram_id = ? ORDER BY created_at DESC
    LIMIT ?] then [fetchall()] *)
Definition sql_select_trades (telegram_id : Z) (limit : nat) (t : Tables)
    : result (Tables * list Trade) :=
  Ret (t, take limit
            (merge_sort newer_trade
               (filter (λ r, trade_telegram_id r = telegram_id) (trades t)))).

(** [INSERT INTO positions (telegram_id, token_address, symbol, name, amount,
    entry_price) VALUES (?, ?, ?, ?, ?, ?)
    ON CONFLICT (telegram_id, token_address)
    DO UPDATE SET amount = amount + excluded.amount,
                  updated_at = CURRENT_TIMESTAMP]
    (the two dialects differ only in how they name the existing row).
    [amount] is declared [REAL NOT NULL]: the statement fails when the
    row it proposes, or the sum it computes, has no amount. *)
Definition not_null (v : pyval) : result pyval :=
  match v with
  | VNone => Exc "NOT NULL constraint failed: positions.amount"
  | _ => Ret v
  end.

Definition sql_upsert_position (telegram_id : Z) (token_address symbol name : string)
    (amount entry_price : pyval) (t : Tables) : result (Tables * ()) :=
  let key := (telegram_id, token_address) in
  match not_null (stored env positions_amount amount) with
  | Exc e => Exc e
  | Ret excluded =>
      match positions t !! key with
      | None =>
          let row := {| symbol := symbol; name := name; amount := excluded;
                        entry_price := stored env positions_entry_price entry_price;
                        created_at := now env; updated_at := now env |} in
          Ret (with_positions <[key := row]> t, ())
      | Some old =>
          match not_null (real_add env (Store.amount old) excluded) with
          | Exc e => Exc e
          | Ret sum =>
              let row := {| symbol := Store.symbol old; name := Store.name old;
                            amount := sum;
                            entry_price := Store.entry_price old;
                            created_at := created_at old; updated_at := now env |} in
              Ret (with_positions <[key := row]> t, ())
          end
      end
  end.

Definition newer_position (a b : Z * string * Position) : Prop :=
  (updated_at b.2 ≤ updated_at a.2)%nat.
#[local] Instance newer_position_dec : RelDecision newer_position.
Proof. intros a b. unfold newer_position. apply _. Defined.

(** [SELECT * FROM positions WHERE telegram_id = ? AND amount > 0
    ORDER BY updated_at DESC] then [fetchall()]; each row is returned with
    its [token_address]. *)
Definition sql_select_positions (telegram_id : Z) (t : Tables)
    : result (Tables * list (string * Position)) :=
  let rows := filter (λ kr : Z * string * Position,
                        kr.1.1 = telegram_id ∧ is_positive env (amount kr.2) = true)
                (map_to_list (positions t)) in
  Ret (t, (λ kr : Z * string * Position, (kr.1.2, kr.2)) <$>
            merge_sort newer_position rows).

(** [DELETE FROM positions WHERE telegram_id = ? AND token_address = ?] *)
Definition sql_delete_position (telegram_id : Z) (token_address : string) (t : Tables)
    : result (Tables * ()) :=
  Ret (with_positions (delete (telegram_id, token_address)) t, ()).

(** [CREATE TABLE IF NOT EXISTS ...] and [CREATE INDEX IF NOT EXISTS ...]:
    no effect on rows. *)
Definition sql_create_if_not_exists (t : Tables) : result (Tables * ()) := Ret (t, ()).

(** *** The methods of [Database]

    Each returns the driver calls it made, the tables afterwards and its
    Python return value. *)

(** [try: with self.get_cursor() as cursor: body ... except Exception:
    return on_error], the shape of every method but [init_db]; [on_ok]
    is what the method returns from the rows the body produced. *)
Definition guarded {A B} (body : cur A) (on_ok : A → B) (on_error : B) (db : Tables)
    : list conn_event * Tables * B :=
  let '(evs, db', r) := get_cursor body db in
  (evs, db', match r with Ret a => on_ok a | Exc _ => on_error end).

Definition init_db (db : Tables) : list conn_event * Tables * result () :=
  get_cursor
    (execute sql_create_if_not_exists;; execute sql_create_if_not_exists;;
     execute sql_create_if_not_exists;; execute sql_create_if_not_exists;;
     execute sql_create_if_not_exists;; execute sql_create_if_not_exists)
    db.

Definition create_user (telegram_id : Z) (username wallet_address private_key : string)
    : Tables → list conn_event * Tables * bool :=
  guarded
    (execute (sql_insert_user telegram_id username wallet_address private_key);;
     execute (sql_insert_settings telegram_id))
    (λ _, true) false.

Definition get_user (telegram_id : Z) : Tables → list conn_event * Tables * option User :=
  guarded (execute (sql_select_user telegram_id)) id None.

Definition fallback_settings : Settings :=
  {| slippage := VFloat (binary64_of_ratio 15 1);
     auto_buy_amount := VFloat (binary64_of_ratio 1 10);
     mev_protection := VBool true;
     priority_fee := VStr "medium" |}.

Definition get_settings (telegram_id : Z) : Tables → list conn_event * Tables * Settings :=
  guarded (execute (sql_select_settings telegram_id))
    (default fallback_settings) fallback_settings.

Definition allowed_settings : list string :=
  ["slippage"; "auto_buy_amount"; "mev_protection"; "priority_fee"].

(** An item of the dictionary whose key passes the test of the loop. *)
Definition allowed (kv : string * pyval) : Prop := kv.1 ∈ allowed_settings.

(** The loop of [update_settings] over [settings.items()]. *)
Fixpoint update_settings_loop (telegram_id : Z) (items : list (string * pyval)) : cur () :=
  match items with
  | [] => mret ()
  | (key, value) :: rest =>
      (if bool_decide (key ∈ allowed_settings)
       then execute (sql_update_setting key value telegram_id)
       else mret ());;
      update_settings_loop telegram_id rest
  end.

Definition update_settings (telegram_id : Z) (items : list (string * pyval))
    : Tables → list conn_event * Tables * bool :=
  guarded (update_settings_loop telegram_id items) (λ _, true) false.

Definition log_trade (telegram_id : Z) (token_address trade_type : string)
    (amount_in amount_out : pyval) (signature : string)
    : Tables → list conn_event * Tables * bool :=
  guarded
    (execute (sql_insert_trade telegram_id token_address trade_type
                amount_in amount_out signature))
    (λ _, true) false.

Definition get_trades (telegram_id : Z) (limit : nat)
    : Tables → list conn_event * Tables * list Trade :=
  guarded (execute (sql_select_trades telegram_id limit)) id [].

Definition update_position (telegram_id : Z) (token_address symbol name : string)
    (amount entry_price : pyval) : Tables → list conn_event * Tables * bool :=
  guarded
    (execute (sql_upsert_position telegram_id token_address symbol name amount entry_price))
    (λ _, true) false.

Definition get_positions (telegram_id : Z)
    : Tables → list conn_event * Tables * list (string * Position) :=
  guarded (execute (sql_select_positions telegram_id)) id [].

Definition delete_position (telegram_id : Z) (token_address : string)
    : Tables → list conn_event * Tables * bool :=
  guarded (execute (sql_delete_position telegram_id token_address)) (λ _, true) false.

End Engine.

End Store.

(** ** The handlers *)

Module Bot.

Import Chain Store.

(** [context.user_data], the per-user flags of a conversation. *)
Record UserData : Type := {
  current_token : option string;
  awaiting_custom_amount : bool;
}.

(** The methods of the global [db]. *)
Inductive db_method : Type :=
  | m_create_user | m_get_user | m_get_settings | m_update_settings
  | m_log_trade | m_get_trades | m_update_position | m_get_positions
  | m_delete_position.

Definition writes (m : db_method) : bool :=
  match m with
  | m_create_user | m_update_settings | m_log_trade
  | m_update_position | m_delete_position => true
  | m_get_user | m_get_settings | m_get_trades | m_get_positions => false
  end.

(** What a handler shows to the user, with the data the text is built
    from (layout, emoji and keyboards are left out). *)
Inductive reply : Type :=
  | msg_please_start
  | msg_main_menu (wallet_address : string) (balance : pyfloat)
  | msg_send_token_address
  | msg_no_positions
  | msg_select_token_to_sell (positions : list (string * Position))
  | msg_wallet (wallet_address : string) (balance : pyfloat)
  | msg_private_key (private_key : string)
  | msg_positions (positions : list (string * Position))
  | msg_settings (slippage : pyval)
  | msg_slippage_updated (new_slippage : Z)
  | msg_no_token_selected
  | msg_no_token_to_sell
  | msg_enter_custom_amount
  | msg_invalid_amount
  | msg_amount_must_be_positive
  | msg_insufficient_balance (required available : pyfloat) (wallet_address : string)
  | msg_executing_buy
  | msg_buy_successful (spent : pyfloat) (signature : string)
  | msg_buy_failed (error : string) (retry_amount : pyfloat)
  | msg_selling (percentage : Z)
  | msg_sell_successful (received : pyval) (signature : string)
  | msg_sell_failed (error : string) (retry_percentage : Z)
  | msg_looking_up_token
  | msg_token_card (listed : bool) (address : string)
  | msg_invalid_token_address
  | msg_send_me_a_token.

(** What a handler does that is visible outside it, in order. *)
Inductive effect : Type :=
  | Db (m : db_method)
  | Net (c : call)
  | TokenLookup (address : string)
  | Say (r : reply).

(** The surroundings of one handler run.  Each [db] method is called at
    most once in a run, so the engine's behaviour is given by method.
    [describe_token] stands for [trader.get_token_info] and the
    formatting of its answer in [handle_message]: whether the token was
    found, or the exception raised on the way. *)
Record Env : Type := {
  world : World;
  is_postgres : bool;
  db_env : db_method → DbEnv;
  describe_token : string → result bool;
}.

Record bot_state : Type := {
  db : Tables;
  user_data : UserData;
  trace : list effect;
}.

(** A handler body: it threads the store, the flags and the trace, and
    may end in an exception that no [except] catches (the framework hands
    it to [error_handler], which logs it). *)
Definition bot (A : Type) : Type := bot_state → bot_state * result A.

#[global] Instance bot_mret : MRet bot := λ A a st, (st, Ret a).
#[global] Instance bot_mbind : MBind bot := λ A B f m st,
  match m st with
  | (st', Ret a) => f a st'
  | (st', Exc e) => (st', Exc e)
  end.

Definition emit (e : list effect) : bot () := λ st,
  ({| db := db st; user_data := user_data st; trace := trace st ++ e |}, Ret ()).

Definition say (r : reply) : bot () := emit [Say r].

Definition raise {A} (msg : string) : bot A := λ st, (st, Exc msg).

Definition get_user_data : bot UserData := λ st, (st, Ret (user_data st)).

Definition set_user_data (u : UserData) : bot () := λ st,
  ({| db := db st; user_data := u; trace := trace st |}, Ret ()).

Section Handlers.

Variable env : Env.

(** A call of a [db] method. *)
Definition call_db {A} (m : db_method)
    (f : DbEnv → bool → Tables → list conn_event * Tables * A) : bot A := λ st,
  let '(_, db', a) := f (db_env env m) (is_postgres env) (db st) in
  ({| db := db'; user_data := user_data st; trace := trace st ++ [Db m] |}, Ret a).

(** A call of a [trader] method. *)
Definition call_trader {A} (p : list call * A) : bot A := λ st,
  ({| db := db st; user_data := user_data st; trace := trace st ++ (Net <$> p.1) |},
   Ret p.2).

(** [not current_token] *)
Definition no_token (t : option string) : bool :=
  match t with
  | None => true
  | Some s => bool_decide (s = EmptyString)
  end.

(** [data.replace(pat, "")] for a non-empty [pat]: every occurrence is
    removed, scanning from the left; [skip] counts the characters of an
    occurrence still to drop. *)
Fixpoint str_remove_from (pat : string) (skip : nat) (s : string) : string :=
  match s with
  | EmptyString => EmptyString
  | String c s' =>
      match skip with
      | S k => str_remove_from pat k s'
      | O =>
          if String.prefix pat s
          then str_remove_from pat (String.length pat - 1) s'
          else String c (str_remove_from pat 0 s')
      end
  end.
Definition str_remove (pat s : string) : string := str_remove_from pat 0 s.

(** [text.replace(",", ".")] *)
Fixpoint comma_to_dot (s : string) : string :=
  match s with
  | EmptyString => EmptyString
  | String c s' =>
      String (if Ascii.eqb c "," then "."%char else c) (comma_to_dot s')
  end.

(** [s.split("_")]: the fields between underscores. *)
Fixpoint split_underscore (s : string) : list string :=
  match s with
  | EmptyString => [EmptyString]
  | String c s' =>
      if Ascii.eqb c "_" then EmptyString :: split_underscore s'
      else
        match split_underscore s' with
        | f :: fs => String c f :: fs
        | [] => [String c EmptyString]
        end
  end.

(** [int(data.split("_")[1])] *)
Definition int_field1 (data : string) : bot Z :=
  match split_underscore data !! 1%nat with
  | None => raise "list index out of range"
  | Some f =>
      match int_of_str (world env) f with
      | Some n => mret n
      | None => raise "invalid literal for int() with base 10"
      end
  end.

(** The text that [handle_message] and the ["buy_"] branch of
    [handle_callback] share from [# Check balance] on: the balance check,
    the swap, the trade log and the final message. *)
Definition check_balance_and_buy (user_id : Z) (user : User) (token : string)
    (amount : pyfloat) : bot () :=
  balance ← call_trader (get_balance (world env) (wallet_address user));
  if float_lt balance amount then
    say (msg_insufficient_balance amount balance (wallet_address user))
  else
    say msg_executing_buy;;
    settings ← call_db m_get_settings (λ e p, get_settings e user_id);
    result ← call_trader
               (swap_sol_for_token (world env) (private_key user) token amount
                  (slippage settings));
    match result with
    | SwapOk signature _ amount_out _ =>
        call_db m_log_trade
          (λ e p, log_trade e user_id token "BUY" (VFloat amount) amount_out signature);;
        say (msg_buy_successful amount signature)
    | SwapFailed error => say (msg_buy_failed error amount)
    end.

(** The ["sell_"] branch of [handle_callback]. *)
Definition sell_branch (user_id : Z) (user : User) (data : string) : bot () :=
  percentage ← int_field1 data;
  u ← get_user_data;
  if no_token (current_token u) then say msg_no_token_to_sell
  else
    let token := default EmptyString (current_token u) in
    say (msg_selling percentage);;
    settings ← call_db m_get_settings (λ e p, get_settings e user_id);
    result ← call_trader
               (swap_token_for_sol (world env) (private_key user) token percentage
                  (slippage settings));
    match result with
    | SwapOk signature amount_in amount_out _ =>
        call_db m_log_trade
          (λ e p, log_trade e user_id token "SELL" amount_in amount_out signature);;
        match amount_out with
        | VFloat _ | VInt _ | VBool _ => say (msg_sell_successful amount_out signature)
        | _ => raise "unsupported format string"
        end
    | SwapFailed error => say (msg_sell_failed error percentage)
    end.

(** The ["buy_"] branch of [handle_callback]. *)
Definition buy_branch (user_id : Z) (user : User) (data : string) : bot () :=
  let amount_str := str_remove "buy_" data in
  u ← get_user_data;
  if no_token (current_token u) then say msg_no_token_selected
  else
    let token := default EmptyString (current_token u) in
    if bool_decide (amount_str = "custom") then
      set_user_data {| current_token := current_token u;
                       awaiting_custom_amount := true |};;
      say msg_enter_custom_amount
    else
      match float_of_str (world env) amount_str with
      | None => say msg_invalid_amount
      | Some amount => check_balance_and_buy user_id user token amount
      end.

(** The listing that the ["sell"] button and [/sell] show: at most ten
    positions. *)
Definition sell_menu (user_id : Z) : bot () :=
  positions ← call_db m_get_positions (λ e p, get_positions e user_id);
  match positions with
  | [] => say msg_no_positions
  | _ => say (msg_select_token_to_sell (take 10 positions))
  end.

(** [handle_callback] *)
Definition handle_callback (user_id : Z) (data : string) : bot () :=
  user ← call_db m_get_user (λ e p, get_user e user_id);
  match user with
  | None => say msg_please_start
  | Some user =>
      if bool_decide (data = "back_main") || bool_decide (data = "refresh") then
        balance ← call_trader (get_balance (world env) (wallet_address user));
        say (msg_main_menu (wallet_address user) balance)
      else if bool_decide (data = "buy") then say msg_send_token_address
      else if bool_decide (data = "sell") then sell_menu user_id
      else if bool_decide (data = "wallet") then
        balance ← call_trader (get_balance (world env) (wallet_address user));
        say (msg_wallet (wallet_address user) balance)
      else if bool_decide (data = "export_key") then
        say (msg_private_key (private_key user))
      else if bool_decide (data = "positions") then
        positions ← call_db m_get_positions (λ e p, get_positions e user_id);
        say (msg_positions positions)
      else if bool_decide (data = "settings") then
        settings ← call_db m_get_settings (λ e p, get_settings e user_id);
        say (msg_settings (slippage settings))
      else if String.prefix "slippage_" data then
        new_slippage ← int_field1 data;
        call_db m_update_settings
          (λ e p, update_settings e user_id [("slippage", VInt new_slippage)]);;
        settings ← call_db m_get_settings (λ e p, get_settings e user_id);
        say (msg_slippage_updated new_slippage)
      else if String.prefix "buy_" data then buy_branch user_id user data
      else if String.prefix "sell_" data then sell_branch user_id user data
      else mret ()
  end.

(** [handle_message]; [text] is the message text already stripped. *)
Definition handle_message (user_id : Z) (text : string) : bot () :=
  u ← get_user_data;
  if awaiting_custom_amount u then
    set_user_data {| current_token := current_token u;
                     awaiting_custom_amount := false |};;
    if no_token (current_token u) then say msg_no_token_selected
    else
      let token := default EmptyString (current_token u) in
      let retry := set_user_data {| current_token := current_token u;
                                    awaiting_custom_amount := true |} in
      match float_of_str (world env) (comma_to_dot text) with
      | None => say msg_invalid_amount;; retry
      | Some amount =>
          if float_le amount (PFin (Qc_of_Z 0)) then
            say msg_amount_must_be_positive;; retry
          else
            user ← call_db m_get_user (λ e p, get_user e user_id);
            match user with
            | None => say msg_please_start
            | Some user => check_balance_and_buy user_id user token amount
            end
      end
  else if bool_decide (32 ≤ String.length text)%nat && bool_decide (String.length text ≤ 44)%nat
  then
    match Pubkey_from_string (world env) text with
    | Exc _ => say msg_invalid_token_address
    | Ret _ =>
        set_user_data {| current_token := Some text;
                         awaiting_custom_amount := awaiting_custom_amount u |};;
        say msg_looking_up_token;;
        emit [TokenLookup text];;
        match describe_token env text with
        | Ret listed => say (msg_token_card listed text)
        | Exc _ => say msg_invalid_token_address
        end
    end
  else say msg_send_me_a_token.

(** [start], the [/start] command. *)
Definition start (user_id : Z) (username public_key private_key : string) : bot () :=
  existing_user ← call_db m_get_user (λ e p, get_user e user_id);
  wallet ← match existing_user with
           | None =>
               call_db m_create_user
                 (λ e p, create_user e p user_id username public_key private_key);;
               mret public_key
           | Some user => mret (wallet_address user)
           end;
  balance ← call_trader (get_balance (world env) wallet);
  say (msg_main_menu wallet balance).

End Handlers.

Definition initial (t : Tables) (u : UserData) : bot_state :=
  {| db := t; user_data := u; trace := [] |}.

(** A handler body [m] keeps the relation [R] between the tables before
    and after it, and every effect it adds to the trace satisfies [P]. *)
Definition behaves (R : relation Tables) (P : effect → Prop) {A} (m : bot A) : Prop :=
  ∀ st, R (db st) (db (m st).1) ∧
        ∃ new, trace (m st).1 = trace st ++ new ∧ Forall P new.

Definition same_positions (d d' : Tables) : Prop := positions d' = positions d.

Definition not_position_write (e : effect) : Prop :=
  e ≠ Db m_update_position ∧ e ≠ Db m_delete_position.

End Bot.

(** ** Every store operation, as one value *)

Module Operations.

Import Store.

(** A call of a [Database] method with its arguments. *)
Inductive store_call : Type :=
  | call_init_db
  | call_create_user (telegram_id : Z) (username wallet_address private_key : string)
  | call_get_user (telegram_id : Z)
  | call_get_settings (telegram_id : Z)
  | call_update_settings (telegram_id : Z) (items : list (string * pyval))
  | call_log_trade (telegram_id : Z) (token_address trade_type : string)
      (amount_in amount_out : pyval) (signature : string)
  | call_get_trades (telegram_id : Z) (limit : nat)
  | call_update_position (telegram_id : Z) (token_address symbol name : string)
      (amount entry_price : pyval)
  | call_get_positions (telegram_id : Z)
  | call_delete_position (telegram_id : Z) (token_address : string).

Definition is_ret {A} (r : result A) : bool :=
  match r with Ret _ => true | Exc _ => false end.

(** The driver calls of a method and the tables afterwards. *)
Definition run (env : DbEnv) (is_postgres : bool) (c : store_call) (db : Tables)
    : list conn_event * Tables :=
  match c with
  | call_init_db => (init_db env db).1
  | call_create_user tid u w k => (create_user env is_postgres tid u w k db).1
  | call_get_user tid => (get_user env tid db).1
  | call_get_settings tid => (get_settings env tid db).1
  | call_update_settings tid items => (update_settings env tid items db).1
  | call_log_trade tid tok ty a_in a_out sig =>
      (log_trade env tid tok ty a_in a_out sig db).1
  | call_get_trades tid limit => (get_trades env tid limit db).1
  | call_update_position tid tok sym nm amt price =>
      (update_position env tid tok sym nm amt price db).1
  | call_get_positions tid => (get_positions env tid db).1
  | call_delete_position tid tok => (delete_position env tid tok db).1
  end.

(** The shapes a method's driver calls may take: no connection at all, or
    one connection with one cursor, the statements, then exactly one of
    commit, rollback, or failed commit followed by rollback, then the two
    [close] calls, in that order and last. *)
Inductive ending : Type := committed | rolled_back | not_connected.

Definition opened (n : nat) : list conn_event :=
  [ev_connect true; ev_cursor] ++ replicate n ev_execute.

Definition released : list conn_event := [ev_cursor_close; ev_conn_close].

Inductive disciplined : list conn_event → ending → Prop :=
  | d_not_connected : disciplined [ev_connect false] not_connected
  | d_committed n : disciplined (opened n ++ [ev_commit true] ++ released) committed
  | d_rolled_back n ok :
      disciplined (opened n ++ [ev_rollback ok] ++ released) rolled_back
  | d_commit_failed n ok :
      disciplined (opened n ++ [ev_commit false; ev_rollback ok] ++ released) rolled_back.

End Operations.

(** ** Concurrent upserts on one position *)

Module Concurrent.

Import Store.

(** *** Transactions that run at the same time

    The body of a [with self.get_cursor()] block as the sequence of
    statements it sends: each statement with what the body does with
    its rows.  [writes] tells an [INSERT], [UPDATE] or [DELETE] from a
    [SELECT]. *)
Inductive script : Type :=
  | Return
  | Exec (writes : bool) {B : Type} (stmt : Tables → result (Tables * B))
      (k : B → script).

(** The script as a body for one cursor, statement after statement. *)
Fixpoint as_cursor (env : DbEnv) (p : script) : cur () :=
  match p with
  | Return => mret ()
  | Exec _ stmt k => b ← execute env stmt; as_cursor env (k b)
  end.

(** How far one [get_cursor] block has come: not yet connected; connected,
    with the statements still to send, the number sent, and the tables as
    the transaction sees them once it has written; or over, committed or
    not. *)
Inductive progress : Type :=
  | Pending (todo : script)
  | Open (todo : script) (executed : nat) (work : option Tables)
  | Closed (committed : bool).

(** The engine with several connections.  [committed] are the tables that
    a new statement of any connection sees; [lock] is the connection that
    has written and not yet committed; [closed] lists the connections in
    the order in which their blocks ended. *)
Record system : Type := {
  committed : Tables;
  sessions : list (DbEnv * progress);
  lock : option nat;
  closed : list nat;
}.

(** The end of block [i]: the commit publishes what the transaction
    wrote, a rollback drops it; either way its lock is released. *)
Definition finish (i : nat) (env : DbEnv) (ok : bool) (work : option Tables)
    (st : system) : system :=
  {| committed := if ok then default (committed st) work else committed st;
     sessions := <[i := (env, Closed ok)]> (sessions st);
     lock := if bool_decide (lock st = Some i) then None else lock st;
     closed := closed st ++ [i] |}.

(** One driver call of connection [i]: connect, the next [execute], or
    the commit.  A statement sees the committed tables, or the
    transaction's own once it has written, and runs in one piece.  A
    statement that writes while another connection holds the lock does
    not run: the engine keeps it waiting (when the engine gives up
    instead, that is a failure of [execute_error]).  A failure ends the
    block with a rollback, as in [get_cursor]. *)
Definition move (i : nat) (st : system) : system :=
  match sessions st !! i with
  | None => st
  | Some (env, Closed _) => st
  | Some (env, Pending todo) =>
      match connect_error env with
      | Some _ => finish i env false None st
      | None =>
          {| committed := committed st;
             sessions := <[i := (env, Open todo 0 None)]> (sessions st);
             lock := lock st; closed := closed st |}
      end
  | Some (env, Open Return n work) =>
      match commit_error env with
      | Some _ => finish i env false work st
      | None => finish i env true work st
      end
  | Some (env, Open (Exec writes stmt k) n work) =>
      if writes && bool_decide (lock st ≠ None ∧ lock st ≠ Some i) then st
      else
        match execute_error env n with
        | Some _ => finish i env false work st
        | None =>
            match stmt (default (committed st) work) with
            | Exc _ => finish i env false work st
            | Ret (t, b) =>
                {| committed := committed st;
                   sessions :=
                     <[i := (env, Open (k b) (S n) (if writes then Some t else work))]>
                       (sessions st);
                   lock := if writes then Some i else lock st;
                   closed := closed st |}
            end
        end
  end.

(** A run of the system: which connection makes its next driver call, in
    turn. *)
Definition run (schedule : list nat) (st : system) : system :=
  foldl (λ st i, move i st) st schedule.

Definition is_closed (s : DbEnv * progress) : bool :=
  match s.2 with
  | Closed _ => true
  | _ => false
  end.

(** Every block is over. *)
Definition all_closed (st : system) : bool := forallb is_closed (sessions st).

(** *** Calls of [update_position] on one key *)

(** One pending call of [update_position] on the key under study, with
    the engine behaviour it will meet. *)
Record upsert : Type := {
  u_env : DbEnv;
  u_symbol : string;
  u_name : string;
  u_delta : pyval;
  u_entry_price : pyval;
}.

Section Key.

Variables (telegram_id : Z) (token_address : string).

Definition run_upsert (c : upsert) (db : Tables) : list conn_event * Tables * bool :=
  update_position (u_env c) telegram_id token_address
    (u_symbol c) (u_name c) (u_delta c) (u_entry_price c) db.

(** The block of [update_position]: its one statement. *)
Definition upsert_script (c : upsert) : script :=
  Exec true
    (sql_upsert_position (u_env c) telegram_id token_address
       (u_symbol c) (u_name c) (u_delta c) (u_entry_price c))
    (λ _, Return).

(** The calls are pending at once, each on a connection of its own. *)
Definition start (db : Tables) (calls : list upsert) : system :=
  {| committed := db;
     sessions := (λ c, (u_env c, Pending (upsert_script c))) <$> calls;
     lock := None; closed := [] |}.

(** The recorded amount of the key, if it has a row. *)
Definition held (db : Tables) : option pyval :=
  amount <$> positions db !! (telegram_id, token_address).

(** The engine lets the call through: no failure is injected. *)
Definition unhindered (c : upsert) : bool :=
  bool_decide (connect_error (u_env c) = None) &&
  bool_decide (execute_error (u_env c) 0 = None) &&
  bool_decide (commit_error (u_env c) = None).

(** The calls one after the other, in the order of the list. *)
Fixpoint in_order (db : Tables) (l : list upsert) : Tables :=
  match l with
  | [] => db
  | c :: rest => in_order (run_upsert c db).1.2 rest
  end.

Definition statements (evs : list conn_event) : nat :=
  length (filter (λ ev, ev = ev_execute) evs).

(** What holds of connection [i] during a run started from [calls]: it
    belongs to the call [i]; before its statement it holds no lock; after
    it, it holds the lock and its tables are those the statement made of
    the committed ones; it is listed in [closed] once it is over. *)
Definition tracks (calls : list upsert) (st : system) (i : nat)
    (s : DbEnv * progress) : Prop :=
  ∃ c, calls !! i = Some c ∧ s.1 = u_env c ∧
    match s.2 with
    | Pending todo => todo = upsert_script c ∧ (i ∉ closed st) ∧ lock st ≠ Some i
    | Open todo n work =>
        (i ∉ closed st) ∧ connect_error (u_env c) = None ∧
        ((todo = upsert_script c ∧ n = 0%nat ∧ work = None ∧ lock st ≠ Some i) ∨
         (todo = Return ∧ execute_error (u_env c) 0 = None ∧ lock st = Some i ∧
          ∃ t, work = Some t ∧
               sql_upsert_position (u_env c) telegram_id token_address
                 (u_symbol c) (u_name c) (u_delta c) (u_entry_price c) (committed st)
               = Ret (t, ())))
    | Closed _ => i ∈ closed st ∧ lock st ≠ Some i
    end.

(** The invariant of a run started from [db] and [calls]: the committed
    tables are those that the calls already over leave when they run one
    after the other, in the order in which they ended. *)
Definition coherent (db : Tables) (calls : list upsert) (st : system) : Prop :=
  length (sessions st) = length calls ∧
  (∀ i s, sessions st !! i = Some s → tracks calls st i s) ∧
  NoDup (closed st) ∧
  (∀ i, i ∈ closed st → is_Some (calls !! i)) ∧
  committed st = in_order db (omap (λ i, calls !! i) (closed st)).

(** A pattern the method does not use, for comparison: read the amount,
    add in Python, write the result back in a second statement. *)
Definition read_then_write (env : DbEnv) (delta : pyfloat) : script :=
  Exec false (λ t, Ret (t, positions t !! (telegram_id, token_address)))
    (λ row,
       match row with
       | Some old =>
           let sum := match amount old with
                      | VFloat x => VFloat (float_add x delta)
                      | v => v
                      end in
           Exec true
             (λ t, Ret (with_positions
                          (alter (λ r, {| symbol := symbol r; name := name r;
                                          amount := sum;
                                          entry_price := entry_price r;
                                          created_at := created_at r;
                                          updated_at := now env |})
                             (telegram_id, token_address)) t, ()))
             (λ _, Return)
       | None => Return
       end).

End Key.

(** The engine keeps a REAL as a binary64 value, as SQLite does: a float
    that is not NaN is stored as it is, and [+] is the float
    addition. *)
Definition binary64_reals (env : DbEnv) : Prop :=
  (∀ x, x ≠ PNan → stored env positions_amount (VFloat x) = VFloat x) ∧
  (∀ x y, float_add x y ≠ PNan →
     real_add env (VFloat x) (VFloat y) = VFloat (float_add x y)).

(** On such an engine [a > 0] on a float is the comparison of floats
    (false on NULL, which is what it keeps of NaN). *)
Definition binary64_order (env : DbEnv) : Prop :=
  ∀ x, is_positive env (VFloat x) = float_lt (PFin (Qc_of_Z 0)) x.

(** The sum of the whole amounts [units c] of the calls, and the sum of
    their magnitudes. *)
Definition total_units (units : upsert → Z) (l : list upsert) : Z :=
  foldr (λ c acc, units c + acc) 0 l.

Definition magnitude (units : upsert → Z) (l : list upsert) : Z :=
  foldr (λ c acc, Z.abs (units c) + acc) 0 l.

End Concurrent.

(** ** A test double

    The scenario of a stub aggregator that quotes 500000 units, a ledger
    that reports fixed balances, and a store that never fails. *)

Module Scenario.

Import Chain Store Bot.

(** [int(s)] on a string of ASCII digits. *)
Fixpoint digits_value (acc : Z) (s : string) : option Z :=
  match s with
  | EmptyString => Some acc
  | String c s' =>
      let n := Z.of_nat (nat_of_ascii c) in
      if (48 <=? n) && (n <=? 57) then digits_value (10 * acc + (n - 48)) s'
      else None
  end.

Definition decimal_int (s : string) : option Z :=
  match s with
  | EmptyString => None
  | _ => digits_value 0 s
  end.

Definition quote_500000 : Quote :=
  {| outAmount := Some (VStr "500000"); priceImpactPct := Some (VStr "0.01") |}.

(** A world where the wallet holds [lamports] and [token_units]. *)
Definition stub_world (lamports token_units : Z) : World :=
  {| keypair_pubkey := λ _, Ret "WALLET";
     Pubkey_from_string := Ret;
     b64decode := λ _, Ret [];
     int_of_str := decimal_int;
     float_of_str := λ s,
       if String.eqb s "1.0" then Some (PFin (Qc_of_Z 1))
       else if String.eqb s "5.0" then Some (PFin (Qc_of_Z 5))
       else None;
     client_get_balance := λ _, Ret (Some lamports);
     client_get_token_accounts := λ _ _,
       Ret [ParsedAmount (Some (VInt token_units))];
     client_send_raw_transaction := λ _, Ret "SIGNATURE";
     quote_api := λ _ _ _ _, Ret {| status_code := 200; json := Ret quote_500000 |};
     swap_api := λ _ _,
       Ret {| status_code := 200;
              json := Ret {| swapTransaction := Some (VStr "AQID") |} |} |}.

(** The store double keeps numbers the way SQLite does.  A [bool] is
    bound as an int; an int given to a REAL column becomes the nearest
    float; a float with a whole value given to an INTEGER column becomes
    that int; NaN becomes NULL.  SQLite's conversions between text and
    numbers are not written out: text given to a numeric column, and a
    number given to a TEXT column, stay as they were bound. *)
Definition as_real (v : pyval) : pyval :=
  match v with
  | VBool b => VFloat (PFin (Qc_of_Z (if b then 1 else 0)))
  | VInt z => match float_of_int z with Some x => VFloat x | None => v end
  | VFloat PNan => VNone
  | _ => v
  end.

Definition as_integer (v : pyval) : pyval :=
  match v with
  | VBool b => VInt (if b then 1 else 0)
  | VFloat PNan => VNone
  | VFloat (PFin q) =>
      if bool_decide (Qden (this q) = 1%positive) &&
         bool_decide (- 2 ^ 63 ≤ Qnum (this q) < 2 ^ 63)
      then VInt (Qnum (this q)) else v
  | _ => v
  end.

Definition kept (c : column_name) (v : pyval) : pyval :=
  match c with
  | settings_slippage | settings_auto_buy_amount
  | positions_amount | positions_entry_price => as_real v
  | settings_mev_protection => as_integer v
  | settings_priority_fee => v
  end.

(** [a + b] on two floats of a REAL column; a NaN result is NULL, and so
    is a sum with NULL. *)
Definition added (a b : pyval) : pyval :=
  match a, b with
  | VFloat x, VFloat y => as_real (VFloat (float_add x y))
  | _, _ => VNone
  end.

(** [a > 0]; text sorts after every number. *)
Definition above_zero (a : pyval) : bool :=
  match a with
  | VFloat x => float_lt (PFin (Qc_of_Z 0)) x
  | VInt z => 0 <? z
  | VStr _ => true
  | _ => false
  end.

Definition quiet : DbEnv :=
  {| connect_error := None; execute_error := λ _, None;
     commit_error := None; rollback_error := None; now := 7%nat;
     stored := kept; real_add := added; is_positive := above_zero |}.

Definition stub_env (lamports token_units : Z) : Env :=
  {| world := stub_world lamports token_units;
     is_postgres := false;
     db_env := λ _, quiet;
     describe_token := λ _, Ret true |}.

Definition alice : Z := 42.
Definition token : string := "TokenMint11111111111111111111111111111111".

Definition alice_row : User :=
  {| username := "alice"; wallet_address := "WALLET";
     private_key := "KEY"; user_created_at := 1%nat |}.

(** The store after [/start] by alice. *)
Definition registered : Tables :=
  {| users := {[ alice := alice_row ]};
     settings := {[ alice := default_settings_row false ]};
     trades := [];
     positions := ∅ |}.

(** Alice has pasted the token address. *)
Definition token_selected : bot_state :=
  initial registered {| current_token := Some token; awaiting_custom_amount := false |}.

(** A ledger that cannot be reached. *)
Definition offline_world : World :=
  {| keypair_pubkey := λ _, Ret "WALLET";
     Pubkey_from_string := Ret;
     b64decode := λ _, Ret [];
     int_of_str := decimal_int;
     float_of_str := λ _, None;
     client_get_balance := λ _, Exc "timed out";
     client_get_token_accounts := λ _ _, Exc "timed out";
     client_send_raw_transaction := λ _, Exc "timed out";
     quote_api := λ _ _ _ _, Exc "timed out";
     swap_api := λ _ _, Exc "timed out" |}.

(** An upsert of [units] on alice's position. *)
Definition upsert_of (units : Z) : Concurrent.upsert :=
  {| Concurrent.u_env := quiet; Concurrent.u_symbol := "TKN";
     Concurrent.u_name := "Token";
     Concurrent.u_delta := VFloat (PFin (Qc_of_Z units));
     Concurrent.u_entry_price := VNone |}.

(** The whole amount of a float. *)
Definition units_of (c : Concurrent.upsert) : Z :=
  match Concurrent.u_delta c with
  | VFloat (PFin q) => Qnum (this q)
  | _ => 0
  end.

(** Two connections: both connect, the second writes first, the first
    has to wait for its commit. *)
Definition second_writes_first : list nat := [0; 1; 1; 0; 1; 0; 0]%nat.

End Scenario.

(** ** The commands and the keyboards *)

Module Commands.

Import Chain Store Bot.

Section Commands.

Variable env : Env.

(** [cmd_buy], the [/buy] command. *)
Definition cmd_buy : bot () := say msg_send_token_address.

(** [cmd_sell], the [/sell] command. *)
Definition cmd_sell (user_id : Z) : bot () :=
  user ← call_db env m_get_user (λ e p, get_user e user_id);
  match user with
  | None => say msg_please_start
  | Some _ =>
      positions ← call_db env m_get_positions (λ e p, get_positions e user_id);
      match positions with
      | [] => say msg_no_positions
      | _ => say (msg_select_token_to_sell (take 10 positions))
      end
  end.

(** [cmd_wallet], the [/wallet] command. *)
Definition cmd_wallet (user_id : Z) : bot () :=
  user ← call_db env m_get_user (λ e p, get_user e user_id);
  match user with
  | None => say msg_please_start
  | Some user =>
      balance ← call_trader (get_balance (world env) (wallet_address user));
      say (msg_wallet (wallet_address user) balance)
  end.

(** [cmd_positions], the [/positions] command. *)
Definition cmd_positions (user_id : Z) : bot () :=
  user ← call_db env m_get_user (λ e p, get_user e user_id);
  match user with
  | None => say msg_please_start
  | Some _ =>
      positions ← call_db env m_get_positions (λ e p, get_positions e user_id);
      say (msg_positions positions)
  end.

(** [cmd_settings], the [/settings] command. *)
Definition cmd_settings (user_id : Z) : bot () :=
  user ← call_db env m_get_user (λ e p, get_user e user_id);
  match user with
  | None => say msg_please_start
  | Some _ =>
      settings ← call_db env m_get_settings (λ e p, get_settings e user_id);
      say (msg_settings (slippage settings))
  end.

End Commands.

(** The commands that read the store or answer with a prompt ([/start]
    is [Bot.start]; [/help] sends a fixed text). *)
Inductive command : Type :=
  | slash_buy | slash_sell | slash_wallet | slash_positions | slash_settings.

Definition run_command (env : Env) (user_id : Z) (c : command) : bot () :=
  match c with
  | slash_buy => cmd_buy
  | slash_sell => cmd_sell env user_id
  | slash_wallet => cmd_wallet env user_id
  | slash_positions => cmd_positions env user_id
  | slash_settings => cmd_settings env user_id
  end.

(** The [callback_data] of the buttons of each keyboard, row by row. *)
Definition get_main_menu_keyboard : list (list string) :=
  [["buy"; "sell"]; ["wallet"; "positions"]; ["settings"; "refresh"]].

Definition get_buy_keyboard : list (list string) :=
  [["buy_0.1"; "buy_0.25"; "buy_0.5"]; ["buy_1"; "buy_2"; "buy_5"];
   ["buy_custom"]; ["back_main"]].

Definition get_sell_keyboard : list (list string) :=
  [["sell_25"; "sell_50"]; ["sell_75"; "sell_100"]; ["back_main"]].

Definition get_settings_keyboard : list (list string) :=
  [["settings_slippage"];
   ["slippage_5"; "slippage_10"; "slippage_15"; "slippage_25"];
   ["back_main"]].

Definition get_wallet_keyboard : list (list string) :=
  [["copy_address"; "export_key"]; ["refresh_balance"]; ["back_main"]].

Definition keyboard_buttons : list string :=
  concat (get_main_menu_keyboard ++ get_buy_keyboard ++ get_sell_keyboard ++
          get_settings_keyboard ++ get_wallet_keyboard).

(** The button that the sell menu makes for a position:
    [f"selltoken_{pos['token_address'][:16]}"]. *)
Definition selltoken_button (token_address : string) : string :=
  String.append "selltoken_" (String.substring 0 16 token_address).

(** The tests of the [if]/[elif] chain of [handle_callback]: some branch
    takes the data. *)
Definition recognised (data : string) : bool :=
  bool_decide (data = "back_main") || bool_decide (data = "refresh") ||
  bool_decide (data = "buy") || bool_decide (data = "sell") ||
  bool_decide (data = "wallet") || bool_decide (data = "export_key") ||
  bool_decide (data = "positions") || bool_decide (data = "settings") ||
  String.prefix "slippage_" data || String.prefix "buy_" data ||
  String.prefix "sell_" data.

(** No condition on an effect. *)
Definition any_effect (e : effect) : Prop := True.

(** The state after a handler that made the effects [new] and changed
    nothing else. *)
Definition only_said (st : bot_state) (new : list effect) : bot_state :=
  {| db := db st; user_data := user_data st; trace := trace st ++ new |}.

(** The effect, if it shows a private key, shows the one of [user]. *)
Definition shows_key_of (user : User) (e : effect) : Prop :=
  ∀ k, e = Say (msg_private_key k) → k = private_key user.

(** The effect shows no private key. *)
Definition shows_no_key (e : effect) : Prop := ∀ k, e ≠ Say (msg_private_key k).

(** The effect is not a call of a store method that writes. *)
Definition no_store_write (e : effect) : Prop := ∀ m, e = Db m → writes m = false.

End Commands.

(** ** The calls of a swap *)

Module Shapes.

Import Chain.

(** The calls of a swap after the balance read: a quote for the two
    mints, then the build for that quote, then one submission, or a
    beginning of that sequence. *)
Definition swap_calls (inputMint outputMint : string) (t : list call) : Prop :=
  ∃ amount bps quote wallet tx,
    t `prefix_of` [http_get_quote inputMint outputMint amount bps;
                   http_post_swap quote wallet;
                   rpc_send_raw_transaction tx].

Definition is_ledger_read (c : call) : bool :=
  match c with
  | rpc_get_balance _ | rpc_get_token_accounts_by_owner _ _ => true
  | _ => false
  end.

Definition is_submission (c : call) : bool :=
  match c with
  | rpc_send_raw_transaction _ => true
  | _ => false
  end.

End Shapes.

(** ** What the store keeps *)

Module Kept.

Import Store.

(** No failure is injected into an operation of one statement. *)
Definition through (env : DbEnv) : bool :=
  bool_decide (connect_error env = None) &&
  bool_decide (execute_error env 0 = None) &&
  bool_decide (commit_error env = None).

(** No failure is injected at all. *)
Definition healthy (env : DbEnv) : Prop :=
  connect_error env = None ∧ (∀ n, execute_error env n = None) ∧
  commit_error env = None.

(** The user rows and the trade rows of [t] are still in [t']: every user
    row is there with the same content, and the trades of [t] are the
    first trades of [t'], in the same order. *)
Definition kept (t t' : Tables) : Prop :=
  users t ⊆ users t' ∧ trades t `prefix_of` trades t'.

(** Every user has a settings row and every settings row has its user. *)
Definition paired (t : Tables) : Prop := dom (settings t) = dom (users t).

(** No row of [users] or [settings] appeared or disappeared. *)
Definition same_keys (t t' : Tables) : Prop :=
  dom (settings t') = dom (settings t) ∧ dom (users t') = dom (users t).

(** Users and trades are kept, and so is the pairing of users and
    settings when it held. *)
Definition safe (t t' : Tables) : Prop :=
  kept t t' ∧ (paired t → paired t').

(** A body of a [with] block keeps [R] between the tables it starts from
    and those it leaves. *)
Definition cur_keeps (R : relation Tables) {A} (body : cur A) : Prop :=
  ∀ st, R (work st) (work (body st).1).

End Kept.

(** ** The token lookup *)

Module TokenInfo.

Import Chain.

(** What [response.json()] returns: a JSON document as Python values. *)
#[warnings="-register-all"] Inductive jvalue : Type :=
  | JNull
  | JBool (b : bool)
  | JInt (z : Z)
  | JFloat (x : pyfloat)
  | JStr (s : string)
  | JList (items : list jvalue)
  | JObj (fields : gmap string jvalue).

(** [type(v).__name__] *)
Definition type_name (v : jvalue) : string :=
  match v with
  | JNull => "NoneType"
  | JBool _ => "bool"
  | JInt _ => "int"
  | JFloat _ => "float"
  | JStr _ => "str"
  | JList _ => "list"
  | JObj _ => "dict"
  end.

(** [v.get(key, d)]: only a dict has the method. *)
Definition py_get (v : jvalue) (key : string) (d : jvalue) : result jvalue :=
  match v with
  | JObj fields => Ret (default d (fields !! key))
  | _ => Exc (String.append "'"
                (String.append (type_name v) "' object has no attribute 'get'"))
  end.

(** The values that [for x in v] goes through: the items of a list, the
    characters of a str, the keys of a dict. *)
Definition py_iter (v : jvalue) : result (list jvalue) :=
  match v with
  | JList items => Ret items
  | JStr s => Ret ((λ c, JStr (String c EmptyString)) <$> list_ascii_of_string s)
  | JObj fields => Ret (JStr <$> (map_to_list fields).*1)
  | _ => Exc (String.append "'" (String.append (type_name v) "' object is not iterable"))
  end.

(** [v == s] for a str [s] *)
Definition py_eq_str (v : jvalue) (s : string) : bool :=
  match v with
  | JStr t => String.eqb t s
  | _ => false
  end.

(** [bool(v)] *)
Definition truthy (v : jvalue) : bool :=
  match v with
  | JNull => false
  | JBool b => b
  | JInt z => negb (z =? 0)
  | JFloat (PFin q) => negb (bool_decide (q = Qc_of_Z 0))
  | JFloat _ => true
  | JStr s => negb (bool_decide (s = EmptyString))
  | JList items => negb (bool_decide (items = []))
  | JObj fields => negb (bool_decide (fields = ∅))
  end.

(** [len(v)] *)
Definition py_len (v : jvalue) : result nat :=
  match v with
  | JStr s => Ret (String.length s)
  | JList items => Ret (length items)
  | JObj fields => Ret (size fields)
  | _ => Exc (String.append "object of type '" (String.append (type_name v) "' has no len()"))
  end.

(** [v[0]]; the keys of a JSON dict are strs, so [0] is never one. *)
Definition py_first (v : jvalue) : result jvalue :=
  match v with
  | JList items => of_option "list index out of range" (items !! 0%nat)
  | JStr (String c _) => Ret (JStr (String c EmptyString))
  | JStr EmptyString => Exc "string index out of range"
  | JObj _ => Exc "0"
  | _ => Exc (String.append "'" (String.append (type_name v) "' object is not subscriptable"))
  end.

(** The dict that [get_token_info] returns: the one built from an entry
    of the strict list, the one built from the first pair of DexScreener,
    or the one with ["success": False]. *)
Inductive token_info : Type :=
  | Listed (name symbol decimals : jvalue) (address : string)
  | Paired (name symbol price_usd price_sol liquidity market_cap volume_24h
            price_change_24h dex : jvalue) (address : string) (pair_address : jvalue)
  | NotFound (error : string) (address : string).

(** The two requests of the lookup. *)
Inductive request : Type :=
  | get_strict_list
  | get_dex_tokens (token_address : string).

(** The replies of the two services. *)
Record Sources : Type := {
  strict_api : result (http_response jvalue);
  dexscreener_api : string → result (http_response jvalue);
}.

(** A computation that sends requests and may raise. *)
Definition fetch (A : Type) : Type := list request * result A.

#[global] Instance fetch_mret : MRet fetch := λ A a, ([], Ret a).
#[global] Instance fetch_mbind : MBind fetch := λ A B f m,
  match m with
  | (t, Ret a) => let '(t', r) := f a in (t ++ t', r)
  | (t, Exc e) => (t, Exc e)
  end.

Definition send {A} (q : request) (r : result A) : fetch A := ([q], r).
Definition pure {A} (r : result A) : fetch A := ([], r).

(** [try: body except Exception as e: handler(str(e))] *)
Definition try_fetch {A} (body : fetch A) (handler : string → A) : list request * A :=
  match body with
  | (t, Ret a) => (t, a)
  | (t, Exc e) => (t, handler e)
  end.

#[global] Instance result_mret : MRet result := λ A a, Ret a.
#[global] Instance result_mbind : MBind result := λ A B f m,
  match m with
  | Ret a => f a
  | Exc e => Exc e
  end.

(** The loop [for token in tokens] with its [return]: the dict of the
    first entry whose address is [token_address], [None] when the loop
    ends without one. *)
Fixpoint find_token (token_address : string) (tokens : list jvalue)
    : result (option token_info) :=
  match tokens with
  | [] => Ret None
  | token :: rest =>
      address ← py_get token "address" JNull;
      if py_eq_str address token_address then
        name ← py_get token "name" (JStr "Unknown");
        symbol ← py_get token "symbol" (JStr "???");
        decimals ← py_get token "decimals" (JInt 9);
        Ret (Some (Listed name symbol decimals token_address))
      else find_token token_address rest
  end.

Section Lookup.

Variable w : Sources.

(** [SolanaTrader.get_token_info].  In [len(data["pairs"])] and
    [data["pairs"][0]] the subscript gives the value that
    [data.get("pairs")] has just returned: [data] is a dict there and the
    value was truthy, so the key is present. *)
Definition get_token_info (token_address : string) : list request * token_info :=
  try_fetch
    (response ← send get_strict_list (strict_api w);
     found ← (if status_code response =? 200 then
                tokens ← pure (json response);
                items ← pure (py_iter tokens);
                pure (find_token token_address items)
              else mret None);
     match found with
     | Some info => mret info
     | None =>
         dex_response ← send (get_dex_tokens token_address)
                          (dexscreener_api w token_address);
         if status_code dex_response =? 200 then
           data ← pure (json dex_response);
           pairs ← pure (py_get data "pairs" JNull);
           if truthy pairs then
             n ← pure (py_len pairs);
             if bool_decide (0 < n)%nat then
               pair ← pure (py_first pairs);
               base ← pure (py_get pair "baseToken" (JObj ∅));
               name ← pure (py_get base "name" (JStr "Unknown"));
               base' ← pure (py_get pair "baseToken" (JObj ∅));
               symbol ← pure (py_get base' "symbol" (JStr "???"));
               price_usd ← pure (py_get pair "priceUsd" (JStr "0"));
               price_sol ← pure (py_get pair "priceNative" (JStr "0"));
               liq ← pure (py_get pair "liquidity" (JObj ∅));
               liquidity ← pure (py_get liq "usd" (JInt 0));
               market_cap ← pure (py_get pair "marketCap" (JInt 0));
               vol ← pure (py_get pair "volume" (JObj ∅));
               volume_24h ← pure (py_get vol "h24" (JInt 0));
               change ← pure (py_get pair "priceChange" (JObj ∅));
               price_change_24h ← pure (py_get change "h24" (JInt 0));
               dex ← pure (py_get pair "dexId" (JStr "unknown"));
               pair_address ← pure (py_get pair "pairAddress" (JStr ""));
               mret (Paired name symbol price_usd price_sol liquidity market_cap
                       volume_24h price_change_24h dex token_address pair_address)
             else mret (NotFound "Token not found" token_address)
           else mret (NotFound "Token not found" token_address)
         else mret (NotFound "Token not found" token_address)
     end)
    (λ e, NotFound e token_address).

End Lookup.

(** An entry of the strict list that the loop passes over: a dict whose
    address is not [token_address]. *)
Definition other_token (token_address : string) (token : jvalue) : Prop :=
  ∃ fields, token = JObj fields ∧
            py_eq_str (default JNull (fields !! "address")) token_address = false.

(** The strict list was read to its end without an entry for
    [token_address], or the service did not answer with status 200. *)
Definition strict_list_passed (w : Sources) (token_address : string) : Prop :=
  ∃ response, strict_api w = Ret response ∧
    (status_code response ≠ 200 ∨
     ∃ tokens items, json response = Ret tokens ∧ py_iter tokens = Ret items ∧
                     Forall (other_token token_address) items).

End TokenInfo.

(** ** More of the scenario *)

Module Cases.

Import Chain Store Bot Scenario TokenInfo.

(** Alice holds 500000 units of the token. *)
Definition alice_position : Position :=
  {| symbol := "TKN"; name := "Token"; amount := VFloat (PFin (Qc_of_Z 500000));
     entry_price := VNone; created_at := 3%nat; updated_at := 5%nat |}.

Definition holding : Tables :=
  {| users := users registered; settings := settings registered;
     trades := [trade_row quiet alice token "BUY" (VInt 1) (VInt 500000) "SIG"];
     positions := {[ (alice, token) := alice_position ]} |}.

(** The bot waits for the amount alice will type. *)
Definition awaiting_amount : bot_state :=
  initial registered {| current_token := Some token; awaiting_custom_amount := true |}.

(** The stub aggregator with a quote whose [outAmount] is no number. *)
Definition unreadable_quote_world : World :=
  {| keypair_pubkey := keypair_pubkey (stub_world 0 0);
     Pubkey_from_string := Pubkey_from_string (stub_world 0 0);
     b64decode := b64decode (stub_world 0 0);
     int_of_str := int_of_str (stub_world 0 0);
     float_of_str := float_of_str (stub_world 0 0);
     client_get_balance := client_get_balance (stub_world 0 0);
     client_get_token_accounts := client_get_token_accounts (stub_world 0 0);
     client_send_raw_transaction := client_send_raw_transaction (stub_world 0 0);
     quote_api := λ _ _ _ _,
       Ret {| status_code := 200;
              json := Ret {| outAmount := Some (VStr "n/a"); priceImpactPct := None |} |};
     swap_api := swap_api (stub_world 0 0) |}.

(** The stub world with [float("nan")]. *)
Definition nan_env : Env :=
  {| world :=
       {| keypair_pubkey := keypair_pubkey (stub_world 0 0);
          Pubkey_from_string := Pubkey_from_string (stub_world 0 0);
          b64decode := b64decode (stub_world 0 0);
          int_of_str := int_of_str (stub_world 0 0);
          float_of_str := λ s, if String.eqb s "nan" then Some PNan else None;
          client_get_balance := client_get_balance (stub_world 0 0);
          client_get_token_accounts := client_get_token_accounts (stub_world 0 0);
          client_send_raw_transaction := client_send_raw_transaction (stub_world 0 0);
          quote_api := quote_api (stub_world 0 0);
          swap_api := swap_api (stub_world 0 0) |};
     is_postgres := false;
     db_env := λ _, quiet;
     describe_token := λ _, Ret true |}.

(** A strict list of two entries, the second one for the token, and a
    DexScreener that cannot be reached. *)
Definition other_entry : gmap string jvalue :=
  {[ "address" := JStr "OtherMint1111111111111111111111111111111111";
     "name" := JStr "Other" ]}.

Definition token_entry : gmap string jvalue :=
  {[ "address" := JStr token; "symbol" := JStr "TKN" ]}.

Definition strict_sources : Sources :=
  {| strict_api :=
       Ret {| status_code := 200;
              json := Ret (JList [JObj other_entry; JObj token_entry]) |};
     dexscreener_api := λ _, Exc "timed out" |}.

End Cases.

(** * Properties *)

(** ** The transaction discipline of [get_cursor] *)

Section Transactions.

Import Store Operations.

Variable env : DbEnv.

(** The case analysis behind every statement about [get_cursor]. *)
Lemma get_cursor_cases {A} (body : cur A) (db : Tables) :
  let '(evs, db', r) := get_cursor env body db in
  let '(st, rb) := body (fresh_cursor db) in
  ∃ e, disciplined evs e ∧
       (e = committed ↔
          connect_error env = None ∧ is_ret rb = true ∧ commit_error env = None) ∧
       (e = committed → db' = work st ∧ r = rb) ∧
       (e ≠ committed → db' = db ∧ is_ret r = false).
Proof.
  unfold get_cursor, fresh_cursor, rollback.
  destruct (connect_error env) as [e|] eqn:Hc.
  - destruct (body _) as [st rb]. exists not_connected.
    split; [constructor|]. repeat split; try done. intros (? & _); done.
  - destruct (body _) as [st [a|e]].
    + destruct (commit_error env) as [e|] eqn:Hm.
      * destruct (rollback_error env);
          (exists rolled_back; split; [apply (d_commit_failed (executed st))|]);
          repeat split; try done; intros (_ & _ & ?); done.
      * exists committed. split; [apply (d_committed (executed st))|].
        repeat split; done.
    + destruct (rollback_error env);
        (exists rolled_back; split; [apply (d_rolled_back (executed st))|]);
        repeat split; try done; intros (_ & ? & _); done.
Qed.

Lemma get_cursor_disciplined {A} (body : cur A) (db : Tables) :
  ∃ e, disciplined (get_cursor env body db).1.1 e ∧
       (e ≠ committed → (get_cursor env body db).1.2 = db).
Proof.
  pose proof (get_cursor_cases body db) as H.
  destruct (get_cursor env body db) as [[evs db'] r].
  destruct (body _) as [st rb]. destruct H as (e & Hd & _ & _ & Hn).
  exists e. split; [done|]. intros Hne. by apply Hn.
Qed.

Lemma guarded_trace {A B} (body : cur A) (f : A → B) (d : B) (db : Tables) :
  (guarded env body f d db).1 = (get_cursor env body db).1.
Proof. unfold guarded. by destruct (get_cursor env body db) as [[evs db'] r]. Qed.

End Transactions.

(** ** The store *)

Section StoreProperties.

Import Store Operations.

Lemma run_is_get_cursor (env : DbEnv) (p : bool) (c : store_call) (db : Tables) :
  ∃ (A : Type) (body : cur A), run env p c db = (get_cursor env body db).1.
Proof.
  destruct c; simpl; unfold init_db, create_user, get_user, get_settings,
    update_settings, log_trade, get_trades, update_position, get_positions,
    delete_position; rewrite ?guarded_trace; eauto.
Qed.

(** C5.  Every method of [Database] runs its statements in one
    transaction: its driver calls are either a failed [connect] alone, or
    one [connect], one cursor, the statements, then a commit, a rollback,
    or a failed commit followed by a rollback, and last of all
    [cursor.close()] and [conn.close()].  The transaction commits exactly
    when the connection was made, the body raised nothing and the commit
    itself went through, and then the tables are those the body left;
    on every other path the tables are as before and the [with] statement
    ends in an exception.  ([conn.cursor()] and the two [close] calls are
    taken to return.) *)
Theorem store_operations_transactional :
  (∀ (env : DbEnv) (A : Type) (body : cur A) (db : Tables),
     let '(evs, db', r) := get_cursor env body db in
     let '(st, rb) := body (fresh_cursor db) in
     ∃ e, disciplined evs e ∧
          (e = committed ↔
             connect_error env = None ∧ is_ret rb = true ∧ commit_error env = None) ∧
          (e = committed → db' = work st ∧ r = rb) ∧
          (e ≠ committed → db' = db ∧ is_ret r = false)) ∧
  (∀ (env : DbEnv) (p : bool) (c : store_call) (db : Tables),
     ∃ e, disciplined (run env p c db).1 e ∧
          (e ≠ committed → (run env p c db).2 = db)).
Proof.
  split.
  - intros env A body db. apply get_cursor_cases.
  - intros env p c db.
    destruct (run_is_get_cursor env p c db) as (A & body & ->).
    apply get_cursor_disciplined.
Qed.

(** C10.  [create_user] returns [True] exactly when the connection was
    made, both inserts went through (no row of [users] and none of
    [settings] had the [telegram_id], and the engine refused neither) and
    the commit succeeded; the tables then hold the user's row and the
    default settings row, and nothing else changed.  In every other case
    it returns [False], raises nothing, and the tables are as before:
    neither row is kept. *)
Theorem create_user_atomic
    (env : DbEnv) (p : bool) (telegram_id : Z)
    (username wallet_address private_key : string) (db : Tables) :
  let '(evs, db', ok) :=
    create_user env p telegram_id username wallet_address private_key db in
  let row := {| Store.username := username; Store.wallet_address := wallet_address;
                Store.private_key := private_key; user_created_at := now env |} in
  (ok = true ↔
     connect_error env = None ∧
     execute_error env 0 = None ∧ users db !! telegram_id = None ∧
     execute_error env 1 = None ∧ settings db !! telegram_id = None ∧
     commit_error env = None) ∧
  (ok = true →
     db' = {| users := <[telegram_id := row]> (users db);
              settings := <[telegram_id := default_settings_row p]> (settings db);
              trades := trades db; positions := positions db |}) ∧
  (ok = false → db' = db) ∧
  (∃ e, disciplined evs e).
Proof.
  pose proof (get_cursor_disciplined env
    (execute env (sql_insert_user env telegram_id username wallet_address private_key);;
     execute env (sql_insert_settings p telegram_id)) db) as (e & Hd & _).
  revert Hd.
  unfold create_user, guarded, get_cursor, rollback, fresh_cursor.
  destruct (connect_error env) as [ce|] eqn:Hce; simpl.
  { intros Hd. repeat split; try done; [intros (? & _); done | eauto]. }
  unfold mbind, cur_mbind, execute, sql_insert_user, sql_insert_settings; simpl.
  destruct (execute_error env 0) as [e0|] eqn:H0; simpl.
  { destruct (rollback_error env); simpl; intros Hd;
      (repeat split; try done; [intros (_ & ? & _); done | eauto]). }
  destruct (users db !! telegram_id) as [u|] eqn:Hu; simpl.
  { destruct (rollback_error env); simpl; intros Hd;
      (repeat split; try done; [intros (_ & _ & ? & _); done | eauto]). }
  destruct (execute_error env 1) as [e1|] eqn:H1; simpl.
  { destruct (rollback_error env); simpl; intros Hd;
      (repeat split; try done; [intros (_ & _ & _ & ? & _); done | eauto]). }
  destruct (settings db !! telegram_id) as [s|] eqn:Hs; simpl.
  { destruct (rollback_error env); simpl; intros Hd;
      (repeat split; try done; [intros (_ & _ & _ & _ & ? & _); done | eauto]). }
  destruct (commit_error env) as [me|] eqn:Hm; simpl.
  { destruct (rollback_error env); simpl; intros Hd;
      (repeat split; try done; [intros (_ & _ & _ & _ & _ & ?); done | eauto]). }
  intros Hd. repeat split; try done. eauto.
Qed.

End StoreProperties.

Section SettingsProperties.

Import Store Operations.

Variable env : DbEnv.

Lemma column_set_column_ne (key key' : string) (v : pyval) (r : Settings) :
  key ≠ key' → column key (set_column key' v r) = column key r.
Proof.
  intros Hne. unfold set_column, column.
  destruct (String.eqb_spec key "slippage") as [->|?];
    [|destruct (String.eqb_spec key "auto_buy_amount") as [->|?];
      [|destruct (String.eqb_spec key "mev_protection") as [->|?];
        [|destruct (String.eqb_spec key "priority_fee") as [->|?]]]];
  (destruct (String.eqb_spec key' "slippage") as [->|?];
    [|destruct (String.eqb_spec key' "auto_buy_amount") as [->|?];
      [|destruct (String.eqb_spec key' "mev_protection") as [->|?];
        [|destruct (String.eqb_spec key' "priority_fee") as [->|?]]]]);
  simpl; congruence.
Qed.

Lemma update_settings_loop_filter (telegram_id : Z) (items : list (string * pyval))
    (st : cursor_state) :
  update_settings_loop env telegram_id items st =
  update_settings_loop env telegram_id (filter allowed items) st.
Proof.
  revert st. induction items as [|[key value] rest IH]; intros st; [done|].
  rewrite filter_cons. unfold allowed at 1. simpl.
  destruct (decide (key ∈ allowed_settings)) as [Hin|Hout].
  - rewrite bool_decide_eq_true_2 by done. simpl.
    rewrite bool_decide_eq_true_2 by done.
    unfold mbind, cur_mbind.
    destruct (execute _ _ st) as [st' [[]|e]]; [apply IH|done].
  - rewrite bool_decide_eq_false_2 by done. apply IH.
Qed.

Lemma update_settings_loop_frame (telegram_id : Z) (items : list (string * pyval))
    (st st' : cursor_state) (x : result ()) :
  update_settings_loop env telegram_id items st = (st', x) →
  users (work st') = users (work st) ∧
  trades (work st') = trades (work st) ∧
  positions (work st') = positions (work st) ∧
  dom (settings (work st')) = dom (settings (work st)) ∧
  (∀ other, other ≠ telegram_id →
     settings (work st') !! other = settings (work st) !! other) ∧
  (∀ key r r', key ∉ items.*1 →
     settings (work st) !! telegram_id = Some r →
     settings (work st') !! telegram_id = Some r' →
     column key r' = column key r).
Proof.
  revert st st' x. induction items as [|[key value] rest IH]; intros st st' x H; simpl in H.
  { inversion H; subst. repeat split; try done. intros key r r' _ H1 H2. congruence. }
  destruct (bool_decide (key ∈ allowed_settings)); unfold mbind, cur_mbind in H.
  - destruct (execute env _ st) as [s1 [[]|e]] eqn:He;
      unfold execute, sql_update_setting in He;
      destruct (execute_error env (executed st)); inversion He; subst; clear He.
    + apply IH in H as (Hu & Ht & Hp & Hd & Ho & Hc). simpl in *.
      repeat split; try done.
      * rewrite Hd. apply dom_alter_L.
      * intros other Hne. rewrite Ho by done. by apply lookup_alter_ne.
      * intros k r r' Hk H1 H2.
        apply not_elem_of_cons in Hk as [Hk1 Hk2].
        rewrite (Hc k (set_column key (stored_setting env key value) r) r' Hk2);
          [by apply column_set_column_ne| |done].
        rewrite lookup_alter_eq, H1. done.
    + inversion H; subst. simpl.
      repeat split; try done. intros k r r' _ H1 H2. congruence.
  - simpl in H. apply IH in H as (Hu & Ht & Hp & Hd & Ho & Hc).
    repeat split; try done.
    intros k r r' Hk. apply not_elem_of_cons in Hk as [_ Hk]. by apply Hc.
Qed.

Lemma update_settings_tables (telegram_id : Z) (items : list (string * pyval))
    (db : Tables) :
  (update_settings env telegram_id items db).1.2 = db ∨
  ∃ x, update_settings_loop env telegram_id items (fresh_cursor db)
       = ({| work := (update_settings env telegram_id items db).1.2;
             executed := executed (update_settings_loop env telegram_id items
                                     (fresh_cursor db)).1 |}, x).
Proof.
  unfold update_settings, guarded, get_cursor, rollback.
  destruct (connect_error env); [by left|].
  destruct (update_settings_loop env telegram_id items (fresh_cursor db))
    as [[w n] [[]|e]] eqn:H; simpl.
  - destruct (commit_error env); [destruct (rollback_error env); by left|].
    right. by eexists.
  - destruct (rollback_error env); by left.
Qed.

(** C8.  [update_settings] acts on the dictionary as on its items whose
    key is in the list [slippage, auto_buy_amount, mev_protection,
    priority_fee]: the other items change nothing, not even the driver
    calls made.  Whatever the dictionary, the tables [users], [trades]
    and [positions] are untouched, no row of [settings] appears or
    disappears, the rows of other users are untouched, and in the user's
    row a column keeps its value unless its name is a listed key of the
    dictionary.  With no listed key the tables are exactly as before. *)
Theorem update_settings_allow_list (telegram_id : Z) (items : list (string * pyval))
    (db : Tables) :
  update_settings env telegram_id items db =
    update_settings env telegram_id (filter allowed items) db ∧
  let db' := (update_settings env telegram_id items db).1.2 in
  users db' = users db ∧
  trades db' = trades db ∧
  positions db' = positions db ∧
  dom (settings db') = dom (settings db) ∧
  (∀ other, other ≠ telegram_id → settings db' !! other = settings db !! other) ∧
  (∀ key r r', key ∉ (filter allowed items).*1 →
     settings db !! telegram_id = Some r →
     settings db' !! telegram_id = Some r' →
     column key r' = column key r) ∧
  (filter allowed items = [] → db' = db).
Proof.
  assert (Heq : update_settings env telegram_id items db =
                update_settings env telegram_id (filter allowed items) db).
  { unfold update_settings, guarded, get_cursor.
    by rewrite update_settings_loop_filter. }
  split; [done|]. rewrite Heq. clear Heq. simpl.
  destruct (update_settings_tables telegram_id (filter allowed items) db)
    as [->|[x H]].
  { repeat split; try done. intros key r r' _ H1 H2. congruence. }
  pose proof (update_settings_loop_frame _ _ _ _ _ H) as (Hu & Ht & Hp & Hd & Ho & Hc).
  simpl in *. repeat split; try done.
  intros Hnil. rewrite Hnil in H |- *. unfold mret, cur_mret, fresh_cursor in H.
  inversion H. congruence.
Qed.

End SettingsProperties.

(** ** Concurrent upserts *)

Section ExactSums.

(** A whole number is a rational in lowest terms. *)
Lemma this_Qc_of_Z (n : Z) : this (Qc_of_Z n) = inject_Z n.
Proof.
  unfold Qc_of_Z, Q2Qc, this. apply Qred_identity. simpl. apply Z.gcd_1_r.
Qed.

Lemma Qc_of_Z_plus (a b : Z) : (Qc_of_Z a + Qc_of_Z b)%Qc = Qc_of_Z (a + b).
Proof.
  unfold Qc_of_Z, Qcplus. apply Q2Qc_eq_iff.
  change (this (Q2Qc (inject_Z a))) with (Qred (inject_Z a)).
  change (this (Q2Qc (inject_Z b))) with (Qred (inject_Z b)).
  rewrite !Qred_correct. unfold Qeq, Qplus, inject_Z. simpl. lia.
Qed.

(** A whole number below 2^53 in magnitude is a binary64 value: rounding
    leaves it as it is. *)
Lemma binary64_of_whole (n : Z) :
  Z.abs n < 2 ^ 53 → binary64_of_Qc (Qc_of_Z n) = PFin (Qc_of_Z n).
Proof.
  intros Hn. unfold binary64_of_Qc. rewrite this_Qc_of_Z. simpl Qnum. simpl Qden.
  unfold binary64_of_ratio. destruct (Z.eqb_spec n 0) as [->|Hne]; [done|].
  unfold round_mantissa.
  assert (HN : 0 < Z.abs n) by lia. set (N := Z.abs n) in *.
  assert (Hlog : Z.log2 N < 53) by (apply Z.log2_lt_pow2; lia).
  pose proof (Z.log2_nonneg N) as Hlog0.
  pose proof (Z.log2_spec N HN) as [Hlow _].
  assert (Hk : floor_log2_ratio N 1 = Z.log2 N).
  { unfold floor_log2_ratio. change (Z.log2 1) with 0. rewrite Z.sub_0_r.
    rewrite (proj2 (Z.leb_le 0 (Z.log2 N))) by done.
    by rewrite Z.mul_1_l, (proj2 (Z.leb_le _ _) Hlow). }
  rewrite Hk. rewrite Z.max_l by lia.
  set (e := Z.log2 N - 52). assert (He : -52 ≤ e ≤ 0) by lia. clearbody e.
  rewrite (proj2 (Z.leb_gt 971 e)) by lia. cbn [andb].
  assert (Hsgn : Z.sgn n * N = n) by (subst N; lia).
  destruct (Z.eq_dec e 0) as [->|He0].
  - change (0 <=? 0) with true. cbv iota. change (2 ^ 0) with 1.
    unfold Qc_of_scaled. change (0 <=? 0) with true. cbv iota.
    assert (Hd : div_half_even N (1 * 1) = N).
    { unfold div_half_even. change (1 * 1) with 1.
      rewrite Z.div_1_r, Z.mod_1_r. done. }
    rewrite Hd. f_equal. f_equal. lia.
  - rewrite (proj2 (Z.leb_gt 0 e)) by lia.
    unfold Qc_of_scaled. rewrite (proj2 (Z.leb_gt 0 e)) by lia.
    set (P := 2 ^ (- e)). assert (HP : 0 < P) by (apply Z.pow_pos_nonneg; lia).
    assert (Hd : div_half_even (N * P) 1 = N * P).
    { unfold div_half_even. rewrite Z.div_1_r, Z.mod_1_r. done. }
    rewrite Hd. f_equal. unfold Qc_of_Z. apply Q2Qc_eq_iff.
    unfold Qeq, inject_Z. simpl. rewrite Z2Pos.id by done. lia.
Qed.

Lemma float_add_whole (a b : Z) :
  Z.abs (a + b) < 2 ^ 53 →
  float_add (PFin (Qc_of_Z a)) (PFin (Qc_of_Z b)) = PFin (Qc_of_Z (a + b)).
Proof. intros H. unfold float_add. rewrite Qc_of_Z_plus. by apply binary64_of_whole. Qed.

End ExactSums.

Section ConcurrentProperties.

Import Store Operations Concurrent.

Variables (telegram_id : Z) (token_address : string).

#[local] Abbreviation key := (telegram_id, token_address).
#[local] Abbreviation held := (Concurrent.held telegram_id token_address).
#[local] Abbreviation run_upsert := (Concurrent.run_upsert telegram_id token_address).
#[local] Abbreviation upsert_script := (Concurrent.upsert_script telegram_id token_address).
#[local] Abbreviation in_order := (Concurrent.in_order telegram_id token_address).
#[local] Abbreviation start := (Concurrent.start telegram_id token_address).
#[local] Abbreviation tracks := (Concurrent.tracks telegram_id token_address).
#[local] Abbreviation coherent := (Concurrent.coherent telegram_id token_address).
#[local] Abbreviation statement c :=
  (sql_upsert_position (u_env c) telegram_id token_address
     (u_symbol c) (u_name c) (u_delta c) (u_entry_price c)).

(** The tables a call leaves when it runs alone: those of its statement
    when nothing fails, the ones it found otherwise. *)
Lemma run_upsert_tables (c : upsert) (db : Tables) :
  (run_upsert c db).1.2 =
  match connect_error (u_env c), execute_error (u_env c) 0, statement c db,
        commit_error (u_env c) with
  | None, None, Ret (t, _), None => t
  | _, _, _, _ => db
  end.
Proof.
  unfold Concurrent.run_upsert, update_position, guarded, get_cursor, rollback,
    execute, fresh_cursor.
  destruct (connect_error (u_env c)); [done|]. simpl.
  destruct (execute_error (u_env c) 0); simpl.
  { by destruct (rollback_error (u_env c)). }
  destruct (sql_upsert_position _ _ _ _ _ _ _ db) as [[t []]|e]; simpl.
  - destruct (commit_error (u_env c)); simpl; [|done].
    by destruct (rollback_error (u_env c)).
  - by destruct (rollback_error (u_env c)).
Qed.

(** [update_position] is the block of its one statement. *)
Lemma run_upsert_script (c : upsert) (db : Tables) :
  run_upsert c db
  = guarded (u_env c) (as_cursor (u_env c) (upsert_script c)) (λ _, true) false db.
Proof.
  unfold Concurrent.run_upsert, update_position, guarded, get_cursor,
    Concurrent.upsert_script, as_cursor, mbind, cur_mbind, mret, cur_mret.
  destruct (connect_error (u_env c)); [done|].
  by destruct (execute (u_env c) _ (fresh_cursor db)) as [st' [[]|e]].
Qed.

(** [update_position] issues at most one statement. *)
Lemma update_position_one_statement (c : upsert) (db : Tables) :
  (statements (run_upsert c db).1.1 ≤ 1)%nat.
Proof.
  unfold Concurrent.run_upsert, update_position, guarded, get_cursor, rollback,
    execute, fresh_cursor, statements.
  destruct (connect_error (u_env c)); simpl; [lia|].
  destruct (execute_error (u_env c) 0); simpl.
  { destruct (rollback_error (u_env c)); simpl; by vm_compute. }
  destruct (sql_upsert_position _ _ _ _ _ _ _ db) as [[t []]|e]; simpl.
  - destruct (commit_error (u_env c)); simpl; [|by vm_compute].
    destruct (rollback_error (u_env c)); simpl; by vm_compute.
  - destruct (rollback_error (u_env c)); simpl; by vm_compute.
Qed.

Lemma in_order_app (db : Tables) (l1 l2 : list upsert) :
  in_order db (l1 ++ l2) = in_order (in_order db l1) l2.
Proof. revert db. induction l1 as [|c l1 IH]; intros db; simpl; [done|apply IH]. Qed.

Lemma omap_lookup_seq {A} (l : list A) :
  omap (λ i, l !! i) (seq 0 (length l)) = l.
Proof.
  induction l as [|x l IH]; [done|].
  assert (Hshift : ∀ k : list nat,
            omap (λ i, (x :: l) !! i) (S <$> k) = omap (λ i, l !! i) k).
  { induction k as [|j k IHk]; [done|]. rewrite fmap_cons.
    change (omap (λ i, (x :: l) !! i) (S j :: (S <$> k))) with
      (match l !! j with
       | Some y => y :: omap (λ i, (x :: l) !! i) (S <$> k)
       | None => omap (λ i, (x :: l) !! i) (S <$> k)
       end).
    by rewrite IHk. }
  cbn [length seq]. rewrite <- fmap_S_seq.
  change (omap (λ i, (x :: l) !! i) (0%nat :: (S <$> seq 0 (length l))))
    with (x :: omap (λ i, (x :: l) !! i) (S <$> seq 0 (length l))).
  by rewrite Hshift, IH.
Qed.

Lemma start_coherent (db : Tables) (calls : list upsert) :
  coherent db calls (start db calls).
Proof.
  unfold Concurrent.coherent, Concurrent.start. simpl.
  split; [by rewrite length_fmap|]. split; [|split; [constructor|split]].
  - intros i s Hs. rewrite list_lookup_fmap in Hs.
    destruct (calls !! i) as [c|] eqn:Hc; [|done]. injection Hs as <-.
    exists c. simpl. repeat split; try done. by intros ?%elem_of_nil.
  - by intros i ?%elem_of_nil.
  - done.
Qed.

(** The end of a block keeps the invariant, when the call that ends
    leaves, run alone, the tables that the block publishes. *)
Lemma finish_coherent (db : Tables) (calls : list upsert) (st : system)
    (i : nat) (c : upsert) (p : progress) (ok : bool) (work : option Tables) :
  coherent db calls st →
  sessions st !! i = Some (u_env c, p) →
  calls !! i = Some c →
  i ∉ closed st →
  lock st = Some i ∨ ok = false ∨ work = None →
  (run_upsert c (committed st)).1.2
    = (if ok then default (committed st) work else committed st) →
  coherent db calls (finish i (u_env c) ok work st).
Proof.
  intros (Hlen & Htr & Hnd & Hval & Hcom) Hi Hc Hnotin Hlock Hrun.
  unfold Concurrent.coherent, finish. simpl.
  split; [by rewrite length_insert|]. split; [|split; [|split]].
  - intros j s Hs.
    destruct (decide (j = i)) as [->|Hne].
    + rewrite list_lookup_insert_eq in Hs by (by apply lookup_lt_Some in Hi).
      injection Hs as <-. exists c. simpl. repeat split; try done.
      * apply elem_of_app. right. by apply list_elem_of_singleton.
      * case_bool_decide; [done|]. done.
    + rewrite list_lookup_insert_ne in Hs by done.
      destruct (Htr j s Hs) as (cj & Hcj & Henv & Hp).
      exists cj. split; [done|]. split; [done|]. simpl.
      assert (Hin : ∀ l : list nat, j ∉ l → j ∉ l ++ [i]).
      { intros l Hl [?|?%list_elem_of_singleton]%elem_of_app; done. }
      assert (Hlk : lock st ≠ Some j →
                    (if bool_decide (lock st = Some i) then None else lock st) ≠ Some j).
      { intros Hl. case_bool_decide; [done|done]. }
      destruct s.2 as [todo|todo n w|b].
      * destruct Hp as (? & ? & ?). repeat split; auto.
      * destruct Hp as (? & ? & [(? & ? & ? & ?)|(? & ? & Hlj & t & ? & Hst)]).
        { repeat split; auto. left. repeat split; auto. }
        assert (Hli : lock st ≠ Some i) by (rewrite Hlj; congruence).
        repeat split; auto. right. repeat split; auto.
        { by rewrite bool_decide_eq_false_2. }
        exists t. split; [done|].
        destruct Hlock as [?|[->| ->]]; [done|done|]. by destruct ok.
      * destruct Hp as (? & ?). split; [|auto].
        apply elem_of_app. by left.
  - apply NoDup_app. split; [done|]. split; [|apply NoDup_singleton].
    intros x Hx ->%list_elem_of_singleton. done.
  - intros j [?| ->%list_elem_of_singleton]%elem_of_app; [by apply Hval|by rewrite Hc].
  - rewrite omap_app, in_order_app, <- Hcom. simpl. rewrite Hc. simpl. by rewrite Hrun.
Qed.

Lemma move_coherent (db : Tables) (calls : list upsert) (i : nat) (st : system) :
  coherent db calls st → coherent db calls (move i st).
Proof.
  intros Hco. pose proof Hco as (Hlen & Htr & Hnd & Hval & Hcom).
  unfold move. destruct (sessions st !! i) as [[env p]|] eqn:Hi; [|done].
  destruct (Htr i _ Hi) as (c & Hc & Henv & Hp). simpl in Henv, Hp. subst env.
  destruct p as [todo|todo n work|b]; [| |done].
  - (* connect *)
    destruct Hp as (-> & Hnotin & Hlk).
    destruct (connect_error (u_env c)) eqn:Hce.
    + apply (finish_coherent db calls st i c _ false None Hco Hi Hc Hnotin);
        [by right; left|]. by rewrite run_upsert_tables, Hce.
    + unfold Concurrent.coherent. simpl.
      split; [by rewrite length_insert|]. split; [|done].
      intros j s Hs. destruct (decide (j = i)) as [->|Hne].
      * rewrite list_lookup_insert_eq in Hs by (by apply lookup_lt_Some in Hi).
        injection Hs as <-. exists c. simpl. repeat split; try done.
        left. done.
      * rewrite list_lookup_insert_ne in Hs by done.
        destruct (Htr j s Hs) as (cj & ? & ? & Hpj). exists cj. done.
  - destruct Hp as (Hnotin & Hce & [(-> & -> & -> & Hlk)|(-> & Hee & Hlk & t & -> & Hst)]).
    + (* the statement *)
      unfold Concurrent.upsert_script. cbn [andb].
      destruct (bool_decide (lock st ≠ None ∧ lock st ≠ Some i)) eqn:Hb; [done|].
      apply bool_decide_eq_false in Hb.
      assert (Hfree : lock st = None).
      { destruct (lock st) as [j|]; [|done]. destruct Hb. split; [done|]. done. }
      destruct (execute_error (u_env c) 0) eqn:Hee.
      { apply (finish_coherent db calls st i c _ false None Hco Hi Hc Hnotin);
          [by right; left|]. by rewrite run_upsert_tables, Hce, Hee. }
      simpl. destruct (sql_upsert_position _ _ _ _ _ _ _ (committed st))
        as [[t []]|e] eqn:Hst.
      * unfold Concurrent.coherent. simpl.
        split; [by rewrite length_insert|]. split; [|done].
        intros j s Hs. destruct (decide (j = i)) as [->|Hne].
        -- rewrite list_lookup_insert_eq in Hs by (by apply lookup_lt_Some in Hi).
           injection Hs as <-. exists c. simpl. repeat split; try done.
           right. repeat split; try done. by exists t.
        -- rewrite list_lookup_insert_ne in Hs by done.
           destruct (Htr j s Hs) as (cj & ? & ? & Hpj). exists cj.
           split; [done|]. split; [done|]. simpl.
           destruct s.2 as [todo|todo n w|b].
           ++ destruct Hpj as (? & ? & ?). repeat split; auto. congruence.
           ++ destruct Hpj as (? & ? & [(? & ? & ? & ?)|(? & ? & Hlj & _)]);
                [|congruence].
              repeat split; auto. left. repeat split; auto. congruence.
           ++ destruct Hpj as (? & ?). split; [done|congruence].
      * apply (finish_coherent db calls st i c _ false None Hco Hi Hc Hnotin);
          [by right; left|]. by rewrite run_upsert_tables, Hce, Hee, Hst.
    + (* the commit *)
      destruct (commit_error (u_env c)) eqn:Hme.
      * apply (finish_coherent db calls st i c _ false (Some t) Hco Hi Hc Hnotin);
          [by left|]. by rewrite run_upsert_tables, Hce, Hee, Hst, Hme.
      * apply (finish_coherent db calls st i c _ true (Some t) Hco Hi Hc Hnotin);
          [by left|]. by rewrite run_upsert_tables, Hce, Hee, Hst, Hme.
Qed.

Lemma run_coherent (db : Tables) (calls : list upsert) (schedule : list nat)
    (st : system) :
  coherent db calls st → coherent db calls (run schedule st).
Proof.
  revert st. induction schedule as [|i rest IH]; intros st Hco; [done|].
  simpl. apply IH. by apply move_coherent.
Qed.

(** When every block is over, the calls have ended in an order in which
    each appears once. *)
Lemma closed_order (db : Tables) (calls : list upsert) (st : system) :
  coherent db calls st → all_closed st = true →
  omap (λ i, calls !! i) (closed st) ≡ₚ calls.
Proof.
  intros (Hlen & Htr & Hnd & Hval & _) Hall.
  assert (omap (λ i, calls !! i) (closed st)
          ≡ₚ omap (λ i, calls !! i) (seq 0 (length calls))) as Hperm;
    [|by rewrite omap_lookup_seq in Hperm].
  apply omap_Permutation, NoDup_Permutation; [done|apply NoDup_seq|].
  intros i. rewrite elem_of_seq. split.
  - intros [c Hc%lookup_lt_Some]%Hval. lia.
  - intros [_ Hi]. simpl in Hi. rewrite <- Hlen in Hi.
    apply lookup_lt_is_Some in Hi as [s Hs].
    unfold all_closed in Hall. rewrite forallb_forall in Hall.
    assert (Hcl : is_closed s = true).
    { apply Hall. apply list_elem_of_In. by eapply list_elem_of_lookup_2. }
    destruct (Htr i s Hs) as (c & _ & _ & Hp). unfold is_closed in Hcl.
    destruct s.2; [done|done|]. by destruct Hp.
Qed.

Lemma total_units_perm (units : upsert → Z) (l l' : list upsert) :
  l ≡ₚ l' → total_units units l = total_units units l'.
Proof. induction 1; simpl; lia. Qed.

Lemma magnitude_perm (units : upsert → Z) (l l' : list upsert) :
  l ≡ₚ l' → magnitude units l = magnitude units l'.
Proof. induction 1; simpl; lia. Qed.

Lemma magnitude_nonneg (units : upsert → Z) (l : list upsert) : 0 ≤ magnitude units l.
Proof. induction l; simpl; lia. Qed.

(** One call on an engine that keeps binary64, with whole amounts in the
    exact range: the amount held grows by the amount given. *)
Lemma run_upsert_whole (units : upsert → Z) (c : upsert) (db : Tables) (a : Z) :
  unhindered c = true →
  binary64_reals (u_env c) →
  u_delta c = VFloat (PFin (Qc_of_Z (units c))) →
  held db = None ∧ a = 0 ∨ held db = Some (VFloat (PFin (Qc_of_Z a))) →
  Z.abs (a + units c) < 2 ^ 53 →
  held (run_upsert c db).1.2 = Some (VFloat (PFin (Qc_of_Z (a + units c)))).
Proof.
  intros Hun [Hst Hadd] Hd Hheld Hlt.
  unfold unhindered in Hun.
  apply andb_true_iff in Hun as [[Hc He]%andb_true_iff Hm].
  apply bool_decide_eq_true in Hc, He, Hm.
  rewrite run_upsert_tables, Hc, He, Hm.
  unfold sql_upsert_position. rewrite Hd, Hst by done. cbn [not_null].
  unfold Concurrent.held in *.
  destruct (positions db !! key) as [old|] eqn:Hold; simpl in Hheld.
  - destruct Hheld as [[? _]|[= Hold']]; [done|].
    rewrite Hold', Hadd; rewrite float_add_whole by done; [|done].
    cbn [not_null]. simpl. by rewrite lookup_insert_eq.
  - destruct Hheld as [[_ ->]|?]; [|done].
    simpl. by rewrite lookup_insert_eq.
Qed.

Lemma in_order_whole (units : upsert → Z) (order : list upsert) (db : Tables) (a : Z) :
  Forall (λ c, unhindered c = true ∧ binary64_reals (u_env c) ∧
               u_delta c = VFloat (PFin (Qc_of_Z (units c)))) order →
  held db = None ∧ a = 0 ∨ held db = Some (VFloat (PFin (Qc_of_Z a))) →
  Z.abs a + magnitude units order < 2 ^ 53 →
  order ≠ [] →
  held (in_order db order) = Some (VFloat (PFin (Qc_of_Z (a + total_units units order)))).
Proof.
  intros Hall. revert db a.
  induction Hall as [|c rest (Hun & Hb & Hd) _ IH]; intros db a Hheld Hlt Hne; [done|].
  simpl in *. pose proof (magnitude_nonneg units rest) as Hpos.
  assert (Hstep : held (run_upsert c db).1.2
                  = Some (VFloat (PFin (Qc_of_Z (a + units c)))))
    by (apply run_upsert_whole; try done; lia).
  destruct rest as [|c' rest'].
  - simpl. by rewrite Hstep, Z.add_0_r.
  - rewrite (IH _ (a + units c)); [by rewrite Z.add_assoc|by right|lia|done].
Qed.

(** C4, as amended.  Let any number of [update_position] calls on one
    [(telegram_id, token_address)] key be pending at once, each on a
    connection of its own, and let the connections make their driver
    calls (connect, execute, commit) in any order, a statement that
    writes waiting while another connection has written and not
    committed.  When every call is over, the tables are those that the
    same calls leave when they run one after the other in some order:
    no update is lost and none is applied twice, whatever fails.  The
    amount is therefore the deltas added one at a time by the engine's
    [+] on the REAL column; on an engine that keeps REAL as binary64 it
    is the exact sum when the key had no row, every call goes through
    and the deltas are whole numbers whose magnitudes add up to less
    than 2^53.  Each call is the block of one statement
    ([INSERT ... ON CONFLICT ... DO UPDATE SET amount = amount +
    excluded.amount]): the method never reads the amount and writes it
    back in a second statement. *)
Theorem concurrent_upserts_sum (db : Tables) (calls : list upsert)
    (schedule : list nat) :
  let st := run schedule (start db calls) in
  all_closed st = true →
  (∃ order, order ≡ₚ calls ∧ committed st = in_order db order) ∧
  (∀ units : upsert → Z,
     calls ≠ [] →
     positions db !! key = None →
     Forall (λ c, unhindered c = true ∧ binary64_reals (u_env c) ∧
                  u_delta c = VFloat (PFin (Qc_of_Z (units c)))) calls →
     magnitude units calls < 2 ^ 53 →
     held (committed st)
     = Some (VFloat (PFin (Qc_of_Z (total_units units calls))))) ∧
  Forall (λ c, ∀ d, (statements (run_upsert c d).1.1 ≤ 1)%nat ∧
                    run_upsert c d
                    = guarded (u_env c) (as_cursor (u_env c) (upsert_script c))
                        (λ _, true) false d) calls.
Proof.
  intros st Hall.
  pose proof (run_coherent db calls schedule _ (start_coherent db calls)) as Hco.
  fold st in Hco.
  pose proof (closed_order db calls st Hco Hall) as Hperm.
  destruct Hco as (_ & _ & _ & _ & Hcom).
  split; [by eexists|]. split.
  - intros units Hne Hnone Hcalls Hlt. rewrite Hcom.
    set (order := omap (λ i, calls !! i) (closed st)) in *.
    rewrite <- (total_units_perm units _ _ Hperm).
    rewrite <- (Z.add_0_l (total_units units order)).
    apply in_order_whole.
    + by rewrite Hperm.
    + left. unfold Concurrent.held. by rewrite Hnone.
    + rewrite (magnitude_perm units _ _ Hperm). simpl. lia.
    + intros Hnil. rewrite Hnil in Hperm. by apply Permutation_nil in Hperm.
  - apply Forall_forall. intros c _ d.
    split; [apply update_position_one_statement|apply run_upsert_script].
Qed.

End ConcurrentProperties.

(** ** The chain reader and the sell path *)

Section ChainProperties.

Import Chain.

Variable w : World.

Lemma get_balance_calls (pubkey : string) (c : call) :
  c ∈ (get_balance w pubkey).1 → ∃ key, c = rpc_get_balance key.
Proof.
  unfold get_balance, try_except, mbind, io_mbind, io_bind, lift, perform.
  destruct (Pubkey_from_string w pubkey) as [key|e]; simpl; [|by intros ?%elem_of_nil].
  destruct (client_get_balance w key) as [[lamports|]|e]; simpl;
    try destruct (of_option _ _); simpl;
    rewrite ?app_nil_r; intros ->%list_elem_of_singleton; eauto.
Qed.

Lemma get_token_balance_calls (wallet token_address : string) (c : call) :
  c ∈ (get_token_balance w wallet token_address).1 →
  ∃ owner mint, c = rpc_get_token_accounts_by_owner owner mint.
Proof.
  unfold get_token_balance, try_except, mbind, io_mbind, io_bind, lift, perform.
  destruct (Pubkey_from_string w wallet) as [owner|e]; simpl; [|by intros ?%elem_of_nil].
  destruct (Pubkey_from_string w token_address) as [mint|e]; simpl;
    [|by intros ?%elem_of_nil].
  destruct (client_get_token_accounts w owner mint) as [[|[amount|msg] l]|e]; simpl;
    try destruct (py_int _ _); simpl;
    rewrite ?app_nil_r; intros ->%list_elem_of_singleton; eauto.
Qed.

(** C9.  [get_balance] and [get_token_balance] return zero whenever the
    lookup fails, for every address and asset: the failure is not
    propagated.  They are read-only: they take no store, and the only
    calls they make are the two ledger queries
    [get_balance] and [get_token_accounts_by_owner_json_parsed]. *)
Theorem chain_reader_lenient :
  (∀ pubkey, balance_lookup_fails w pubkey = true →
     (get_balance w pubkey).2 = PFin (Qc_of_Z 0)) ∧
  (∀ wallet token_address, token_lookup_fails w wallet token_address = true →
     (get_token_balance w wallet token_address).2 = 0) ∧
  (∀ pubkey c, c ∈ (get_balance w pubkey).1 → ∃ key, c = rpc_get_balance key) ∧
  (∀ wallet token_address c, c ∈ (get_token_balance w wallet token_address).1 →
     ∃ owner mint, c = rpc_get_token_accounts_by_owner owner mint).
Proof.
  split; [|split; [|split]].
  - intros pubkey. unfold balance_lookup_fails, get_balance, try_except,
      mbind, io_mbind, io_bind, lift, perform.
    destruct (Pubkey_from_string w pubkey) as [key|e]; simpl; [|done].
    by destruct (client_get_balance w key) as [[lamports|]|e].
  - intros wallet token_address. unfold token_lookup_fails, get_token_balance,
      try_except, mbind, io_mbind, io_bind, lift, perform.
    destruct (Pubkey_from_string w wallet) as [owner|e]; simpl; [|done].
    destruct (Pubkey_from_string w token_address) as [mint|e]; simpl; [|done].
    destruct (client_get_token_accounts w owner mint) as [[|[amount|msg] l]|e];
      simpl; try done.
    by destruct (py_int w (default (VInt 0) amount)).
  - apply get_balance_calls.
  - apply get_token_balance_calls.
Qed.

Lemma try_except_trace {A} (body : io A) (h : string → A) :
  (try_except body h).1 = body.1.
Proof. by destruct body as [t [a|e]]. Qed.

Lemma io_bind_lift_ret {A B} (a : A) (f : A → io B) : io_bind (lift (Ret a)) f = f a.
Proof. unfold io_bind, lift. by destruct (f a). Qed.

Lemma io_bind_total {A B} (p : list call * A) (f : A → io B) :
  io_bind (total p) f = (p.1 ++ (f p.2).1, (f p.2).2).
Proof. unfold io_bind, total. by destruct (f p.2). Qed.

Lemma quote_build_submit_quotes (wallet i o : string) (a b : Z) :
  let run := quote_build_submit w wallet i o a b in
  (∃ later, run.1 = http_get_quote i o a b :: later ∧
     Forall (λ c, ∀ i' o' a' b', c ≠ http_get_quote i' o' a' b') later).
Proof.
  simpl. unfold quote_build_submit, mbind, io_mbind, io_bind, perform, lift, mret,
    io_mret, io_ret.
  destruct (quote_api w i o a b) as [[code [q|?]]|?]; simpl;
    try destruct (Z.eqb_spec code 200); simpl; try (by eexists; split; [done|]).
  destruct (swap_api w q wallet) as [[code' [d|?]]|?]; simpl;
    try destruct (Z.eqb_spec code' 200); simpl;
    try (by eexists; split; [done|]; repeat constructor).
  destruct (py_not (default VNone (swapTransaction d))); simpl;
    try (by eexists; split; [done|]; repeat constructor).
  destruct (match default VNone (swapTransaction d) with
            | VStr s => b64decode w s | _ => Exc _ end) as [tx|?]; simpl;
    try (by eexists; split; [done|]; repeat constructor).
  destruct (client_send_raw_transaction w tx) as [sig|?]; simpl;
    by eexists; split; [done|]; repeat constructor.
Qed.

(** C3.  In [swap_token_for_sol], once the key is decoded, the balance is
    the one [get_token_balance] reads from the ledger at that moment (the
    method has no access to the store, hence none to the Position row).
    That read is the one query [get_token_accounts_by_owner_json_parsed]
    for the wallet and the mint, and its value is the amount of the first
    account of the ledger's reply, zero when the reply is empty or cannot
    be read.  The calls of that read come first.  If that balance is not
    greater than zero, the method returns the failure
    ["No tokens to sell"] and has made no other call: no quote, no
    build, no submission.  If it is greater than zero, every quote the
    method requests is for that mint against SOL and for
    [int(balance * percentage / 100)] of that balance, and a sale that
    succeeds reports that amount as [amount_in]. *)
Theorem sell_reads_ledger_first
    (private_key token_address wallet : string) (percentage : Z) (slippage : pyval) :
  keypair_pubkey w private_key = Ret wallet →
  let read := get_token_balance w wallet token_address in
  let sold := swap_token_for_sol w private_key token_address percentage slippage in
  (∀ owner mint,
     Pubkey_from_string w wallet = Ret owner →
     Pubkey_from_string w token_address = Ret mint →
     read.1 = [rpc_get_token_accounts_by_owner owner mint] ∧
     read.2 = match client_get_token_accounts w owner mint with
              | Ret (ParsedAmount amount :: _) =>
                  match py_int w (default (VInt 0) amount) with
                  | Ret units => units
                  | Exc _ => 0
                  end
              | _ => 0
              end) ∧
  (∃ later, sold.1 = read.1 ++ later) ∧
  (read.2 ≤ 0 →
     sold = (read.1, SwapFailed "No tokens to sell") ∧
     Forall (λ c, is_aggregator_or_submit c = false) sold.1) ∧
  (0 < read.2 →
     (∀ i o a b, http_get_quote i o a b ∈ sold.1 →
        i = token_address ∧ o = SOL_MINT ∧ sell_amount_of read.2 percentage = Some a) ∧
     (∀ signature amount_in amount_out price_impact,
        sold.2 = SwapOk signature amount_in amount_out price_impact →
        ∃ a b, sell_amount_of read.2 percentage = Some a ∧ amount_in = VInt a ∧
               http_get_quote token_address SOL_MINT a b ∈ sold.1)).
Proof.
  intros Hkey read sold.
  assert (Hs : sold = swap_token_for_sol w private_key token_address percentage slippage)
    by reflexivity.
  clearbody sold. unfold swap_token_for_sol in Hs. rewrite Hkey in Hs.
  unfold mbind at 1 2, io_mbind in Hs. rewrite io_bind_lift_ret in Hs.
  match type of Hs with context [io_bind (total _) ?g] => set (f := g) in Hs end.
  rewrite io_bind_total in Hs. fold read in Hs.
  assert (Hf : ∀ b, (b <=? 0) = true → f b = mret (SwapFailed "No tokens to sell")).
  { intros b Hb. subst f. cbv beta. by rewrite Hb. }
  assert (Hg : ∀ b, 0 < b →
            (∀ i o a bps, http_get_quote i o a bps ∈ (f b).1 →
               i = token_address ∧ o = SOL_MINT ∧ sell_amount_of b percentage = Some a) ∧
            (∀ signature amount_in amount_out price_impact,
               (f b).2 = Ret (SwapOk signature amount_in amount_out price_impact) →
               ∃ a bps, sell_amount_of b percentage = Some a ∧ amount_in = VInt a ∧
                        http_get_quote token_address SOL_MINT a bps ∈ (f b).1)).
  { intros b Hb. clear Hs Hf. subst f. cbv beta.
    destruct (Z.leb_spec b 0) as [?|_]; [lia|].
    unfold mbind, io_mbind.
    destruct (sell_amount_of b percentage) as [a|]; simpl;
      [|split; [by intros ? ? ? ? ?%elem_of_nil|done]].
    destruct (py_mul_int slippage 100) as [percent|]; simpl;
      [|split; [by intros ? ? ? ? ?%elem_of_nil|done]].
    destruct (py_int w percent) as [bps|]; simpl;
      [|split; [by intros ? ? ? ? ?%elem_of_nil|done]].
    destruct (quote_build_submit_quotes wallet token_address SOL_MINT a bps)
      as (later & Hrun & Hlater). simpl in Hrun.
    rewrite Forall_forall in Hlater.
    assert (Hquotes : ∀ i o a' b', http_get_quote i o a' b' ∈
                        http_get_quote token_address SOL_MINT a bps :: later →
              i = token_address ∧ o = SOL_MINT ∧ Some a = Some a').
    { intros i o a' b' [Heq|Hin]%elem_of_cons.
      - by injection Heq as -> -> -> ->.
      - by destruct (Hlater _ Hin i o a' b'). }
    destruct (quote_build_submit w wallet token_address SOL_MINT a bps)
      as [t [[e|[q sig]]|e]]; simpl in Hrun; subst t; simpl.
    - rewrite app_nil_r. by split.
    - unfold lift, io_bind, mret, io_mret, io_ret.
      destruct (py_int w (default (VInt 0) (outAmount q))) as [out|]; simpl;
        rewrite ?app_nil_r.
      2: { split; [exact Hquotes|done]. }
      destruct (int_truediv out LAMPORTS_PER_SOL) as [sol|]; simpl;
        rewrite ?app_nil_r; [|split; [exact Hquotes|done]].
      split; [done|].
      intros ? ? ? ? [= <- <- <- <-]. exists a, bps.
      split; [done|]. split; [done|]. apply elem_of_cons. by left.
    - by split. }
  clearbody f. subst sold. split; [|split; [|split]].
  - intros owner mint Howner Hmint. subst read.
    unfold get_token_balance, try_except, mbind, io_mbind, io_bind, lift, perform.
    rewrite Howner, Hmint. simpl.
    destruct (client_get_token_accounts w owner mint) as [[|[amount|msg] l]|e]; simpl;
      try done.
    by destruct (py_int w (default (VInt 0) amount)).
  - rewrite try_except_trace. simpl. eauto.
  - intros Hle. apply Z.leb_le in Hle. rewrite (Hf _ Hle). simpl.
    rewrite app_nil_r. split; [done|].
    apply Forall_forall. intros c Hc.
    destruct (get_token_balance_calls wallet token_address c Hc) as (owner & mint & ->).
    done.
  - intros Hpos. destruct (Hg _ Hpos) as [Hquotes Hok]. split.
    + intros i o a b. rewrite try_except_trace. simpl.
      intros [Hin|Hin]%elem_of_app; [|by apply (Hquotes i o a b)].
      by destruct (get_token_balance_calls wallet token_address _ Hin) as (? & ? & ?).
    + intros signature amount_in amount_out price_impact.
      rewrite try_except_trace.
      destruct (f read.2) as [t [r|e]] eqn:Hfr; simpl; [|done].
      intros ->. destruct (Hok _ _ _ _ eq_refl) as (a & b & Ha & -> & Hin).
      exists a, b. split; [done|]. split; [done|].
      apply elem_of_app. by right.
Qed.

End ChainProperties.

(** ** Where the sell amount is the floor *)

Section SellAmountExact.

Lemma div_half_even_bounds (a d : Z) :
  0 ≤ a → 0 < d →
  2 * a - d ≤ 2 * d * div_half_even a d ≤ 2 * a + d.
Proof.
  intros Ha Hd. unfold div_half_even.
  pose proof (Z.div_mod a d ltac:(lia)) as Hdiv.
  pose proof (Z.mod_pos_bound a d Hd) as Hmod.
  destruct (Z.compare_spec (2 * (a mod d)) d); [destruct (Z.even (a / d))| |]; nia.
Qed.

(** [int] of a finite float given as a fraction is the floor of the
    fraction, whatever its reduced form. *)
Lemma quot_Qred (a : Z) (b : positive) :
  0 ≤ a →
  Z.quot (Qnum (Qred (a # b))) (Z.pos (Qden (Qred (a # b)))) = a / Z.pos b.
Proof.
  intros Ha. pose proof (Qred_correct (a # b)) as Heq.
  destruct (Qred (a # b)) as [x y]. unfold Qeq in Heq. simpl in *.
  assert (0 ≤ x) by nia.
  rewrite Z.quot_div_nonneg by lia.
  rewrite <- (Z.div_mul_cancel_r a (Z.pos b) (Z.pos y)) by lia.
  rewrite <- Heq.
  rewrite (Z.mul_comm (Z.pos b) (Z.pos y)).
  by rewrite Z.div_mul_cancel_r by lia.
Qed.

Lemma floor_log2_ratio_le (n d : Z) :
  floor_log2_ratio n d ≤ Z.log2 n - Z.log2 d.
Proof. unfold floor_log2_ratio. repeat case_match; lia. Qed.

(** Below 2^53 the float quotient cannot reach the next integer: the
    amount sold is floor (B * p / 100). *)
Lemma sell_amount_floor_below_2_53 (B p : Z) :
  0 ≤ B * p < 2 ^ 53 → sell_amount_of B p = Some (B * p / 100).
Proof.
  unfold sell_amount_of. generalize (B * p). intros n [Hn0 Hn].
  destruct (Z.eq_dec n 0) as [->|Hne]; [by vm_compute|].
  unfold int_truediv. change (100 =? 0) with false. cbv iota.
  change (Z.sgn 100) with 1. change (Z.abs 100) with 100. rewrite Z.mul_1_l.
  unfold binary64_of_ratio, round_mantissa.
  rewrite (proj2 (Z.eqb_neq n 0)) by done. rewrite Z.abs_eq by lia.
  pose proof (floor_log2_ratio_le n 100) as Hk.
  change (Z.log2 100) with 6 in Hk.
  assert (Z.log2 n < 53) by (apply Z.log2_lt_pow2; lia).
  set (e := Z.max (floor_log2_ratio n 100 - 52) (-1074)).
  assert (He : -1074 ≤ e ≤ -6) by lia. clearbody e.
  rewrite (proj2 (Z.leb_gt 0 e)) by lia.
  rewrite (proj2 (Z.leb_gt 971 e)) by lia. cbv iota. simpl andb. cbv iota.
  rewrite Z.sgn_pos by lia. rewrite Z.mul_1_l.
  unfold Qc_of_scaled. rewrite (proj2 (Z.leb_gt 0 e)) by lia.
  change (Some ?x ≫= ?f) with (f x). cbv beta.
  unfold int_of_float, Q2Qc, this. f_equal.
  set (P := 2 ^ (- e)).
  assert (HP : 64 ≤ P).
  { change 64 with (2 ^ 6). apply Z.pow_le_mono_r; lia. }
  pose proof (div_half_even_bounds (n * P) 100 ltac:(nia) ltac:(lia)) as Hm.
  set (m := div_half_even (n * P) 100) in *.
  rewrite quot_Qred by nia. rewrite Z2Pos.id by lia.
  pose proof (Z.div_mod n 100 ltac:(lia)) as Hdiv.
  pose proof (Z.mod_pos_bound n 100 ltac:(lia)) as Hmod.
  symmetry. apply (Z.div_unique m P (n / 100) (m - P * (n / 100))); nia.
Qed.

End SellAmountExact.

(** C7 (the code departs from the claim).  With a live balance of
    9007199254740995 units (2^53 + 3) and 100 percent, the exact quotient
    is the balance itself, but [int(token_balance * percentage / 100)]
    goes through a float and gives 9007199254740996: one unit more than
    floor (B * p / 100), and more than the wallet holds.  That is the
    amount the quote is requested for and the amount reported as sold.
    (While [B * p] stays below 2^53 the two agree, by
    [sell_amount_floor_below_2_53].) *)
Theorem sell_amount_not_floor :
  let B := 9007199254740995 in
  B * 100 / 100 = B ∧
  sell_amount_of B 100 = Some (B + 1) ∧
  Chain.swap_token_for_sol (Scenario.stub_world 0 B) "KEY" Scenario.token 100 (VInt 15)
  = ([Chain.rpc_get_token_accounts_by_owner "WALLET" Scenario.token;
      Chain.http_get_quote Scenario.token Chain.SOL_MINT (B + 1) 1500;
      Chain.http_post_swap Scenario.quote_500000 "WALLET";
      Chain.rpc_send_raw_transaction []],
     Chain.SwapOk "SIGNATURE" (VInt (B + 1))
       (VFloat (binary64_of_ratio 500000 LAMPORTS_PER_SOL))
       (VStr "0.01")).
Proof. by vm_compute. Qed.

(** ** The handlers *)

Section HandlerFrames.

Import Chain Store Bot.

Context (R : relation Tables) `{!PreOrder R} (P : effect → Prop).

Lemma behaves_ret {A} (a : A) : behaves R P (mret a).
Proof. intros st. split; [done|]. exists []. by rewrite app_nil_r. Qed.

Lemma behaves_raise {A} (msg : string) : behaves R P (@raise A msg).
Proof. intros st. split; [done|]. exists []. by rewrite app_nil_r. Qed.

Lemma behaves_bind {A B} (m : bot A) (f : A → bot B) :
  behaves R P m → (∀ a, behaves R P (f a)) → behaves R P (m ≫= f).
Proof.
  intros Hm Hf st. unfold mbind, bot_mbind.
  destruct (Hm st) as (HR & new & Ht & HP).
  destruct (m st) as [st1 [a|e]]; simpl in *; [|eauto].
  destruct (Hf a st1) as (HR' & new' & Ht' & HP'). split.
  - by etrans.
  - exists (new ++ new'). rewrite Ht', Ht, app_assoc. split; [done|].
    by apply Forall_app.
Qed.

Lemma behaves_emit (e : list effect) : Forall P e → behaves R P (emit e).
Proof. intros He st. split; [done|]. by exists e. Qed.

Lemma behaves_say (r : reply) : P (Say r) → behaves R P (say r).
Proof. intros. apply behaves_emit. by constructor. Qed.

Lemma behaves_get_user_data : behaves R P get_user_data.
Proof. intros st. split; [done|]. exists []. by rewrite app_nil_r. Qed.

Lemma behaves_set_user_data (u : UserData) : behaves R P (set_user_data u).
Proof. intros st. split; [done|]. exists []. by rewrite app_nil_r. Qed.

Lemma behaves_call_trader {A} (p : list call * A) :
  Forall (λ c, P (Net c)) p.1 → behaves R P (call_trader p).
Proof.
  intros Hp st. split; [done|]. exists (Net <$> p.1). split; [done|].
  by apply Forall_fmap.
Qed.

Lemma behaves_call_db {A} (env : Env) (m : db_method)
    (f : DbEnv → bool → Tables → list conn_event * Tables * A) :
  P (Db m) → (∀ e p t, R t (f e p t).1.2) → behaves R P (call_db env m f).
Proof.
  intros Hm Hf st. unfold call_db.
  pose proof (Hf (db_env env m) (is_postgres env) (db st)) as HR.
  destruct (f _ _ _) as [[evs db'] a]. simpl in *. split; [done|].
  exists [Db m]. split; [done|]. by constructor.
Qed.

End HandlerFrames.

Section MethodFrames.

Import Store.

Variable env : DbEnv.

(** The tables after a method: those before, or those its body left. *)
Lemma guarded_tables {A B} (body : cur A) (f : A → B) (d : B) (db : Tables) :
  (guarded env body f d db).1.2 = db ∨
  (guarded env body f d db).1.2 = work (body (fresh_cursor db)).1.
Proof.
  unfold guarded, get_cursor, rollback.
  destruct (connect_error env); [by left|].
  destruct (body (fresh_cursor db)) as [st [a|e]]; simpl.
  - destruct (commit_error env); [|by right].
    destruct (rollback_error env); by left.
  - destruct (rollback_error env); by left.
Qed.

(** One statement: the working tables are unchanged, or the statement
    returned and they are its result. *)
Lemma execute_work {A} (stmt : Tables → result (Tables * A)) (st : cursor_state) :
  work (execute env stmt st).1 = work st ∨
  ∃ a, stmt (work st) = Ret (work (execute env stmt st).1, a).
Proof.
  unfold execute. destruct (execute_error env (executed st)); [by left|].
  destruct (stmt (work st)) as [[t a]|e]; simpl; eauto.
Qed.

Lemma get_user_tables (telegram_id : Z) (db : Tables) :
  (get_user env telegram_id db).1.2 = db.
Proof.
  unfold get_user. destruct (guarded_tables (execute env (sql_select_user telegram_id))
    id None db) as [->| ->]; [done|].
  destruct (execute_work (sql_select_user telegram_id) (fresh_cursor db)) as [->|[a H]];
    [done|]. injection H as Hw _. symmetry. exact Hw.
Qed.

Lemma get_settings_tables (telegram_id : Z) (db : Tables) :
  (get_settings env telegram_id db).1.2 = db.
Proof.
  unfold get_settings.
  destruct (guarded_tables (execute env (sql_select_settings telegram_id))
    (default fallback_settings) fallback_settings db) as [->| ->]; [done|].
  destruct (execute_work (sql_select_settings telegram_id) (fresh_cursor db))
    as [->|[a H]]; [done|]. injection H as Hw _. symmetry. exact Hw.
Qed.

Lemma get_positions_tables (telegram_id : Z) (db : Tables) :
  (get_positions env telegram_id db).1.2 = db.
Proof.
  unfold get_positions.
  destruct (guarded_tables (execute env (sql_select_positions env telegram_id))
    id [] db) as [->| ->]; [done|].
  destruct (execute_work (sql_select_positions env telegram_id) (fresh_cursor db))
    as [->|[a H]]; [done|]. injection H as Hw _. symmetry. exact Hw.
Qed.

(** [log_trade] appends one row to [trades], or changes nothing. *)
Lemma log_trade_tables (telegram_id : Z) (token_address trade_type : string)
    (a_in a_out : pyval) (sig : string) (db : Tables) :
  let db' := (log_trade env telegram_id token_address trade_type a_in a_out sig db).1.2 in
  db' = db ∨
  db' = with_trades
          (λ l, l ++ [trade_row env telegram_id token_address trade_type a_in a_out sig])
          db.
Proof.
  simpl. unfold log_trade.
  destruct (guarded_tables
    (execute env (sql_insert_trade env telegram_id token_address trade_type a_in a_out sig))
    (λ _, true) false db) as [->| ->]; [by left|].
  destruct (execute_work
    (sql_insert_trade env telegram_id token_address trade_type a_in a_out sig)
    (fresh_cursor db)) as [->|[a H]]; [by left|].
  right. injection H as Hw _. symmetry. exact Hw.
Qed.

Lemma log_trade_positions (telegram_id : Z) (token_address trade_type : string)
    (a_in a_out : pyval) (sig : string) (db : Tables) :
  positions (log_trade env telegram_id token_address trade_type a_in a_out sig db).1.2
  = positions db.
Proof.
  by destruct (log_trade_tables telegram_id token_address trade_type a_in a_out sig db)
    as [->| ->].
Qed.

Lemma update_settings_positions (telegram_id : Z) (items : list (string * pyval))
    (db : Tables) :
  positions (update_settings env telegram_id items db).1.2 = positions db.
Proof.
  destruct (update_settings_tables env telegram_id items db) as [->|[x H]]; [done|].
  by pose proof (update_settings_loop_frame _ _ _ _ _ _ H) as (_ & _ & Hp & _).
Qed.

Lemma create_user_positions (p : bool) (telegram_id : Z)
    (username wallet_address private_key : string) (db : Tables) :
  positions (create_user env p telegram_id username wallet_address private_key db).1.2
  = positions db.
Proof.
  unfold create_user, guarded, get_cursor, rollback, fresh_cursor.
  destruct (connect_error env); simpl; [done|].
  unfold mbind, cur_mbind, execute, sql_insert_user, sql_insert_settings; simpl.
  destruct (execute_error env 0); simpl; [by destruct (rollback_error env)|].
  destruct (users db !! telegram_id); simpl; [by destruct (rollback_error env)|].
  destruct (execute_error env 1); simpl; [by destruct (rollback_error env)|].
  destruct (settings db !! telegram_id); simpl; [by destruct (rollback_error env)|].
  destruct (commit_error env); simpl; [by destruct (rollback_error env)|done].
Qed.

End MethodFrames.

Section PositionsNeverWritten.

Import Chain Store Bot.

#[local] Instance same_positions_preorder : PreOrder same_positions.
Proof.
  split; [done|]. intros a b c Hab Hbc. unfold same_positions in *. congruence.
Qed.

Ltac frame_step :=
  first
    [ apply behaves_ret
    | apply behaves_raise
    | apply behaves_get_user_data
    | apply behaves_set_user_data
    | apply behaves_call_trader
    | apply behaves_call_db
    | apply behaves_say
    | apply behaves_emit
    | apply behaves_bind; [try apply _ | | intros ?]
    | match goal with
      | |- behaves _ _ (match ?x with _ => _ end) => destruct x
      end ].

Ltac frame_side :=
  try apply _;
  try (split; discriminate);
  try (apply Forall_forall; intros; split; discriminate);
  try (repeat constructor; discriminate).

Variable env : Env.

Lemma check_balance_and_buy_positions user_id user token amount :
  behaves same_positions not_position_write
    (check_balance_and_buy env user_id user token amount).
Proof.
  unfold check_balance_and_buy, int_field1.
  repeat frame_step; frame_side.
  all: intros; unfold same_positions;
    by rewrite ?get_settings_tables, ?log_trade_positions.
Qed.

Ltac frame_tables :=
  intros; unfold same_positions;
  by rewrite ?get_user_tables, ?get_settings_tables, ?get_positions_tables,
       ?log_trade_positions, ?update_settings_positions, ?create_user_positions.

Lemma sell_branch_positions user_id user data :
  behaves same_positions not_position_write (sell_branch env user_id user data).
Proof.
  unfold sell_branch, int_field1. repeat frame_step; frame_side. all: frame_tables.
Qed.

(** The sell path never lists the cached positions: the balance it acts
    on can only come from the ledger. *)
Lemma sell_branch_no_position_read user_id user data :
  behaves same_positions (λ e, e ≠ Db m_get_positions)
    (sell_branch env user_id user data).
Proof.
  unfold sell_branch, int_field1. repeat frame_step;
    try apply _; try discriminate;
    try (apply Forall_forall; intros; discriminate).
  all: frame_tables.
Qed.

Lemma buy_branch_positions user_id user data :
  behaves same_positions not_position_write (buy_branch env user_id user data).
Proof.
  unfold buy_branch.
  repeat first [apply check_balance_and_buy_positions | frame_step]; frame_side.
Qed.

(** No handler writes to [positions]: whatever the update, the table is
    the same afterwards, and neither [update_position] nor
    [delete_position] is ever called. *)
Lemma handle_callback_positions user_id data :
  behaves same_positions not_position_write (handle_callback env user_id data).
Proof.
  unfold handle_callback, sell_menu, int_field1.
  repeat first [apply buy_branch_positions | apply sell_branch_positions | frame_step];
    frame_side.
  all: frame_tables.
Qed.

Lemma handle_message_positions user_id text :
  behaves same_positions not_position_write (handle_message env user_id text).
Proof.
  unfold handle_message.
  repeat first [apply check_balance_and_buy_positions | frame_step]; frame_side.
  all: frame_tables.
Qed.

Lemma start_positions user_id username public_key private_key :
  behaves same_positions not_position_write
    (start env user_id username public_key private_key).
Proof.
  unfold start. repeat frame_step; frame_side. all: frame_tables.
Qed.

End PositionsNeverWritten.

Section InsufficientFunds.

Import Chain Store Bot.

Variable env : Env.

Lemma buy_prefix (data : string) :
  String.prefix "buy_" data = true → ∃ rest, data = String.append "buy_" rest.
Proof.
  destruct data as [|c1 [|c2 [|c3 [|c4 rest]]]]; cbn [String.prefix]; try done;
    repeat (match goal with |- context [ascii_dec ?a ?b] => destruct (ascii_dec a b) end;
            try done).
  subst. eauto.
Qed.

Lemma check_balance_insufficient user_id user token amount st :
  let balance := get_balance (world env) (wallet_address user) in
  float_lt balance.2 amount = true →
  check_balance_and_buy env user_id user token amount st =
    ({| db := db st; user_data := user_data st;
        trace := trace st ++ (Net <$> balance.1) ++
                 [Say (msg_insufficient_balance amount balance.2 (wallet_address user))] |},
     Ret ()).
Proof.
  intros balance Hlt. unfold check_balance_and_buy, mbind, bot_mbind, call_trader.
  fold balance. simpl. rewrite Hlt. unfold say, emit. simpl.
  by rewrite app_assoc.
Qed.

Lemma buy_prefix_dispatch (data : string) :
  String.prefix "buy_" data = true →
  bool_decide (data = "back_main") || bool_decide (data = "refresh") = false ∧
  bool_decide (data = "buy") = false ∧ bool_decide (data = "sell") = false ∧
  bool_decide (data = "wallet") = false ∧ bool_decide (data = "export_key") = false ∧
  bool_decide (data = "positions") = false ∧ bool_decide (data = "settings") = false ∧
  String.prefix "slippage_" data = false.
Proof.
  intros [rest ->]%buy_prefix.
  rewrite !bool_decide_eq_false_2 by (simpl; discriminate). done.
Qed.

Lemma call_db_get_user user_id st :
  call_db env m_get_user (λ e _, get_user e user_id) st =
    ({| db := db st; user_data := user_data st; trace := trace st ++ [Db m_get_user] |},
     Ret (get_user (db_env env m_get_user) user_id (db st)).2).
Proof.
  unfold call_db. pose proof (get_user_tables (db_env env m_get_user) user_id (db st)) as H.
  destruct (get_user _ _ _) as [[evs db'] u]. simpl in *. by subst.
Qed.

(** C6.  A ["buy_<amount>"] callback from a registered user with a token
    selected, where the wallet's balance is less than the amount: the
    handler shows the insufficient-balance message with the amount
    required and the balance available, and returns.  The tables and the
    user's flags are exactly as before; the only store call made is the
    read [get_user], and the only call that leaves the process is the
    balance query. *)
Theorem insufficient_funds_no_writes user_id data st user token amount :
  (get_user (db_env env m_get_user) user_id (db st)).2 = Some user →
  String.prefix "buy_" data = true →
  current_token (user_data st) = Some token →
  token ≠ EmptyString →
  str_remove "buy_" data ≠ "custom" →
  float_of_str (world env) (str_remove "buy_" data) = Some amount →
  let balance := get_balance (world env) (wallet_address user) in
  float_lt balance.2 amount = true →
  handle_callback env user_id data st =
    ({| db := db st; user_data := user_data st;
        trace := trace st ++ [Db m_get_user] ++ (Net <$> balance.1) ++
                 [Say (msg_insufficient_balance amount balance.2 (wallet_address user))] |},
     Ret ()).
Proof.
  intros Hu Hp Ht Hne Hc Hf balance Hlt.
  unfold handle_callback. unfold mbind at 1, bot_mbind.
  rewrite call_db_get_user, Hu.
  destruct (buy_prefix_dispatch _ Hp) as (-> & -> & -> & -> & -> & -> & -> & ->).
  rewrite Hp. unfold buy_branch, mbind, bot_mbind, get_user_data. simpl.
  rewrite Ht. simpl. rewrite bool_decide_eq_false_2 by done.
  rewrite bool_decide_eq_false_2 by done. rewrite Hf.
  rewrite check_balance_insufficient by done. simpl.
  by rewrite <- !app_assoc.
Qed.

End InsufficientFunds.

Section TradeOutcomes.

Import Chain Store Bot.

Variable env : Env.

Lemma call_db_run {A} (m : db_method)
    (f : DbEnv → bool → Tables → list conn_event * Tables * A) (st : bot_state) :
  call_db env m f st =
    ({| db := (f (db_env env m) (is_postgres env) (db st)).1.2;
        user_data := user_data st; trace := trace st ++ [Db m] |},
     Ret (f (db_env env m) (is_postgres env) (db st)).2).
Proof. unfold call_db. by destruct (f _ _ _) as [[evs db'] a]. Qed.

(** What a buy leaves in the store: nothing, unless the swap returned
    success, and then at most the one trade row. *)
Lemma buy_store_outcomes user_id user token amount st :
  let st' := (check_balance_and_buy env user_id user token amount st).1 in
  let settings := (get_settings (db_env env m_get_settings) user_id (db st)).2 in
  let result := (swap_sol_for_token (world env) (private_key user) token amount
                   (slippage settings)).2 in
  db st' = db st ∨
  ∃ sig a_in a_out impact,
    result = SwapOk sig a_in a_out impact ∧
    db st' = with_trades
               (λ l, l ++ [trade_row (db_env env m_log_trade) user_id token "BUY"
                             (VFloat amount) a_out sig])
               (db st).
Proof.
  unfold check_balance_and_buy, mbind, bot_mbind, call_trader. simpl.
  destruct (float_lt _ _); simpl; [by left|].
  rewrite call_db_run. simpl. rewrite get_settings_tables.
  destruct (swap_sol_for_token _ _ _ _ _) as [t [sig a_in a_out impact|error]]; simpl;
    [|by left].
  rewrite call_db_run. simpl.
  destruct (log_trade_tables (db_env env m_log_trade) user_id token "BUY"
              (VFloat amount) a_out sig (db st)) as [->| ->]; [by left|].
  right. by exists sig, a_in, a_out, impact.
Qed.

Lemma sell_store_outcomes user_id user data st :
  let st' := (sell_branch env user_id user data st).1 in
  db st' = db st ∨
  ∃ percentage token sig a_in a_out impact,
    int_of_str (world env) <$> (split_underscore data !! 1%nat) = Some (Some percentage) ∧
    current_token (user_data st) = Some token ∧
    (swap_token_for_sol (world env) (private_key user) token percentage
       (slippage (get_settings (db_env env m_get_settings) user_id (db st)).2)).2
      = SwapOk sig a_in a_out impact ∧
    db st' = with_trades
               (λ l, l ++ [trade_row (db_env env m_log_trade) user_id token "SELL"
                             a_in a_out sig]) (db st).
Proof.
  unfold sell_branch, int_field1, mbind, bot_mbind.
  destruct (split_underscore data !! 1%nat) as [field|]; simpl; [|by left].
  destruct (int_of_str (world env) field) as [percentage|]; simpl; [|by left].
  destruct (current_token (user_data st)) as [token|] eqn:Ht; simpl; [|by left].
  destruct (bool_decide (token = "")); simpl; [by left|].
  rewrite call_db_run. simpl. rewrite get_settings_tables.
  unfold call_trader. simpl.
  destruct (swap_token_for_sol _ _ _ _ _) as [t [sig a_in a_out impact|error]] eqn:Hs;
    simpl; [|by left].
  rewrite call_db_run. simpl.
  destruct (log_trade_tables (db_env env m_log_trade) user_id token "SELL"
              a_in a_out sig (db st)) as [Hl|Hl].
  - left. by destruct a_out.
  - right. exists percentage, token, sig, a_in, a_out, impact.
    repeat split; try done; [by rewrite Hs|]. by destruct a_out.
Qed.

End TradeOutcomes.

(** ** The scenarios *)

Section Scenarios.

Import Chain Store Bot Scenario.

(** C1 (the code departs from the claim).  Alice holds 2 SOL, has a token
    selected and presses ["buy_1.0"]; the stub aggregator quotes 500000
    and the submission succeeds.  The handler reports success and the
    store has the trade row
    [side = BUY, amount_in = 1.0, amount_out = 500000], as the claim
    says.  But no position row is written: [positions] is still empty,
    and the store calls made are [get_user], [get_settings] and
    [log_trade] only. *)
Theorem buy_logs_trade_without_position :
  let run := handle_callback (stub_env 2000000000 0) alice "buy_1.0" token_selected in
  run.2 = Ret () ∧
  trades (db run.1) =
    [trade_row quiet alice token "BUY" (VFloat (PFin (Qc_of_Z 1))) (VInt 500000)
       "SIGNATURE"] ∧
  positions (db run.1) = ∅ ∧
  trace run.1 =
    [Db m_get_user; Net (rpc_get_balance "WALLET"); Say msg_executing_buy;
     Db m_get_settings;
     Net (http_get_quote SOL_MINT token 1000000000 1500);
     Net (http_post_swap quote_500000 "WALLET");
     Net (rpc_send_raw_transaction []);
     Db m_log_trade;
     Say (msg_buy_successful (PFin (Qc_of_Z 1)) "SIGNATURE")].
Proof. by vm_compute. Qed.

(** C2 (the code departs from the claim).  Alice holds 1000 units of the
    token and presses ["sell_50"]; quote, build and submission all
    succeed.  The sequence has succeeded end to end and the trade row
    [side = SELL, amount_in = 500] is appended, but the position is not
    merged: [positions] is unchanged, so the store is left with the trade
    written and the position not. *)
Theorem sell_logs_trade_without_position :
  let run := handle_callback (stub_env 0 1000) alice "sell_50" token_selected in
  run.2 = Ret () ∧
  trades (db run.1) =
    [trade_row quiet alice token "SELL" (VInt 500)
       (VFloat (binary64_of_ratio 500000 LAMPORTS_PER_SOL)) "SIGNATURE"] ∧
  positions (db run.1) = positions registered ∧
  trace run.1 =
    [Db m_get_user; Say (msg_selling 50); Db m_get_settings;
     Net (rpc_get_token_accounts_by_owner "WALLET" token);
     Net (http_get_quote token SOL_MINT 500 1500);
     Net (http_post_swap quote_500000 "WALLET");
     Net (rpc_send_raw_transaction []);
     Db m_log_trade;
     Say (msg_sell_successful (VFloat (binary64_of_ratio 500000 LAMPORTS_PER_SOL))
            "SIGNATURE")].
Proof. by vm_compute. Qed.

(** A sell of 100 percent on a live balance of zero, and a sell of 50
    percent on a live balance of 1000 units. *)
Lemma sell_reads_ledger_first_witness :
  keypair_pubkey (stub_world 0 0) "KEY" = Ret "WALLET" ∧
  (get_token_balance (stub_world 0 0) "WALLET" token).2 ≤ 0 ∧
  swap_token_for_sol (stub_world 0 0) "KEY" token 100 (VInt 15) =
    ([rpc_get_token_accounts_by_owner "WALLET" token], SwapFailed "No tokens to sell") ∧
  get_token_balance (stub_world 0 1000) "WALLET" token =
    ([rpc_get_token_accounts_by_owner "WALLET" token], 1000) ∧
  (∀ i o a b,
     http_get_quote i o a b ∈
       (swap_token_for_sol (stub_world 0 1000) "KEY" token 50 (VInt 15)).1 →
     i = token ∧ o = SOL_MINT ∧ a = 500) ∧
  ∃ signature amount_out price_impact,
    (swap_token_for_sol (stub_world 0 1000) "KEY" token 50 (VInt 15)).2 =
      SwapOk signature (VInt 500) amount_out price_impact.
Proof.
  split; [reflexivity|]. split; [by vm_compute|].
  pose proof (sell_reads_ledger_first (stub_world 0 0) "KEY" token "WALLET" 100 (VInt 15)
                eq_refl) as (_ & _ & Hnone & _).
  pose proof (sell_reads_ledger_first (stub_world 0 1000) "KEY" token "WALLET" 50
                (VInt 15) eq_refl) as (Hread & _ & _ & Hsome).
  split; [apply Hnone; by vm_compute|].
  destruct (Hread "WALLET" token eq_refl eq_refl) as [Hcalls Hvalue].
  assert (Hbalance : get_token_balance (stub_world 0 1000) "WALLET" token =
                       ([rpc_get_token_accounts_by_owner "WALLET" token], 1000))
    by by apply injective_projections.
  split; [done|].
  rewrite Hbalance in Hsome. destruct (Hsome ltac:(simpl; lia)) as [Hquotes Hok]. split.
  - intros i o a b Hin. destruct (Hquotes i o a b Hin) as (-> & -> & Ha).
    split; [done|]. split; [done|].
    assert (Hfloor : sell_amount_of 1000 50 = Some 500) by by vm_compute.
    change (sell_amount_of 1000 50 = Some a) in Ha.
    rewrite Hfloor in Ha. by injection Ha.
  - destruct (swap_token_for_sol (stub_world 0 1000) "KEY" token 50 (VInt 15)).2
      as [signature amount_in amount_out price_impact|e] eqn:Hresult.
    + destruct (Hok _ _ _ _ eq_refl) as (a & b & Ha & -> & _).
      assert (Hfloor : sell_amount_of 1000 50 = Some 500) by by vm_compute.
      change (sell_amount_of 1000 50 = Some a) in Ha.
      rewrite Hfloor in Ha. injection Ha as <-. by eexists _, _, _.
    + by vm_compute in Hresult.
Defined.

(** A buy of 5 SOL on a balance of 1 SOL. *)
Lemma insufficient_funds_no_writes_witness :
  let env := stub_env 1000000000 0 in
  let balance := get_balance (world env) "WALLET" in
  (get_user (db_env env m_get_user) alice registered).2 = Some alice_row ∧
  float_lt balance.2 (PFin (Qc_of_Z 5)) = true ∧
  handle_callback env alice "buy_5.0" token_selected =
    ({| db := registered; user_data := user_data token_selected;
        trace := [Db m_get_user; Net (rpc_get_balance "WALLET");
                  Say (msg_insufficient_balance (PFin (Qc_of_Z 5)) balance.2 "WALLET")] |},
     Ret ()).
Proof.
  split; [reflexivity|]. split; [by vm_compute|].
  apply (insufficient_funds_no_writes (stub_env 1000000000 0) alice "buy_5.0"
           token_selected alice_row token (PFin (Qc_of_Z 5)));
    first [reflexivity | discriminate | by vm_compute].
Defined.

(** The store double keeps REAL as binary64. *)
Lemma quiet_binary64 : Concurrent.binary64_reals quiet.
Proof.
  split.
  - intros x Hx. by destruct x.
  - intros x y Hxy. simpl. unfold added, as_real. by destruct (float_add x y).
Qed.

(** Two racing upserts of 300000 and 200000 units, the second writing
    first. *)
Lemma concurrent_upserts_sum_witness :
  let calls := [upsert_of 300000; upsert_of 200000] in
  let st := Concurrent.run second_writes_first
              (Concurrent.start alice token registered calls) in
  Concurrent.all_closed st = true ∧
  Concurrent.closed st = [1; 0]%nat ∧
  Concurrent.committed st
  = Concurrent.in_order alice token registered [upsert_of 200000; upsert_of 300000] ∧
  Concurrent.held alice token (Concurrent.committed st)
  = Some (VFloat (PFin (Qc_of_Z 500000))).
Proof.
  assert (Hall : Concurrent.all_closed
                   (Concurrent.run second_writes_first
                      (Concurrent.start alice token registered
                         [upsert_of 300000; upsert_of 200000])) = true)
    by (by vm_compute).
  split; [exact Hall|]. split; [by vm_compute|]. split; [by vm_compute|].
  refine (proj1 (proj2 (concurrent_upserts_sum alice token registered
                          [upsert_of 300000; upsert_of 200000] second_writes_first
                          Hall)) units_of _ _ _ _).
  - done.
  - reflexivity.
  - repeat constructor; try apply quiet_binary64; by vm_compute.
  - by vm_compute.
Defined.

(** On a REAL column the amount is not always the sum of the deltas:
    upserts of 2^53 units and of 1 unit on a key that had no row, both
    going through on an engine that keeps REAL as binary64, leave 2^53
    units and not 2^53 + 1. *)
Lemma concurrent_upserts_sum_is_rounded :
  let calls := [upsert_of (2 ^ 53); upsert_of 1] in
  let st := Concurrent.run [0; 0; 0; 1; 1; 1]%nat
              (Concurrent.start alice token registered calls) in
  Concurrent.all_closed st = true ∧
  Forall (λ c, Concurrent.unhindered c = true ∧
               Concurrent.binary64_reals (Concurrent.u_env c) ∧
               Concurrent.u_delta c = VFloat (PFin (Qc_of_Z (units_of c)))) calls ∧
  positions registered !! (alice, token) = None ∧
  Concurrent.total_units units_of calls = 2 ^ 53 + 1 ∧
  Concurrent.held alice token (Concurrent.committed st)
  = Some (VFloat (PFin (Qc_of_Z (2 ^ 53)))) ∧
  Concurrent.held alice token (Concurrent.committed st)
  ≠ Some (VFloat (PFin (Qc_of_Z (2 ^ 53 + 1)))).
Proof.
  assert (Hheld : Concurrent.held alice token
                    (Concurrent.committed
                       (Concurrent.run [0; 0; 0; 1; 1; 1]%nat
                          (Concurrent.start alice token registered
                             [upsert_of (2 ^ 53); upsert_of 1])))
                  = Some (VFloat (PFin (Qc_of_Z (2 ^ 53))))) by (by vm_compute).
  split; [by vm_compute|].
  split; [repeat constructor; try apply quiet_binary64; by vm_compute|].
  split; [reflexivity|]. split; [by vm_compute|]. split; [exact Hheld|].
  rewrite Hheld. by intros [=].
Qed.

(** For comparison, the pattern the method avoids.  Two connections
    that read the amount and write the sum back in a second statement,
    on a position of 500000 units: both read before either writes, and
    the 300000 units of the first are lost. *)
Lemma read_then_write_loses_an_update :
  let adding n := Concurrent.read_then_write alice token quiet (PFin (Qc_of_Z n)) in
  let st0 := {| Concurrent.committed := Cases.holding;
                Concurrent.sessions :=
                  [(quiet, Concurrent.Pending (adding 300000));
                   (quiet, Concurrent.Pending (adding 200000))];
                Concurrent.lock := None; Concurrent.closed := [] |} in
  let st := Concurrent.run [0; 1; 0; 1; 0; 0; 1; 1]%nat st0 in
  Concurrent.all_closed st = true ∧
  Concurrent.held alice token (Concurrent.committed st)
  = Some (VFloat (PFin (Qc_of_Z 700000))).
Proof.
  split; [by vm_compute|]. vm_compute. do 3 f_equal. by apply Qc_is_canon.
Qed.

(** Both readers on a ledger that cannot be reached. *)
Lemma chain_reader_lenient_witness :
  balance_lookup_fails offline_world "WALLET" = true ∧
  (get_balance offline_world "WALLET").2 = PFin (Qc_of_Z 0) ∧
  token_lookup_fails offline_world "WALLET" token = true ∧
  (get_token_balance offline_world "WALLET" token).2 = 0.
Proof.
  destruct (chain_reader_lenient offline_world) as (Hb & Ht & _).
  split; [reflexivity|]. split; [apply Hb; reflexivity|].
  split; [reflexivity|]. apply Ht. reflexivity.
Defined.

End Scenarios.

(** ** The custom-amount path and a few runs of the store *)

Section MoreRuns.

Import Chain Store Bot Scenario Operations.

(** The same holds when the amount is typed in: the text of the balance
    check is shared with the callback. *)
Lemma custom_amount_insufficient (env : Env) user_id text st user token amount :
  awaiting_custom_amount (user_data st) = true →
  current_token (user_data st) = Some token →
  token ≠ EmptyString →
  float_of_str (world env) (comma_to_dot text) = Some amount →
  float_le amount (PFin (Qc_of_Z 0)) = false →
  (get_user (db_env env m_get_user) user_id (db st)).2 = Some user →
  let balance := get_balance (world env) (wallet_address user) in
  float_lt balance.2 amount = true →
  handle_message env user_id text st =
    ({| db := db st;
        user_data := {| current_token := Some token; awaiting_custom_amount := false |};
        trace := trace st ++ [Db m_get_user] ++ (Net <$> balance.1) ++
                 [Say (msg_insufficient_balance amount balance.2 (wallet_address user))] |},
     Ret ()).
Proof.
  intros Ha Ht Hne Hf Hpos Hu balance Hlt.
  unfold handle_message, mbind, bot_mbind, get_user_data. simpl.
  rewrite Ha, Ht. simpl. rewrite bool_decide_eq_false_2 by done.
  rewrite Hf, Hpos. rewrite call_db_get_user. simpl. rewrite Hu.
  rewrite check_balance_insufficient by done. simpl.
  by rewrite <- !app_assoc.
Qed.

(** A second [/start] for a [telegram_id] already present: the insert
    into [users] hits the UNIQUE constraint, the transaction is rolled
    back and the method returns [False]. *)
Example create_user_duplicate :
  create_user quiet false alice "alice" "OTHER" "KEY2" registered =
    (opened 1 ++ [ev_rollback true] ++ released, registered, false).
Proof. reflexivity. Qed.

(** A new user gets both rows. *)
Example create_user_fresh :
  let '(_, db', ok) := create_user quiet false 7 "bob" "W7" "K7" registered in
  ok = true ∧
  username <$> users db' !! 7 = Some "bob" ∧
  settings db' !! 7 = Some (default_settings_row false).
Proof. by vm_compute. Qed.

(** The user's insert goes through and the settings insert is refused:
    neither row is kept. *)
Example create_user_second_insert_fails :
  let env := {| connect_error := None;
                execute_error := λ n, if (n =? 1)%nat then Some "connection lost" else None;
                commit_error := None; rollback_error := None; now := 9%nat;
                stored := kept; real_add := added; is_positive := above_zero |} in
  create_user env false 7 "bob" "W7" "K7" registered =
    (opened 2 ++ [ev_rollback true] ++ released, registered, false).
Proof. reflexivity. Qed.

(** Keys outside the list are skipped: no statement is issued for them. *)
Example update_settings_skips_unlisted :
  update_settings quiet alice [("telegram_id", VInt 7); ("wallet_address", VStr "X")]
    registered =
    (opened 0 ++ [ev_commit true] ++ released, registered, true).
Proof. reflexivity. Qed.

(** The int given for the slippage comes back as a float. *)
Example update_settings_slippage :
  let '(evs, db', ok) :=
    update_settings quiet alice [("slippage", VInt 25); ("id", VInt 1)] registered in
  evs = opened 1 ++ [ev_commit true] ++ released ∧ ok = true ∧
  slippage <$> settings db' !! alice = Some (VFloat (binary64_of_ratio 25 1)) ∧
  priority_fee <$> settings db' !! alice = Some (VStr "medium").
Proof. by vm_compute. Qed.

(** A failed commit is followed by a rollback and both [close] calls. *)
Example log_trade_commit_fails :
  let env := {| connect_error := None; execute_error := λ _, None;
                commit_error := Some "server closed the connection";
                rollback_error := Some "connection already closed"; now := 9%nat;
                stored := kept; real_add := added; is_positive := above_zero |} in
  log_trade env alice token "BUY" (VInt 1) (VInt 2) "SIG" registered =
    (opened 1 ++ [ev_commit false; ev_rollback false] ++ released, registered, false).
Proof. reflexivity. Qed.

End MoreRuns.

(** * Further properties *)

(** ** What every method of the store keeps *)

Section KeptByStore.

Import Store Operations Kept.

#[local] Instance kept_preorder : PreOrder kept.
Proof.
  split.
  - intros t. by split.
  - intros a b c [Hu1 Ht1] [Hu2 Ht2]. split; by etrans.
Qed.

#[local] Instance same_keys_preorder : PreOrder same_keys.
Proof.
  split.
  - intros t. by split.
  - intros a b c [Hs1 Hu1] [Hs2 Hu2]. split; congruence.
Qed.

Variable env : DbEnv.

Section Bodies.

Context (R : relation Tables) `{!PreOrder R}.

Lemma cur_keeps_ret {A} (a : A) : cur_keeps R (mret a : cur A).
Proof. intros st. done. Qed.

Lemma cur_keeps_bind {A B} (m : cur A) (f : A → cur B) :
  cur_keeps R m → (∀ a, cur_keeps R (f a)) → cur_keeps R (m ≫= f).
Proof.
  intros Hm Hf st. unfold mbind, cur_mbind. specialize (Hm st).
  destruct (m st) as [st1 [a|e]]; simpl in *; [|done].
  etrans; [exact Hm|apply Hf].
Qed.

Lemma cur_keeps_execute {A} (stmt : Tables → result (Tables * A)) :
  (∀ t t' a, stmt t = Ret (t', a) → R t t') → cur_keeps R (execute env stmt).
Proof.
  intros Hs st. unfold execute.
  destruct (execute_error env (executed st)); [done|].
  destruct (stmt (work st)) as [[t a]|e] eqn:H; simpl; [by eapply Hs|done].
Qed.

Lemma get_cursor_keeps {A} (body : cur A) (db : Tables) :
  cur_keeps R body → R db (get_cursor env body db).1.2.
Proof.
  intros Hb. unfold get_cursor, rollback.
  destruct (connect_error env); [done|].
  specialize (Hb (fresh_cursor db)).
  destruct (body (fresh_cursor db)) as [st [a|e]]; simpl in *.
  - destruct (commit_error env); [|done]. by destruct (rollback_error env).
  - by destruct (rollback_error env).
Qed.

Lemma guarded_keeps {A B} (body : cur A) (f : A → B) (d : B) (db : Tables) :
  cur_keeps R body → R db (guarded env body f d db).1.2.
Proof. intros Hb. rewrite guarded_trace. by apply get_cursor_keeps. Qed.

Lemma update_settings_loop_keeps telegram_id items :
  (∀ key value t t' a,
     sql_update_setting env key value telegram_id t = Ret (t', a) → R t t') →
  cur_keeps R (update_settings_loop env telegram_id items).
Proof.
  intros Hs. induction items as [|[key value] rest IH]; simpl.
  - apply cur_keeps_ret.
  - apply cur_keeps_bind; [|done].
    destruct (bool_decide _); [|apply cur_keeps_ret].
    apply cur_keeps_execute. apply Hs.
Qed.

End Bodies.

Ltac statement :=
  let H := fresh in
  intros; match goal with H : _ = Ret _ |- _ =>
    unfold sql_insert_user, sql_insert_settings, sql_select_user, sql_select_settings,
      sql_update_setting, sql_insert_trade, sql_select_trades, sql_upsert_position,
      not_null, sql_select_positions, sql_delete_position, sql_create_if_not_exists in H;
    repeat case_match; simplify_eq end.

Ltac bodies R :=
  repeat first
    [ apply (cur_keeps_bind R); [|intros ?]
    | apply (cur_keeps_execute R)
    | apply (update_settings_loop_keeps R)
    | apply (cur_keeps_ret R) ].

Lemma run_kept (p : bool) (c : store_call) (db : Tables) :
  kept db (run env p c db).2.
Proof.
  destruct c; simpl; unfold init_db, create_user, get_user, get_settings,
    update_settings, log_trade, get_trades, update_position, get_positions,
    delete_position;
    first [apply (get_cursor_keeps kept) | apply (guarded_keeps kept)];
    bodies kept; statement; split; simpl; try done.
  - by apply insert_subseteq.
  - by apply prefix_app_r.
Qed.

Lemma create_user_paired (p : bool) (telegram_id : Z)
    (username wallet_address private_key : string) (db : Tables) :
  paired db →
  paired (create_user env p telegram_id username wallet_address private_key db).1.2.
Proof.
  unfold create_user, guarded, get_cursor, rollback, fresh_cursor, paired.
  destruct (connect_error env); simpl; [done|].
  unfold mbind, cur_mbind, execute, sql_insert_user, sql_insert_settings; simpl.
  destruct (execute_error env 0); simpl; [by destruct (rollback_error env)|].
  destruct (users db !! telegram_id); simpl; [by destruct (rollback_error env)|].
  destruct (execute_error env 1); simpl; [by destruct (rollback_error env)|].
  destruct (settings db !! telegram_id); simpl; [by destruct (rollback_error env)|].
  destruct (commit_error env); simpl; [by destruct (rollback_error env)|].
  intros H. by rewrite !dom_insert_L, H.
Qed.

Lemma run_paired (p : bool) (c : store_call) (db : Tables) :
  paired db → paired (run env p c db).2.
Proof.
  intros Hp.
  assert (same_keys db (run env p c db).2 → paired (run env p c db).2) as Hk.
  { intros [Hs Hu]. unfold paired in *. congruence. }
  destruct c; [|by apply create_user_paired|..]; apply Hk; simpl;
    unfold init_db, get_user, get_settings, update_settings, log_trade,
      get_trades, update_position, get_positions, delete_position;
    first [apply (get_cursor_keeps same_keys) | apply (guarded_keeps same_keys)];
    bodies same_keys; statement; split; simpl; try done;
    by apply dom_alter_L.
Qed.

(** X1.  No method of [Database] removes or alters a user row or a trade
    row.  Whatever the call, its arguments and the failures of the
    engine, every user row of before is there afterwards with the same
    wallet and key, and the trades of before are the first trades of
    afterwards, in the same order. *)
Theorem store_keeps_users_and_trades (p : bool) (c : store_call) (db : Tables) :
  users db ⊆ users (run env p c db).2 ∧
  trades db `prefix_of` trades (run env p c db).2.
Proof. apply run_kept. Qed.

(** X2.  One settings row per user is an invariant of the store: if the
    users and the settings rows have the same [telegram_id]s before a
    method of [Database] runs, they have the same afterwards, whatever the
    call and the failures of the engine.  ([create_user] adds the two
    rows together or not at all; no other method adds or removes a row of
    either table.) *)
Theorem store_keeps_one_settings_row_per_user (p : bool) (c : store_call) (db : Tables) :
  dom (settings db) = dom (users db) →
  dom (settings (run env p c db).2) = dom (users (run env p c db).2).
Proof. apply run_paired. Qed.

Lemma run_safe (p : bool) (c : store_call) (db : Tables) : safe db (run env p c db).2.
Proof. split; [apply run_kept|apply run_paired]. Qed.

End KeptByStore.

#[global] Instance safe_preorder : PreOrder Kept.safe.
Proof.
  split.
  - intros t. split; [by split|done].
  - intros a b c [[Hu1 Ht1] Hp1] [[Hu2 Ht2] Hp2]. split; [split; by etrans|auto].
Qed.

(** ** Reads, round trips and listings *)

Section StoreRoundTrips.

Import Store Operations Kept.

(** A method of one statement: what it leaves and what it hands to its
    caller. *)
Lemma guarded_one {A B} (env : DbEnv) (stmt : Tables → result (Tables * A))
    (f : A → B) (d : B) (db : Tables) :
  (guarded env (execute env stmt) f d db).1.2 =
    (if through env
     then match stmt db with Ret (t, _) => t | Exc _ => db end else db) ∧
  (guarded env (execute env stmt) f d db).2 =
    (if through env
     then match stmt db with Ret (_, a) => f a | Exc _ => d end else d).
Proof.
  unfold through, guarded, get_cursor, rollback, execute, fresh_cursor. simpl.
  destruct (connect_error env), (execute_error env 0), (stmt db) as [[t a]|e],
    (commit_error env), (rollback_error env); simpl;
    repeat case_bool_decide; simplify_eq; done.
Qed.

Lemma get_user_value (env : DbEnv) (telegram_id : Z) (db : Tables) :
  (get_user env telegram_id db).2 =
  if through env then users db !! telegram_id else None.
Proof. unfold get_user. by rewrite (proj2 (guarded_one env _ _ _ db)). Qed.

Lemma get_settings_value (env : DbEnv) (telegram_id : Z) (db : Tables) :
  (get_settings env telegram_id db).2 =
  if through env then default fallback_settings (settings db !! telegram_id)
  else fallback_settings.
Proof. unfold get_settings. by rewrite (proj2 (guarded_one env _ _ _ db)). Qed.

(** X3.  The four reads never fail and never change the tables.  When
    the engine fails, [get_user] returns [None], [get_settings] the
    default settings (slippage 15.0, auto-buy 0.1, MEV protection on,
    priority fee medium), and [get_trades] and [get_positions] the empty
    list.  When the read goes through, [get_user] returns the user's row
    or [None], and [get_settings] the user's row or, if there is none,
    the same defaults. *)
Theorem reads_degrade_to_defaults (env : DbEnv) (telegram_id : Z) (limit : nat)
    (db : Tables) :
  (get_user env telegram_id db).1.2 = db ∧
  (get_settings env telegram_id db).1.2 = db ∧
  (get_trades env telegram_id limit db).1.2 = db ∧
  (get_positions env telegram_id db).1.2 = db ∧
  (get_user env telegram_id db).2 =
    (if through env then users db !! telegram_id else None) ∧
  (get_settings env telegram_id db).2 =
    (if through env then default fallback_settings (settings db !! telegram_id)
     else fallback_settings) ∧
  (through env = false →
     (get_trades env telegram_id limit db).2 = [] ∧
     (get_positions env telegram_id db).2 = []).
Proof.
  unfold get_user, get_settings, get_trades, get_positions.
  repeat split; try (rewrite (proj1 (guarded_one env _ _ _ db)); by destruct (through env));
    try (rewrite (proj2 (guarded_one env _ _ _ db)); done);
    rewrite (proj2 (guarded_one env _ _ _ db)); by rewrite H.
Qed.

Lemma create_user_true (env : DbEnv) (p : bool) (telegram_id : Z)
    (username wallet_address private_key : string) (db : Tables) :
  (create_user env p telegram_id username wallet_address private_key db).2 = true →
  (create_user env p telegram_id username wallet_address private_key db).1.2 =
    {| users := <[telegram_id :=
                   {| Store.username := username; Store.wallet_address := wallet_address;
                      Store.private_key := private_key;
                      user_created_at := now env |}]> (users db);
       settings := <[telegram_id := default_settings_row p]> (settings db);
       trades := trades db; positions := positions db |}.
Proof.
  unfold create_user, guarded, get_cursor, rollback, fresh_cursor.
  destruct (connect_error env); simpl; [done|].
  unfold mbind, cur_mbind, execute, sql_insert_user, sql_insert_settings; simpl.
  destruct (execute_error env 0); simpl; [by destruct (rollback_error env)|].
  destruct (users db !! telegram_id); simpl; [by destruct (rollback_error env)|].
  destruct (execute_error env 1); simpl; [by destruct (rollback_error env)|].
  destruct (settings db !! telegram_id); simpl; [by destruct (rollback_error env)|].
  destruct (commit_error env); simpl; [by destruct (rollback_error env)|done].
Qed.

(** X4.  What [create_user] stored can be read back.  After a call that
    returned [True], a [get_user] that goes through returns the row with
    the username, wallet address and private key that were given, a
    [get_settings] returns the column defaults, and the lookups of every
    other [telegram_id] answer as before. *)
Theorem create_user_then_lookup (env env' : DbEnv) (p : bool) (telegram_id : Z)
    (username wallet_address private_key : string) (db : Tables) :
  (create_user env p telegram_id username wallet_address private_key db).2 = true →
  through env' = true →
  let db' := (create_user env p telegram_id username wallet_address private_key db).1.2 in
  (get_user env' telegram_id db').2 =
    Some {| Store.username := username; Store.wallet_address := wallet_address;
            Store.private_key := private_key; user_created_at := now env |} ∧
  (get_settings env' telegram_id db').2 = default_settings_row p ∧
  (∀ other, other ≠ telegram_id →
     (get_user env' other db').2 = (get_user env' other db).2 ∧
     (get_settings env' other db').2 = (get_settings env' other db).2).
Proof.
  intros Hok Hthrough db'. subst db'. rewrite (create_user_true _ _ _ _ _ _ _ Hok).
  rewrite !get_user_value, !get_settings_value, Hthrough. simpl.
  rewrite !lookup_insert_eq. repeat split; try done.
  - rewrite !get_user_value, Hthrough. simpl. by rewrite lookup_insert_ne.
  - rewrite !get_settings_value, Hthrough. simpl. by rewrite lookup_insert_ne.
Qed.

Lemma column_set_column_eq (key : string) (v : pyval) (r : Settings) :
  key ∈ allowed_settings → column key (set_column key v r) = Some v.
Proof.
  intros H. unfold allowed_settings in H.
  repeat (apply elem_of_cons in H as [->|H]; [done|]). by apply elem_of_nil in H.
Qed.

Lemma update_settings_loop_returns (env : DbEnv) (telegram_id : Z)
    (items : list (string * pyval)) (st : cursor_state) :
  (∀ n, execute_error env n = None) →
  ∃ st', update_settings_loop env telegram_id items st = (st', Ret ()).
Proof.
  intros He. revert st. induction items as [|[key value] rest IH]; intros st; simpl.
  { by eexists. }
  destruct (bool_decide _); unfold mbind, cur_mbind; simpl; [|apply IH].
  unfold execute, sql_update_setting. rewrite He. simpl. apply IH.
Qed.

Lemma update_settings_loop_writes (env : DbEnv) (telegram_id : Z)
    (items : list (string * pyval)) (st st' : cursor_state) (x : result ())
    (r : Settings) :
  (∀ n, execute_error env n = None) →
  NoDup items.*1 →
  settings (work st) !! telegram_id = Some r →
  update_settings_loop env telegram_id items st = (st', x) →
  ∃ r', settings (work st') !! telegram_id = Some r' ∧
        ∀ key v, (key, v) ∈ items → key ∈ allowed_settings →
                 column key r' = Some (stored_setting env key v).
Proof.
  intros He. revert st r. induction items as [|[key value] rest IH];
    intros st r Hnd Hr Hloop; simpl in *.
  { inversion Hloop; subst. exists r. split; [done|]. by intros ?? ?%elem_of_nil. }
  apply NoDup_cons in Hnd as [Hkey Hnd].
  destruct (decide (key ∈ allowed_settings)) as [Hin|Hout].
  - rewrite bool_decide_eq_true_2 in Hloop by done.
    unfold mbind, cur_mbind in Hloop.
    destruct (execute env _ st) as [st1 y] eqn:Hex.
    unfold execute, sql_update_setting in Hex. rewrite He in Hex. simpl in Hex.
    inversion Hex; subst; clear Hex.
    assert (H1 : settings (work {| work := with_settings
                  (alter (set_column key (stored_setting env key value)) telegram_id)
                  (work st);
                  executed := S (executed st) |}) !! telegram_id
                 = Some (set_column key (stored_setting env key value) r)).
    { simpl. by rewrite lookup_alter_eq, Hr. }
    destruct (IH _ _ Hnd H1 Hloop) as (r' & Hr' & Hcols).
    exists r'. split; [done|]. intros k v [Heq|Hrest]%elem_of_cons Hk.
    + injection Heq as -> ->.
      pose proof (update_settings_loop_frame _ _ _ _ _ _ Hloop)
        as (_ & _ & _ & _ & _ & Hc).
      rewrite (Hc key _ r' Hkey H1 Hr'). by apply column_set_column_eq.
    + by apply Hcols.
  - rewrite bool_decide_eq_false_2 in Hloop by done. simpl in Hloop.
    destruct (IH _ _ Hnd Hr Hloop) as (r' & Hr' & Hcols).
    exists r'. split; [done|]. intros k v [Heq|Hrest]%elem_of_cons Hk.
    + injection Heq as -> ->. done.
    + by apply Hcols.
Qed.

(** X5.  What [update_settings] stored can be read back, in the form
    the engine gave it.  When the engine fails nowhere, the user has a
    settings row and the dictionary has each key once, the call returns
    [True], and a [get_settings] that goes through returns the user's
    row in which every key of the dictionary that is in the list
    [slippage, auto_buy_amount, mev_protection, priority_fee] has what
    the engine made of the value given for it in the column of that
    name: not always the value itself (under SQLite an int given for the
    slippage comes back as a float). *)
Theorem update_settings_then_get (env env' : DbEnv) (telegram_id : Z)
    (items : list (string * pyval)) (db : Tables) (r : Settings) :
  healthy env →
  NoDup items.*1 →
  settings db !! telegram_id = Some r →
  through env' = true →
  let after := update_settings env telegram_id items db in
  after.2 = true ∧
  settings after.1.2 !! telegram_id = Some (get_settings env' telegram_id after.1.2).2 ∧
  ∀ key v, (key, v) ∈ items → key ∈ allowed_settings →
    ∃ c, settings_column key = Some c ∧
         column key (get_settings env' telegram_id after.1.2).2
         = Some (stored env c v).
Proof.
  intros (Hc & He & Hm) Hnd Hr Hthrough after. subst after.
  destruct (update_settings_loop_returns env telegram_id items (fresh_cursor db) He)
    as [st' Hloop].
  destruct (update_settings_loop_writes env telegram_id items (fresh_cursor db)
              st' (Ret ()) r He Hnd Hr Hloop) as (r' & Hr' & Hcols).
  unfold update_settings, guarded, get_cursor. rewrite Hc, Hloop, Hm. simpl.
  rewrite get_settings_value, Hthrough, Hr'. simpl.
  split; [done|]. split; [done|]. intros key v Hin Hkey.
  specialize (Hcols key v Hin Hkey). unfold stored_setting in Hcols.
  unfold allowed_settings in Hkey.
  repeat (apply elem_of_cons in Hkey as [->|Hkey]; [by eexists|]).
  by apply elem_of_nil in Hkey.
Qed.

(** X6.  [update_settings] for a user who has no settings row stores
    nothing: the tables are exactly as before.  It still returns [True]
    when the engine fails nowhere, since an [UPDATE] that matches no row
    is not an error. *)
Theorem update_settings_without_row (env : DbEnv) (telegram_id : Z)
    (items : list (string * pyval)) (db : Tables) :
  settings db !! telegram_id = None →
  (update_settings env telegram_id items db).1.2 = db ∧
  (healthy env → (update_settings env telegram_id items db).2 = true).
Proof.
  intros Hnone. split.
  - destruct (update_settings_tables env telegram_id items db) as [->|[x H]]; [done|].
    pose proof (update_settings_loop_frame _ _ _ _ _ _ H) as (Hu & Ht & Hp & Hd & Ho & _).
    simpl in *. destruct (update_settings env telegram_id items db).1.2 as [u s t q].
    destruct db as [u0 s0 t0 q0]. simpl in *. subst. f_equal.
    apply map_eq. intros i. destruct (decide (i = telegram_id)) as [->|Hne].
    + rewrite Hnone. apply not_elem_of_dom. rewrite Hd. by apply not_elem_of_dom.
    + by apply Ho.
  - intros (Hc & He & Hm).
    destruct (update_settings_loop_returns env telegram_id items (fresh_cursor db) He)
      as [st' Hloop].
    unfold update_settings, guarded, get_cursor. by rewrite Hc, Hloop, Hm.
Qed.

End StoreRoundTrips.

Section Listings.

Import Store Operations Kept.

#[local] Instance newer_position_total : Total newer_position.
Proof. intros a b. unfold newer_position. lia. Qed.
#[local] Instance newer_position_trans : Transitive newer_position.
Proof. intros a b c. unfold newer_position. lia. Qed.
#[local] Instance newer_trade_total : Total newer_trade.
Proof. intros a b. unfold newer_trade. lia. Qed.
#[local] Instance newer_trade_trans : Transitive newer_trade.
Proof. intros a b c. unfold newer_trade. lia. Qed.

Lemma get_positions_elem (env : DbEnv) (telegram_id : Z) (db : Tables)
    (tok : string) (r : Position) :
  through env = true →
  (tok, r) ∈ (get_positions env telegram_id db).2 ↔
  positions db !! (telegram_id, tok) = Some r ∧ is_positive env (amount r) = true.
Proof.
  intros Ht. unfold get_positions.
  rewrite (proj2 (guarded_one env _ _ _ db)), Ht. unfold sql_select_positions, id.
  rewrite list_elem_of_fmap. split.
  - intros ([[t k] x] & Heq & Hin). simpl in Heq. injection Heq as -> ->.
    rewrite merge_sort_Permutation in Hin.
    apply list_elem_of_filter in Hin as [[Hid Hpos] Hin]. simpl in *. subst.
    by apply elem_of_map_to_list in Hin.
  - intros [Hl Hpos]. exists (telegram_id, tok, r). split; [done|].
    rewrite merge_sort_Permutation. apply list_elem_of_filter. split; [done|].
    by apply elem_of_map_to_list.
Qed.

(** X7.  [get_positions], when the read goes through, lists exactly the
    user's positions whose amount is greater than zero: a token is listed
    with a row if and only if that row is the user's position in the
    token and its amount is positive ([amount > 0] as the engine
    evaluates it; on an engine that keeps REAL as binary64, the float is
    greater than zero).  Rows of other users and rows with a zero or
    negative amount never appear.  The list is ordered by [updated_at],
    most recent first. *)
Theorem get_positions_lists_open_positions (env : DbEnv) (telegram_id : Z)
    (db : Tables) :
  through env = true →
  let l := (get_positions env telegram_id db).2 in
  (∀ tok r, (tok, r) ∈ l ↔
     positions db !! (telegram_id, tok) = Some r ∧ is_positive env (amount r) = true) ∧
  (Concurrent.binary64_order env →
   ∀ tok r x, amount r = VFloat x →
     ((tok, r) ∈ l ↔
      positions db !! (telegram_id, tok) = Some r ∧
      float_lt (PFin (Qc_of_Z 0)) x = true)) ∧
  StronglySorted (λ a b, (updated_at b.2 ≤ updated_at a.2)%nat) l.
Proof.
  intros Ht l. split; [|split].
  - intros tok r. by apply get_positions_elem.
  - intros Horder tok r x Hx. subst l.
    rewrite (get_positions_elem env telegram_id db tok r Ht), Hx. by rewrite Horder.
  - subst l. unfold get_positions.
    rewrite (proj2 (guarded_one env _ _ _ db)), Ht. unfold sql_select_positions, id.
    apply (StronglySorted_fmap _ newer_position); [done|].
    apply StronglySorted_merge_sort; apply _.
Qed.

Lemma StronglySorted_take {A} (R : relation A) (n : nat) (l : list A) :
  StronglySorted R l → StronglySorted R (take n l).
Proof.
  intros H. rewrite <- (take_drop n l) in H. by apply StronglySorted_app_1_l in H.
Qed.

(** X8.  [get_trades], when the read goes through, returns at most
    [limit] rows, every one of them a trade of that user from the table,
    ordered by [created_at], most recent first; if the user has no more
    than [limit] trades, all of them are returned. *)
Theorem get_trades_lists_recent_trades (env : DbEnv) (telegram_id : Z) (limit : nat)
    (db : Tables) :
  through env = true →
  let l := (get_trades env telegram_id limit db).2 in
  let own := filter (λ r, trade_telegram_id r = telegram_id) (trades db) in
  (length l ≤ limit)%nat ∧
  (∀ r, r ∈ l → r ∈ trades db ∧ trade_telegram_id r = telegram_id) ∧
  StronglySorted (λ a b, (trade_created_at b ≤ trade_created_at a)%nat) l ∧
  ((length own ≤ limit)%nat → l ≡ₚ own).
Proof.
  intros Ht l own. subst l. unfold get_trades.
  rewrite (proj2 (guarded_one env _ _ _ db)), Ht. unfold sql_select_trades, id.
  fold own. split; [|split; [|split]].
  - rewrite length_take. lia.
  - intros r Hin. apply (λ H, elem_of_sublist _ _ _ H (sublist_take _ _)) in Hin.
    rewrite merge_sort_Permutation in Hin.
    apply list_elem_of_filter in Hin as [? ?]. done.
  - apply StronglySorted_take. apply (StronglySorted_merge_sort newer_trade).
  - intros Hlen. rewrite take_ge.
    + apply merge_sort_Permutation.
    + by rewrite merge_sort_Permutation.
Qed.

Lemma update_position_effect (env : DbEnv) (telegram_id : Z)
    (token_address symbol name : string) (amount entry_price : pyval)
    (db : Tables) :
  let after := update_position env telegram_id token_address symbol name amount
                 entry_price db in
  let stmt := sql_upsert_position env telegram_id token_address symbol name amount
                entry_price db in
  after.2 = (if through env then match stmt with Ret _ => true | Exc _ => false end
             else false) ∧
  after.1.2 = (if through env then match stmt with Ret (t, _) => t | Exc _ => db end
               else db).
Proof.
  simpl. unfold update_position.
  rewrite (proj1 (guarded_one env _ _ _ db)), (proj2 (guarded_one env _ _ _ db)).
  by destruct (sql_upsert_position _ _ _ _ _ _ _ db) as [[t []]|e].
Qed.

Lemma delete_position_effect (env : DbEnv) (telegram_id : Z) (token_address : string)
    (db : Tables) :
  (delete_position env telegram_id token_address db).2 = through env ∧
  (delete_position env telegram_id token_address db).1.2 =
    if through env then with_positions (delete (telegram_id, token_address)) db else db.
Proof.
  unfold delete_position.
  rewrite (proj1 (guarded_one env _ _ _ db)), (proj2 (guarded_one env _ _ _ db)).
  unfold sql_delete_position. by destruct (through env).
Qed.

(** The upsert on a key that has a row: the statement as a whole. *)
Lemma sql_upsert_existing (env : DbEnv) (telegram_id : Z)
    (token_address symbol name : string) (amount entry_price : pyval)
    (db t : Tables) (old : Position) :
  positions db !! (telegram_id, token_address) = Some old →
  sql_upsert_position env telegram_id token_address symbol name amount entry_price db
  = Ret (t, ()) →
  let sum := real_add env (Store.amount old) (stored env positions_amount amount) in
  sum ≠ VNone ∧
  t = with_positions
        <[(telegram_id, token_address) :=
            {| Store.symbol := Store.symbol old; Store.name := Store.name old;
               Store.amount := sum; Store.entry_price := Store.entry_price old;
               created_at := created_at old; updated_at := now env |}]> db.
Proof.
  intros Hold. unfold sql_upsert_position. rewrite Hold.
  destruct (stored env positions_amount amount); simpl; try done;
    destruct (real_add env _ _); simpl; try done; by intros [= <-].
Qed.

Lemma update_position_keeps_row (env : DbEnv) (telegram_id : Z)
    (token_address symbol name : string) (amount entry_price : pyval)
    (db : Tables) (old : Position) :
  positions db !! (telegram_id, token_address) = Some old →
  (update_position env telegram_id token_address symbol name amount entry_price db).2
  = true →
  positions (update_position env telegram_id token_address symbol name amount
               entry_price db).1.2 !! (telegram_id, token_address)
  = Some {| Store.symbol := Store.symbol old; Store.name := Store.name old;
            Store.amount :=
              real_add env (Store.amount old) (stored env positions_amount amount);
            Store.entry_price := Store.entry_price old;
            created_at := created_at old; updated_at := now env |}.
Proof.
  intros Hold.
  destruct (update_position_effect env telegram_id token_address symbol name amount
              entry_price db) as [Hr Ht]. cbv zeta in Hr, Ht.
  rewrite Hr, Ht. clear Hr Ht.
  destruct (through env); [|done].
  destruct (sql_upsert_position _ _ _ _ _ _ _ db) as [[t []]|e] eqn:Hst; [|done].
  intros _. destruct (sql_upsert_existing _ _ _ _ _ _ _ _ _ _ Hold Hst) as [_ ->].
  simpl. by rewrite lookup_insert_eq.
Qed.

(** X9.  A second [update_position] on a key only adds to the amount and
    moves [updated_at]: when the call returns [True] on a key that has a
    row, the row keeps its symbol, name, entry price and creation time,
    whatever symbol, name and entry price the call was given, and its
    amount is the engine's sum of the old amount and the amount given,
    as the REAL column holds them.  That sum is rounded as the column
    rounds; on an engine that keeps REAL as binary64 it is the exact sum
    for whole amounts whose sum is below 2^53 in magnitude.  Every other
    position and every other table is untouched.  When the call returns
    [False] nothing changed. *)
Theorem update_position_keeps_metadata (env : DbEnv) (telegram_id : Z)
    (token_address symbol name : string) (amount entry_price : pyval)
    (db : Tables) (old : Position) :
  positions db !! (telegram_id, token_address) = Some old →
  let after := update_position env telegram_id token_address symbol name amount
                 entry_price db in
  let sum := real_add env (Store.amount old) (stored env positions_amount amount) in
  (after.2 = true →
     positions after.1.2 !! (telegram_id, token_address) =
       Some {| Store.symbol := Store.symbol old; Store.name := Store.name old;
               Store.amount := sum;
               Store.entry_price := Store.entry_price old;
               created_at := created_at old; updated_at := now env |} ∧
     (∀ a b, Concurrent.binary64_reals env →
             Store.amount old = VFloat (PFin (Qc_of_Z a)) →
             amount = VFloat (PFin (Qc_of_Z b)) →
             Z.abs (a + b) < 2 ^ 53 →
             sum = VFloat (PFin (Qc_of_Z (a + b)))) ∧
     (∀ k, k ≠ (telegram_id, token_address) →
        positions after.1.2 !! k = positions db !! k) ∧
     users after.1.2 = users db ∧ settings after.1.2 = settings db ∧
     trades after.1.2 = trades db) ∧
  (after.2 = false → after.1.2 = db).
Proof.
  intros Hold after sum. subst after.
  destruct (update_position_effect env telegram_id token_address symbol name amount
              entry_price db) as [Hr Ht]. cbv zeta in Hr, Ht.
  rewrite Hr, Ht. clear Hr Ht.
  destruct (through env); [|by split].
  destruct (sql_upsert_position _ _ _ _ _ _ _ db) as [[t []]|e] eqn:Hst; [|by split].
  split; [intros _|done].
  destruct (sql_upsert_existing _ _ _ _ _ _ _ _ _ _ Hold Hst) as [Hsum ->].
  simpl. rewrite lookup_insert_eq. repeat split; try done.
  - intros a b [Hsto Hadd] Ha -> Hlt. subst sum.
    rewrite Ha, Hsto, Hadd by (by rewrite ?float_add_whole). by rewrite float_add_whole.
  - intros k Hk. by rewrite lookup_insert_ne.
Qed.

(** X10.  [delete_position] undoes the first [update_position] on a key:
    starting from tables where the key has no row, an upsert followed by
    a delete of the same key, both going through, gives back exactly the
    tables of the start.  Deleting a key that has no row changes nothing,
    and the call still returns [True] when it goes through. *)
Theorem upsert_then_delete (env env' : DbEnv) (telegram_id : Z)
    (token_address symbol name : string) (amount entry_price : pyval)
    (db : Tables) :
  positions db !! (telegram_id, token_address) = None →
  (through env = true → through env' = true →
   (delete_position env' telegram_id token_address
      (update_position env telegram_id token_address symbol name amount
         entry_price db).1.2).1.2 = db) ∧
  (delete_position env' telegram_id token_address db).1.2 = db ∧
  (delete_position env' telegram_id token_address db).2 = through env'.
Proof.
  intros Hnone.
  assert (Hdel : with_positions (delete (telegram_id, token_address)) db = db).
  { destruct db as [u s t q]. unfold with_positions. simpl in *. f_equal.
    by apply delete_id. }
  repeat split.
  - intros H1 H2.
    rewrite (proj2 (delete_position_effect _ _ _ _)), H2.
    destruct (update_position_effect env telegram_id token_address symbol name amount
                entry_price db) as [_ Ht]. cbv zeta in Ht. rewrite Ht, H1. clear Ht.
    unfold sql_upsert_position. rewrite Hnone.
    destruct (not_null _); [|done].
    destruct db as [u s t q]. unfold with_positions. simpl in *. f_equal.
    rewrite delete_insert_eq. by apply delete_id.
  - rewrite (proj2 (delete_position_effect _ _ _ _)). by destruct (through env').
  - apply delete_position_effect.
Qed.

(** X11.  A position sold down to nothing is hidden, not deleted: if an
    [update_position] that returns [True] brings the amount of an
    existing row to a value that is not greater than zero, the row is
    still in the table, but [get_positions] no longer lists the token. *)
Theorem closed_position_hidden_not_deleted (env env' : DbEnv) (telegram_id : Z)
    (token_address symbol name : string) (delta entry_price : pyval)
    (db : Tables) (old : Position) :
  positions db !! (telegram_id, token_address) = Some old →
  is_positive env'
    (real_add env (Store.amount old) (stored env positions_amount delta)) = false →
  (update_position env telegram_id token_address symbol name delta
     entry_price db).2 = true →
  through env' = true →
  let db' := (update_position env telegram_id token_address symbol name delta
                entry_price db).1.2 in
  is_Some (positions db' !! (telegram_id, token_address)) ∧
  ∀ r, (token_address, r) ∉ (get_positions env' telegram_id db').2.
Proof.
  intros Hold Hle H1 H2 db'. subst db'.
  pose proof (update_position_keeps_row env telegram_id token_address symbol name
                delta entry_price db old Hold H1) as Hrow.
  rewrite Hrow. split; [by eexists|].
  intros r Hin. apply get_positions_elem in Hin as [Hl Hpos]; [|done].
  rewrite Hrow in Hl. injection Hl as <-. simpl in Hpos. congruence.
Qed.

End Listings.

(** ** The two swaps *)

Section SwapProperties.

Import Chain Shapes.

Variable w : World.

(** How far [quote_build_submit] got, read off its calls: the quote
    only, the quote and the build, or all three; it hands back a quote
    and a signature only in the last case. *)
Lemma quote_build_submit_cases (wallet i o : string) (a b : Z) :
  let Q := http_get_quote i o a b in
  let run := quote_build_submit w wallet i o a b in
  (run.1 = [Q] ∧ ∀ x, run.2 ≠ Ret (inr x)) ∨
  (∃ q, run.1 = [Q; http_post_swap q wallet] ∧ ∀ x, run.2 ≠ Ret (inr x)) ∨
  (∃ q tx, run.1 = [Q; http_post_swap q wallet; rpc_send_raw_transaction tx] ∧
     (∃ resp, quote_api w i o a b = Ret resp ∧ status_code resp = 200 ∧
              json resp = Ret q) ∧
     (∀ e, run.2 ≠ Ret (inl e)) ∧
     (∀ q' sig, run.2 = Ret (inr (q', sig)) →
        q' = q ∧ client_send_raw_transaction w tx = Ret sig)).
Proof.
  simpl. unfold quote_build_submit, mbind, io_mbind, io_bind, perform, lift, mret,
    io_mret, io_ret.
  destruct (quote_api w i o a b) as [[code [q|?]]|?] eqn:Hq; simpl;
    try destruct (Z.eqb_spec code 200); simpl; try (left; split; [done|congruence]).
  destruct (swap_api w q wallet) as [[code' [d|?]]|?]; simpl;
    try destruct (Z.eqb_spec code' 200); simpl;
    try (right; left; exists q; split; [done|congruence]).
  destruct (py_not (default VNone (swapTransaction d))); simpl;
    try (right; left; exists q; split; [done|congruence]).
  destruct (match default VNone (swapTransaction d) with
            | VStr s => b64decode w s | _ => Exc _ end) as [tx|?]; simpl;
    try (right; left; exists q; split; [done|congruence]).
  right; right. exists q, tx.
  destruct (client_send_raw_transaction w tx) as [sig|?]; simpl;
    (split; [done|]); (split; [by eexists|]); split; try congruence.
  intros q' sig' H. by injection H as -> ->.
Qed.

Lemma io_bind_lift_exc {A B} (e : string) (f : A → io B) :
  io_bind (lift (Exc e)) f = ([], Exc e).
Proof. done. Qed.

Lemma io_bind_trace {A B} (m : io A) (k : A → io B) :
  (∀ a, (k a).1 = []) → (io_bind m k).1 = m.1.
Proof.
  intros Hk. unfold io_bind. destruct m as [t [a|e]]; simpl; [|done].
  specialize (Hk a). destruct (k a) as [t' r]. simpl in *. subst.
  by rewrite app_nil_r.
Qed.

Lemma swap_calls_nil (i o : string) : swap_calls i o [].
Proof.
  exists 0, 0, {| outAmount := None; priceImpactPct := None |}, EmptyString, [].
  apply prefix_nil.
Qed.

Lemma quote_build_submit_calls (wallet i o : string) (a b : Z) :
  swap_calls i o (quote_build_submit w wallet i o a b).1.
Proof.
  destruct (quote_build_submit_cases wallet i o a b)
    as [[-> _]|[(q & -> & _)|(q & tx & -> & _)]].
  - exists a, b, {| outAmount := None; priceImpactPct := None |}, EmptyString, [].
    by eexists.
  - exists a, b, q, wallet, []. by eexists.
  - by exists a, b, q, wallet, tx.
Qed.

Ltac lifts :=
  repeat match goal with
  | |- context [io_bind (lift ?r) _] =>
      destruct r; [rewrite io_bind_lift_ret | rewrite io_bind_lift_exc]
  end.

(** X12.  A swap submits at most once, and only after the quote and the
    build.  The calls of [swap_sol_for_token] are a beginning of the
    sequence: one quote from SOL to the token, one build, one
    submission.  Those of [swap_token_for_sol] are ledger reads followed
    by a beginning of the same sequence from the token to SOL.  Neither
    method quotes, builds or submits a second time, whatever the replies
    and the failures. *)
Theorem swaps_submit_at_most_once (private_key token_address : string)
    (amount_sol : pyfloat) (percentage : Z) (slippage : pyval) :
  swap_calls SOL_MINT token_address
    (swap_sol_for_token w private_key token_address amount_sol slippage).1 ∧
  ∃ reads rest,
    (swap_token_for_sol w private_key token_address percentage slippage).1
      = reads ++ rest ∧
    Forall (λ c, is_ledger_read c = true) reads ∧
    swap_calls token_address SOL_MINT rest.
Proof.
  split.
  - unfold swap_sol_for_token. rewrite try_except_trace.
    unfold mbind, io_mbind. lifts; try apply swap_calls_nil.
    rewrite io_bind_trace; [apply quote_build_submit_calls|].
    intros [e|[q sig]]; [done|]. by destruct (py_int w _).
  - unfold swap_token_for_sol. rewrite try_except_trace.
    unfold mbind, io_mbind. lifts.
    2: { exists [], []. repeat split; [constructor|apply swap_calls_nil]. }
    rewrite io_bind_total. cbn [fst]. cbv beta.
    set (read := get_token_balance w a token_address).
    exists read.1. eexists. split; [done|]. split.
    { apply Forall_forall. intros c Hc.
      by destruct (get_token_balance_calls w a token_address c Hc) as (? & ? & ->). }
    destruct (read.2 <=? 0); [apply swap_calls_nil|].
    lifts; try apply swap_calls_nil.
    rewrite io_bind_trace; [apply quote_build_submit_calls|].
    intros [e|[q sig]]; [done|].
    unfold mbind, io_mbind. lifts; done.
Qed.

Lemma try_except_ok {A} (body : io A) (h : string → A) (t : list call) (a : A) :
  try_except body h = (t, a) → (∀ e, h e ≠ a) → body = (t, Ret a).
Proof.
  destruct body as [t0 [a0|e]]; simpl; intros H Hne; injection H as <- <-; [done|].
  by destruct (Hne e).
Qed.

Lemma io_bind_ret {A B} (m : io A) (f : A → io B) (t : list call) (b : B) :
  io_bind m f = (t, Ret b) →
  ∃ t1 a t2, m = (t1, Ret a) ∧ f a = (t2, Ret b) ∧ t = t1 ++ t2.
Proof.
  unfold io_bind. destruct m as [t1 [a|e]]; [|done].
  destruct (f a) as [t2 r] eqn:Hf. intros H. injection H as <- ->.
  by exists t1, a, t2.
Qed.

Lemma lift_ret {A} (r : result A) (t : list call) (a : A) :
  lift r = (t, Ret a) → r = Ret a ∧ t = [].
Proof. unfold lift. intros H. by injection H as <- ->. Qed.

Ltac bind_inv H a H1 :=
  let t1 := fresh "t" in
  let t2 := fresh "t" in
  apply io_bind_ret in H as (t1 & a & t2 & H1 & H & ->);
  try (apply lift_ret in H1 as [H1 ->]).

(** X13.  A buy that [swap_sol_for_token] reports as successful was
    quoted with status 200, built, and submitted exactly once, in that
    order and with no other call; the signature returned is the one the
    ledger gave for that submission, [amount_in] is the SOL amount asked
    for, [amount_out] is [int] of the quote's [outAmount], and the quote
    was requested from SOL to the token for [int(amount_sol * 10^9)]
    lamports. *)
Theorem buy_success_means_submitted (private_key token_address : string)
    (amount_sol : pyfloat) (slippage : pyval) (t : list call)
    (sig : string) (a_in a_out impact : pyval) :
  swap_sol_for_token w private_key token_address amount_sol slippage
    = (t, SwapOk sig a_in a_out impact) →
  ∃ wallet scaled lamports bps quote tx out,
    keypair_pubkey w private_key = Ret wallet ∧
    py_mul_int (VFloat amount_sol) LAMPORTS_PER_SOL = Ret scaled ∧
    py_int w scaled = Ret lamports ∧
    t = [http_get_quote SOL_MINT token_address lamports bps;
         http_post_swap quote wallet;
         rpc_send_raw_transaction tx] ∧
    (∃ resp, quote_api w SOL_MINT token_address lamports bps = Ret resp ∧
             status_code resp = 200 ∧ json resp = Ret quote) ∧
    client_send_raw_transaction w tx = Ret sig ∧
    a_in = VFloat amount_sol ∧
    py_int w (default (VInt 0) (outAmount quote)) = Ret out ∧
    a_out = VInt out ∧
    impact = default (VInt 0) (priceImpactPct quote).
Proof.
  unfold swap_sol_for_token, mbind, io_mbind. intros H.
  apply try_except_ok in H; [|done].
  bind_inv H wallet Hwallet. bind_inv H scaled Hscaled. bind_inv H lam Hlam.
  bind_inv H percent Hpercent. bind_inv H bps Hbps. bind_inv H r Hr.
  destruct r as [e|[q s]]; [by inversion H|].
  bind_inv H out Hout. injection H as <- <- <- <- <-.
  pose proof (quote_build_submit_cases wallet SOL_MINT token_address lam bps) as Hc.
  simpl in Hc. rewrite Hr in Hc. simpl in Hc.
  destruct Hc as [[_ Hn]|[(q0 & _ & Hn)|(q0 & tx & -> & Hresp & _ & Hs)]];
    try (by exfalso; eapply Hn).
  destruct (Hs q s eq_refl) as [-> Hsend].
  exists wallet, scaled, lam, bps, q0, tx, out. repeat split; done.
Qed.

(** X14.  A sell that [swap_token_for_sol] reports as successful read a
    balance greater than zero from the ledger, then quoted with status
    200, built and submitted exactly once; [amount_in] is
    [int(balance * percentage / 100)], the amount the quote was
    requested for from the token to SOL, and [amount_out] is [int] of the
    quote's [outAmount] divided by 10^9. *)
Theorem sell_success_means_submitted (private_key token_address : string)
    (percentage : Z) (slippage : pyval) (t : list call)
    (sig : string) (a_in a_out impact : pyval) :
  swap_token_for_sol w private_key token_address percentage slippage
    = (t, SwapOk sig a_in a_out impact) →
  ∃ wallet sold bps quote tx out sol,
    keypair_pubkey w private_key = Ret wallet ∧
    let read := get_token_balance w wallet token_address in
    0 < read.2 ∧
    sell_amount_of read.2 percentage = Some sold ∧
    t = read.1 ++ [http_get_quote token_address SOL_MINT sold bps;
                   http_post_swap quote wallet;
                   rpc_send_raw_transaction tx] ∧
    client_send_raw_transaction w tx = Ret sig ∧
    a_in = VInt sold ∧
    py_int w (default (VInt 0) (outAmount quote)) = Ret out ∧
    int_truediv out LAMPORTS_PER_SOL = Some sol ∧
    a_out = VFloat sol.
Proof.
  unfold swap_token_for_sol, mbind, io_mbind. intros H.
  apply try_except_ok in H; [|done].
  bind_inv H wallet Hwallet. bind_inv H balance Hread.
  unfold total in Hread. injection Hread as <- <-.
  set (read := get_token_balance w wallet token_address) in *.
  destruct (Z.leb_spec read.2 0) as [Hle|Hpos]; [by inversion H|].
  bind_inv H sold Hsold. bind_inv H percent Hpercent. bind_inv H bps Hbps.
  bind_inv H r Hr.
  destruct r as [e|[q s]]; [by inversion H|].
  bind_inv H out Hout. bind_inv H sol Hsol. injection H as <- <- <- <- <-.
  pose proof (quote_build_submit_cases wallet token_address SOL_MINT sold bps) as Hc.
  simpl in Hc. rewrite Hr in Hc. simpl in Hc.
  destruct Hc as [[_ Hn]|[(q0 & _ & Hn)|(q0 & tx & -> & Hresp & _ & Hs)]];
    try (by exfalso; eapply Hn).
  destruct (Hs q s eq_refl) as [-> Hsend].
  destruct (sell_amount_of read.2 percentage) as [sold'|] eqn:Hsold'; [|done].
  destruct (int_truediv out LAMPORTS_PER_SOL) as [sol'|] eqn:Hsol'; [|done].
  simpl in *. simplify_eq.
  exists wallet, sold, bps, q0, tx, out, sol.
  repeat split; try done.
Qed.

(** X15.  A buy can be reported as failed after it was submitted.  If
    the quote, the build and the submission all went through but the
    quote's [outAmount] cannot be read as an int, [swap_sol_for_token]
    returns a failure carrying the conversion error, although its calls
    include the submission of the transaction to the ledger. *)
Theorem buy_reported_failed_after_submission (private_key token_address : string)
    (amount_sol : pyfloat) (slippage : pyval) (wallet : string)
    (scaled percent : pyval) (lamports bps : Z) (t : list call)
    (quote : Quote) (sig msg : string) :
  keypair_pubkey w private_key = Ret wallet →
  py_mul_int (VFloat amount_sol) LAMPORTS_PER_SOL = Ret scaled →
  py_int w scaled = Ret lamports →
  py_mul_int slippage 100 = Ret percent →
  py_int w percent = Ret bps →
  quote_build_submit w wallet SOL_MINT token_address lamports bps
    = (t, Ret (inr (quote, sig))) →
  py_int w (default (VInt 0) (outAmount quote)) = Exc msg →
  swap_sol_for_token w private_key token_address amount_sol slippage
    = (t, SwapFailed msg) ∧
  Exists (λ c, is_submission c = true) t.
Proof.
  intros Hwallet Hscaled Hlam Hpercent Hbps Hq Hout. split.
  - unfold swap_sol_for_token, mbind, io_mbind.
    rewrite Hwallet, io_bind_lift_ret, Hscaled, io_bind_lift_ret, Hlam,
      io_bind_lift_ret, Hpercent, io_bind_lift_ret, Hbps, io_bind_lift_ret.
    unfold io_bind at 1. rewrite Hq, Hout. simpl. by rewrite app_nil_r.
  - pose proof (quote_build_submit_cases wallet SOL_MINT token_address lamports bps)
      as Hc.
    simpl in Hc. rewrite Hq in Hc. simpl in Hc.
    destruct Hc as [[_ Hn]|[(q0 & _ & Hn)|(q0 & tx & -> & _)]];
      try (by exfalso; eapply Hn).
    do 2 apply Exists_cons_tl. by apply Exists_cons_hd.
Qed.

End SwapProperties.

(** ** What the handlers keep *)

Section HandlersKeep.

Import Chain Store Bot Commands Operations Kept.

#[local] Existing Instance same_positions_preorder.

Ltac step :=
  first
    [ apply behaves_ret
    | apply behaves_raise
    | apply behaves_get_user_data
    | apply behaves_set_user_data
    | apply behaves_call_trader
    | apply behaves_call_db
    | apply behaves_say
    | apply behaves_emit
    | apply behaves_bind; [try apply _ | | intros ?]
    | match goal with
      | |- behaves _ _ (match ?x with _ => _ end) => destruct x
      end ].

Ltac safe_method :=
  intros;
  match goal with
  | |- safe ?t (get_user ?e ?u ?t).1.2 => apply (run_safe e false (call_get_user u) t)
  | |- safe ?t (get_settings ?e ?u ?t).1.2 =>
      apply (run_safe e false (call_get_settings u) t)
  | |- safe ?t (get_positions ?e ?u ?t).1.2 =>
      apply (run_safe e false (call_get_positions u) t)
  | |- safe ?t (update_settings ?e ?u ?i ?t).1.2 =>
      apply (run_safe e false (call_update_settings u i) t)
  | |- safe ?t (log_trade ?e ?u ?k ?s ?a ?b ?g ?t).1.2 =>
      apply (run_safe e false (call_log_trade u k s a b g) t)
  | |- safe ?t (create_user ?e ?p ?u ?n ?a ?k ?t).1.2 =>
      apply (run_safe e p (call_create_user u n a k) t)
  end.

Ltac keep_safe :=
  repeat step; try apply _; try done;
  try (apply Forall_forall; intros; done);
  try (repeat constructor; done);
  try safe_method.

Variable env : Env.

Lemma check_balance_and_buy_safe user_id user token amount :
  behaves safe any_effect (check_balance_and_buy env user_id user token amount).
Proof. unfold check_balance_and_buy. keep_safe. Qed.

Lemma handle_callback_safe user_id data :
  behaves safe any_effect (handle_callback env user_id data).
Proof.
  unfold handle_callback, buy_branch, sell_branch, sell_menu, int_field1.
  repeat first [apply check_balance_and_buy_safe | step];
    try apply _; try done;
    try (apply Forall_forall; intros; done);
    try (repeat constructor; done);
    try safe_method.
Qed.

Lemma handle_message_safe user_id text :
  behaves safe any_effect (handle_message env user_id text).
Proof.
  unfold handle_message.
  repeat first [apply check_balance_and_buy_safe | step];
    try apply _; try done;
    try (apply Forall_forall; intros; done);
    try (repeat constructor; done);
    try safe_method.
Qed.

Lemma start_safe user_id username public_key private_key :
  behaves safe any_effect (start env user_id username public_key private_key).
Proof. unfold start. keep_safe. Qed.

Lemma run_command_safe user_id c :
  behaves safe any_effect (run_command env user_id c).
Proof.
  destruct c; unfold run_command, cmd_buy, cmd_sell, cmd_wallet, cmd_positions,
    cmd_settings; keep_safe.
Qed.

(** X16.  No handler removes or alters a user row or a trade row, and
    every handler keeps one settings row per user.  After a button
    press, a text message, [/start] or a command, whatever the replies of
    the ledger and of the aggregator and the failures of the engine, the
    user rows of before are unchanged (no wallet or key is replaced), the
    trades of before are the first trades of afterwards, and if users and
    settings rows were paired before they still are. *)
Theorem handlers_keep_users_trades_and_pairing (user_id : Z) (st : bot_state) :
  let keeps (m : bot ()) :=
    users (db st) ⊆ users (db (m st).1) ∧
    trades (db st) `prefix_of` trades (db (m st).1) ∧
    (dom (settings (db st)) = dom (users (db st)) →
     dom (settings (db (m st).1)) = dom (users (db (m st).1))) in
  (∀ data, keeps (handle_callback env user_id data)) ∧
  (∀ text, keeps (handle_message env user_id text)) ∧
  (∀ username public_key private_key,
     keeps (start env user_id username public_key private_key)) ∧
  (∀ c, keeps (run_command env user_id c)).
Proof.
  assert (∀ m : bot (), behaves safe any_effect m →
            users (db st) ⊆ users (db (m st).1) ∧
            trades (db st) `prefix_of` trades (db (m st).1) ∧
            (dom (settings (db st)) = dom (users (db st)) →
             dom (settings (db (m st).1)) = dom (users (db (m st).1)))) as Hb.
  { intros m Hm. by destruct (Hm st) as [[[? ?] ?] _]. }
  simpl. split; [|split; [|split]]; intros; apply Hb.
  - apply handle_callback_safe.
  - apply handle_message_safe.
  - apply start_safe.
  - apply run_command_safe.
Qed.

Lemma run_command_positions user_id c :
  behaves same_positions not_position_write (run_command env user_id c).
Proof.
  destruct c; unfold run_command, cmd_buy, cmd_sell, cmd_wallet, cmd_positions,
    cmd_settings; repeat step; try apply _;
    try (split; discriminate);
    try (apply Forall_forall; intros; split; discriminate).
  all: intros; unfold same_positions;
    by rewrite ?get_user_tables, ?get_settings_tables, ?get_positions_tables.
Qed.

(** X17.  No handler writes to the positions table.  After a button
    press, a text message, [/start] or a command the table is the one of
    before, and among the store calls the handler made there is neither
    [update_position] nor [delete_position]: positions are only ever
    read. *)
Theorem handlers_never_write_positions (user_id : Z) (st : bot_state) :
  let reads_only (m : bot ()) :=
    positions (db (m st).1) = positions (db st) ∧
    ∃ new, (trace (m st).1 = trace st ++ new) ∧
           (Db m_update_position ∉ new) ∧ (Db m_delete_position ∉ new) in
  (∀ data, reads_only (handle_callback env user_id data)) ∧
  (∀ text, reads_only (handle_message env user_id text)) ∧
  (∀ username public_key private_key,
     reads_only (start env user_id username public_key private_key)) ∧
  (∀ c, reads_only (run_command env user_id c)).
Proof.
  assert (∀ m : bot (), behaves same_positions not_position_write m →
            positions (db (m st).1) = positions (db st) ∧
            ∃ new, (trace (m st).1 = trace st ++ new) ∧
                   (Db m_update_position ∉ new) ∧ (Db m_delete_position ∉ new)) as Hb.
  { intros m Hm. destruct (Hm st) as (Hp & new & Ht & Hall). split; [done|].
    exists new. split; [done|]. rewrite Forall_forall in Hall.
    split; intros Hin; apply Hall in Hin as [? ?]; done. }
  simpl. split; [|split; [|split]]; intros; apply Hb.
  - apply handle_callback_positions.
  - apply handle_message_positions.
  - apply start_positions.
  - apply run_command_positions.
Qed.

End HandlersKeep.

(** ** What the handlers answer *)

Section HandlerAnswers.

Import Chain Store Bot Commands Operations Kept.

Variable env : Env.

(** X18.  A user without a row is turned away before anything else
    happens.  When [get_user] returns [None] (no row, or the read
    failed), every button press and each of [/sell], [/wallet],
    [/positions] and [/settings] answers with the request to use
    [/start] and returns: the tables and the flags are unchanged, no
    other store call is made and nothing is sent to the ledger or the
    aggregator. *)
Theorem unregistered_user_is_turned_away (user_id : Z) (st : bot_state) :
  (get_user (db_env env m_get_user) user_id (db st)).2 = None →
  (∀ data, handle_callback env user_id data st
           = (only_said st [Db m_get_user; Say msg_please_start], Ret ())) ∧
  (∀ c, c ≠ slash_buy →
        run_command env user_id c st
        = (only_said st [Db m_get_user; Say msg_please_start], Ret ())).
Proof.
  intros Hnone. split.
  - intros data. unfold handle_callback, mbind, bot_mbind.
    rewrite call_db_get_user, Hnone. unfold say, emit, only_said. simpl.
    by rewrite <- app_assoc.
  - intros c Hc. destruct c; [done|..];
      unfold run_command, cmd_sell, cmd_wallet, cmd_positions, cmd_settings,
        mbind, bot_mbind;
      rewrite call_db_get_user, Hnone; unfold say, emit, only_said; simpl;
      by rewrite <- app_assoc.
Qed.

Lemma not_recognised (data : string) :
  recognised data = false →
  bool_decide (data = "back_main") || bool_decide (data = "refresh") = false ∧
  bool_decide (data = "buy") = false ∧ bool_decide (data = "sell") = false ∧
  bool_decide (data = "wallet") = false ∧ bool_decide (data = "export_key") = false ∧
  bool_decide (data = "positions") = false ∧ bool_decide (data = "settings") = false ∧
  String.prefix "slippage_" data = false ∧ String.prefix "buy_" data = false ∧
  String.prefix "sell_" data = false.
Proof.
  unfold recognised. intros H.
  repeat (apply orb_false_elim in H as [H ?]). rewrite H. by repeat split.
Qed.

(** X19.  A button whose data no branch of [handle_callback] takes is
    ignored without a word: for a registered user the handler looks the
    user up and returns, with no reply, no change to the tables or the
    flags and no other call. *)
Theorem unrecognised_callback_is_ignored (user_id : Z) (data : string)
    (st : bot_state) (user : User) :
  (get_user (db_env env m_get_user) user_id (db st)).2 = Some user →
  recognised data = false →
  handle_callback env user_id data st = (only_said st [Db m_get_user], Ret ()).
Proof.
  intros Hu Hr. unfold handle_callback, mbind, bot_mbind.
  rewrite call_db_get_user, Hu.
  destruct (not_recognised _ Hr) as (-> & -> & -> & -> & -> & -> & -> & -> & -> & ->).
  done.
Qed.

Lemma selltoken_not_recognised (token_address : string) :
  recognised (selltoken_button token_address) = false.
Proof.
  unfold recognised, selltoken_button.
  rewrite !bool_decide_eq_false_2 by (simpl; discriminate). done.
Qed.

(** X20.  The buttons of the sell menu lead nowhere.  The data of the
    button made for a position, ["selltoken_"] followed by the first 16
    characters of the token address, is taken by no branch of
    [handle_callback], whatever the address; and of the buttons of the
    five fixed keyboards exactly three are taken by no branch:
    [settings_slippage], [copy_address] and [refresh_balance]. *)
Theorem dead_buttons :
  (∀ token_address, recognised (selltoken_button token_address) = false) ∧
  filter (λ data, recognised data = false) keyboard_buttons
  = ["settings_slippage"; "copy_address"; "refresh_balance"].
Proof. split; [apply selltoken_not_recognised|by vm_compute]. Qed.

Ltac step :=
  first
    [ apply behaves_ret
    | apply behaves_raise
    | apply behaves_get_user_data
    | apply behaves_set_user_data
    | apply behaves_call_trader
    | apply behaves_call_db
    | apply behaves_say
    | apply behaves_emit
    | apply behaves_bind; [try apply _ | | intros ?]
    | match goal with
      | |- behaves _ _ (match ?x with _ => _ end) => destruct x
      end ].

Ltac safe_method :=
  intros;
  match goal with
  | |- safe ?t (get_user ?e ?u ?t).1.2 => apply (run_safe e false (call_get_user u) t)
  | |- safe ?t (get_settings ?e ?u ?t).1.2 =>
      apply (run_safe e false (call_get_settings u) t)
  | |- safe ?t (get_positions ?e ?u ?t).1.2 =>
      apply (run_safe e false (call_get_positions u) t)
  | |- safe ?t (update_settings ?e ?u ?i ?t).1.2 =>
      apply (run_safe e false (call_update_settings u i) t)
  | |- safe ?t (log_trade ?e ?u ?k ?s ?a ?b ?g ?t).1.2 =>
      apply (run_safe e false (call_log_trade u k s a b g) t)
  | |- safe ?t (create_user ?e ?p ?u ?n ?a ?k ?t).1.2 =>
      apply (run_safe e p (call_create_user u n a k) t)
  end.

Ltac no_key :=
  try apply _;
  try (intros ? ?; discriminate);
  try (intros ?; discriminate);
  try (apply Forall_forall; intros ? ? ? ?; discriminate);
  try (apply Forall_forall; intros ? ? ?; discriminate);
  try (repeat constructor; intros ? ?; discriminate);
  try (repeat constructor; intros ?; discriminate);
  try safe_method.

Lemma check_balance_and_buy_no_key user_id user token amount :
  behaves safe shows_no_key (check_balance_and_buy env user_id user token amount).
Proof. unfold check_balance_and_buy. repeat step; no_key. Qed.

Lemma shows_no_key_weaken {A} (user : User) (m : bot A) :
  behaves safe shows_no_key m → behaves safe (shows_key_of user) m.
Proof.
  intros Hm st. destruct (Hm st) as (HR & new & Ht & Hall). split; [done|].
  exists new. split; [done|]. eapply Forall_impl; [done|].
  intros e He k ->. by destruct (He k).
Qed.

Lemma said_after_lookup {A} (P : effect → Prop) (m : bot A) (st : bot_state)
    (new : list effect) (r : reply) :
  behaves safe P m →
  trace (m {| db := db st; user_data := user_data st;
              trace := trace st ++ [Db m_get_user] |}).1 = trace st ++ new →
  Say r ∈ new → P (Say r).
Proof.
  intros Hb Htrace Hin.
  destruct (Hb {| db := db st; user_data := user_data st;
                  trace := trace st ++ [Db m_get_user] |}) as (_ & new' & Ht & Hall).
  simpl in Ht. rewrite Ht, <- (app_assoc (trace st)) in Htrace.
  apply app_inv_head in Htrace as <-.
  apply elem_of_cons in Hin as [?|Hin]; [done|].
  rewrite Forall_forall in Hall. by apply Hall.
Qed.

Lemma turned_away_says_no_key (st : bot_state) (new : list effect) (k : string) :
  trace (say msg_please_start
           {| db := db st; user_data := user_data st;
              trace := trace st ++ [Db m_get_user] |}).1 = trace st ++ new →
  Say (msg_private_key k) ∉ new.
Proof.
  unfold say, emit. simpl. intros Htrace Hin.
  rewrite <- (app_assoc (trace st)) in Htrace. apply app_inv_head in Htrace as <-.
  apply elem_of_cons in Hin as [?|Hin]; [done|].
  apply elem_of_cons in Hin as [?|Hin]; [done|]. by apply elem_of_nil in Hin.
Qed.

(** X21.  A private key is shown only to its owner, and only on request.
    If [handle_callback] shows a private key, the button pressed was
    [export_key] and the key is the one stored in the row of the user
    who pressed it.  [handle_message], [/start] and the commands never
    show a key. *)
Theorem private_key_shown_only_to_owner (user_id : Z) (st : bot_state) :
  (∀ data new k,
     trace (handle_callback env user_id data st).1 = trace st ++ new →
     Say (msg_private_key k) ∈ new →
     data = "export_key" ∧
     ∃ user, users (db st) !! user_id = Some user ∧ private_key user = k) ∧
  (∀ (m : bot ()) new k,
     (∃ text, m = handle_message env user_id text) ∨
     (∃ username public_key private_key,
        m = start env user_id username public_key private_key) ∨
     (∃ c, m = run_command env user_id c) →
     trace (m st).1 = trace st ++ new →
     Say (msg_private_key k) ∉ new).
Proof.
  split.
  - intros data new k Htrace Hin. revert Htrace.
    unfold handle_callback. unfold mbind at 1, bot_mbind.
    rewrite call_db_get_user, get_user_value.
    destruct (through _);
      [|intros Ht; by destruct (turned_away_says_no_key _ _ k Ht)].
    destruct (users (db st) !! user_id) as [user|] eqn:Hu;
      [|intros Ht; by destruct (turned_away_says_no_key _ _ k Ht)].
    intros Htrace. split.
    + destruct (decide (data = "export_key")) as [|Hne]; [done|]. exfalso.
      revert Htrace. rewrite (bool_decide_eq_false_2 (data = "export_key")) by done.
      cbv iota. intros Htrace.
      eapply (said_after_lookup shows_no_key) in Htrace; [by apply (Htrace k)| |done].
      unfold buy_branch, sell_branch, sell_menu, int_field1.
      repeat first [apply check_balance_and_buy_no_key | step]; no_key.
    + exists user. split; [done|]. symmetry.
      eapply (said_after_lookup (shows_key_of user)) in Htrace; [by apply Htrace| |done].
      unfold buy_branch, sell_branch, sell_menu, int_field1.
      repeat first
        [ apply shows_no_key_weaken; apply check_balance_and_buy_no_key | step ];
        try apply _;
        try (intros ? ?; discriminate);
        try (intros ? [= ->]; done);
        try (apply Forall_forall; intros ? ? ? ?; discriminate);
        try (repeat constructor; intros ? ?; discriminate);
        try safe_method.
  - intros m new k Hm Htrace Hin.
    assert (behaves safe shows_no_key m) as Hb.
    { destruct Hm as [[text ->]|[(u & pk & sk & ->)|[c ->]]].
      - unfold handle_message.
        repeat first [apply check_balance_and_buy_no_key | step]; no_key.
      - unfold start. repeat step; no_key.
      - destruct c; unfold run_command, cmd_buy, cmd_sell, cmd_wallet, cmd_positions,
          cmd_settings; repeat step; no_key. }
    destruct (Hb st) as (_ & new' & Ht & Hall). rewrite Ht in Htrace.
    apply app_inv_head in Htrace as <-. rewrite Forall_forall in Hall.
    by destruct (Hall _ Hin k).
Qed.

End HandlerAnswers.

(** ** Paths through the handlers *)

Section HandlerPaths.

Import Chain Store Bot Commands Operations Kept.

Variable env : Env.

(** X22.  A custom amount that cannot be used is asked for again.  While
    the bot waits for a custom amount for a selected token, a text that
    [float] rejects is answered with "invalid amount", and a number that
    is zero or negative with "amount must be positive"; in both cases the
    handler returns with the flags as they were (the bot still waits for
    the amount, for the same token), and it has called neither the store
    nor the ledger nor the aggregator. *)
Theorem bad_custom_amount_is_asked_again (user_id : Z) (text token : string)
    (st : bot_state) :
  user_data st = {| current_token := Some token; awaiting_custom_amount := true |} →
  token ≠ EmptyString →
  (float_of_str (world env) (comma_to_dot text) = None →
   handle_message env user_id text st = (only_said st [Say msg_invalid_amount], Ret ())) ∧
  (∀ amount,
     float_of_str (world env) (comma_to_dot text) = Some amount →
     float_le amount (PFin (Qc_of_Z 0)) = true →
     handle_message env user_id text st
     = (only_said st [Say msg_amount_must_be_positive], Ret ())).
Proof.
  intros Hu Hne.
  unfold handle_message, mbind, bot_mbind, get_user_data, only_said.
  rewrite Hu. cbn [awaiting_custom_amount current_token]. cbv iota.
  unfold set_user_data at 1. cbn [no_token]. rewrite bool_decide_eq_false_2 by done.
  split.
  - intros ->. unfold say, emit, set_user_data. done.
  - intros amount -> ->. unfold say, emit, set_user_data. done.
Qed.

Lemma create_user_false (e : DbEnv) (p : bool) (telegram_id : Z)
    (username wallet_address private_key : string) (t : Tables) :
  (create_user e p telegram_id username wallet_address private_key t).2 = false →
  (create_user e p telegram_id username wallet_address private_key t).1.2 = t.
Proof.
  unfold create_user, guarded, get_cursor, rollback, mbind, cur_mbind, execute.
  destruct e as [ce ee me re nw]. simpl.
  destruct ce; [done|]. simpl.
  destruct (ee 0%nat); simpl; [by destruct re|].
  destruct (sql_insert_user _ _ _ _ _ _) as [[t1 []]|]; simpl; [|by destruct re].
  destruct (ee 1%nat); simpl; [by destruct re|].
  destruct (sql_insert_settings _ _ _) as [[t2 []]|]; simpl; [|by destruct re].
  destruct me; simpl; [by destruct re|done].
Qed.

(** X23.  [/start] shows a wallet whether or not one is stored.  For a
    user who has a row nothing is generated or written: the tables and
    the flags are as before and the menu shows the stored address with
    its balance.  For a user without a row the handler calls
    [create_user] and ignores what it returns: the menu shows the
    generated address in every case, and when [create_user] returned
    [False] the tables are as before, so the address on the screen is
    stored nowhere. *)
Theorem start_shows_stored_or_new_wallet (user_id : Z)
    (username public_key private_key : string) (st : bot_state) :
  let balance_of := get_balance (world env) in
  match (get_user (db_env env m_get_user) user_id (db st)).2 with
  | Some user =>
      start env user_id username public_key private_key st
      = (only_said st ([Db m_get_user] ++ (Net <$> (balance_of (wallet_address user)).1) ++
                       [Say (msg_main_menu (wallet_address user)
                               (balance_of (wallet_address user)).2)]), Ret ())
  | None =>
      let created := create_user (db_env env m_create_user) (is_postgres env)
                       user_id username public_key private_key (db st) in
      start env user_id username public_key private_key st
      = ({| db := created.1.2; user_data := user_data st;
            trace := trace st ++ [Db m_get_user; Db m_create_user] ++
                     (Net <$> (balance_of public_key).1) ++
                     [Say (msg_main_menu public_key (balance_of public_key).2)] |},
         Ret ()) ∧
      (created.2 = false → created.1.2 = db st)
  end.
Proof.
  intros balance_of. unfold start, mbind, bot_mbind. rewrite call_db_get_user.
  destruct (get_user _ _ _).2 as [user|].
  - unfold mret, bot_mret, call_trader, say, emit, only_said.
    simpl. by rewrite <- !app_assoc.
  - split; [|apply create_user_false]. rewrite call_db_run.
    unfold mret, bot_mret, call_trader, say, emit. simpl. by rewrite <- !app_assoc.
Qed.

Lemma slippage_prefix_dispatch (data : string) :
  String.prefix "slippage_" data = true →
  bool_decide (data = "back_main") || bool_decide (data = "refresh") = false ∧
  bool_decide (data = "buy") = false ∧ bool_decide (data = "sell") = false ∧
  bool_decide (data = "wallet") = false ∧ bool_decide (data = "export_key") = false ∧
  bool_decide (data = "positions") = false ∧ bool_decide (data = "settings") = false.
Proof.
  intros H.
  rewrite !bool_decide_eq_false_2; [done|intros ->; discriminate..].
Qed.

Lemma update_settings_false (e : DbEnv) (telegram_id : Z)
    (items : list (string * pyval)) (t : Tables) :
  (update_settings e telegram_id items t).2 = false →
  (update_settings e telegram_id items t).1.2 = t.
Proof.
  unfold update_settings, guarded, get_cursor, rollback.
  destruct (connect_error e); [done|].
  destruct (update_settings_loop e telegram_id items (fresh_cursor t)) as [[w n] [[]|msg]];
    simpl; [|by destruct (rollback_error e)].
  destruct (commit_error e); simpl; [by destruct (rollback_error e)|done].
Qed.

(** X24.  A slippage button always answers "slippage updated".  For a
    registered user and data ["slippage_N"] with [N] an integer, the
    handler calls [update_settings] with the one key [slippage], reads
    the settings back and says that the slippage is now [N], whatever
    [update_settings] returned; when it returned [False] the tables are
    as before. *)
Theorem slippage_button_always_reports_success (user_id : Z) (data field : string)
    (n : Z) (st : bot_state) (user : User) :
  (get_user (db_env env m_get_user) user_id (db st)).2 = Some user →
  String.prefix "slippage_" data = true →
  split_underscore data !! 1%nat = Some field →
  int_of_str (world env) field = Some n →
  let updated := update_settings (db_env env m_update_settings) user_id
                   [("slippage", VInt n)] (db st) in
  handle_callback env user_id data st
  = ({| db := updated.1.2; user_data := user_data st;
        trace := trace st ++ [Db m_get_user; Db m_update_settings; Db m_get_settings;
                              Say (msg_slippage_updated n)] |}, Ret ()) ∧
  (updated.2 = false → updated.1.2 = db st).
Proof.
  intros Hu Hp Hf Hn updated. split; [|apply update_settings_false].
  unfold handle_callback, mbind, bot_mbind.
  rewrite call_db_get_user, Hu.
  destruct (slippage_prefix_dispatch _ Hp) as (-> & -> & -> & -> & -> & -> & ->).
  rewrite Hp. unfold int_field1. rewrite Hf, Hn.
  unfold mret, bot_mret. rewrite !call_db_run. cbn [db user_data trace fst snd].
  rewrite get_settings_tables. unfold say, emit. simpl. by rewrite <- !app_assoc.
Qed.

Ltac reads :=
  repeat constructor; try (intros ? [= <-]; done); try (intros ? ?; discriminate).

Lemma Forall_no_store_write_net (l : list call) : Forall no_store_write (Net <$> l).
Proof. apply Forall_fmap, Forall_true. intros c m. discriminate. Qed.

(** X25.  The commands and the menu buttons only read.  Each of [/buy],
    [/sell], [/wallet], [/positions] and [/settings], and each of the
    buttons [back_main], [refresh], [buy], [sell], [wallet],
    [export_key], [positions] and [settings], returns normally and leaves
    the tables and the flags exactly as they were, and no store method
    it calls is one that writes. *)
Theorem commands_and_menus_only_read (user_id : Z) (st : bot_state) (m : bot ()) :
  (∃ c, m = run_command env user_id c) ∨
  (∃ data, data ∈ ["back_main"; "refresh"; "buy"; "sell"; "wallet"; "export_key";
                   "positions"; "settings"] ∧
           m = handle_callback env user_id data) →
  ∃ new, m st = (only_said st new, Ret ()) ∧ Forall no_store_write new.
Proof.
  assert (∀ l, Forall no_store_write l →
            Forall no_store_write (Db m_get_user :: l)) as Hcons.
  { intros l Hl. constructor; [|done]. by intros ? [= <-]. }
  intros [[c ->]|(data & Hin & ->)].
  - destruct c; unfold run_command, cmd_buy, cmd_sell, cmd_wallet, cmd_positions,
      cmd_settings, mbind, bot_mbind; [by eexists; split; [reflexivity|reads]|..];
      rewrite call_db_get_user;
      destruct (get_user _ _ _).2 as [user|];
      try (eexists; split;
           [unfold say, emit, only_said; cbn [db user_data trace];
            rewrite <- app_assoc; reflexivity|reads]).
    + rewrite call_db_run. cbn [db user_data trace fst snd]. rewrite get_positions_tables.
      destruct (get_positions _ _ _).2; eexists; (split;
        [unfold say, emit, only_said; cbn [db user_data trace];
         rewrite <- !app_assoc; reflexivity|reads]).
    + unfold call_trader. eexists. split.
      * unfold say, emit, only_said. cbn [db user_data trace].
        rewrite <- !app_assoc. reflexivity.
      * apply Hcons, Forall_app. split; [apply Forall_no_store_write_net|reads].
    + rewrite call_db_run. cbn [db user_data trace fst snd]. rewrite get_positions_tables.
      eexists. split;
        [unfold say, emit, only_said; cbn [db user_data trace];
         rewrite <- !app_assoc; reflexivity|reads].
    + rewrite call_db_run. cbn [db user_data trace fst snd]. rewrite get_settings_tables.
      eexists. split;
        [unfold say, emit, only_said; cbn [db user_data trace];
         rewrite <- !app_assoc; reflexivity|reads].
  - unfold handle_callback, sell_menu, mbind, bot_mbind. rewrite call_db_get_user.
    destruct (get_user _ _ _).2 as [user|].
    2: { eexists; split;
           [unfold say, emit, only_said; cbn [db user_data trace];
            rewrite <- app_assoc; reflexivity|reads]. }
    repeat (apply elem_of_cons in Hin as [->|Hin]); [..|by apply elem_of_nil in Hin];
      cbn [bool_decide decide_rel orb]; simpl.
    all: try rewrite !call_db_run; cbn [db user_data trace fst snd];
      rewrite ?get_positions_tables, ?get_settings_tables.
    all: try (destruct (get_positions _ _ _).2).
    all: eexists; (split;
        [unfold call_trader, say, emit, only_said; cbn [db user_data trace fst snd];
         rewrite <- ?app_assoc; reflexivity|]).
    all: try (apply Hcons, Forall_app; split; [apply Forall_no_store_write_net|reads]).
    all: reads.
Qed.

(** X26.  A typed amount of NaN passes both checks.  [float] accepts the
    text ["nan"]; the value is neither [<= 0] nor larger than the
    balance, since every comparison with NaN is false.  So the handler
    goes on as for a valid amount: it announces the buy and reads the
    settings, and only the swap stops, before any request is sent, when
    it converts the amount to an integer.  The user is told that the buy
    failed; nothing is written. *)
Theorem nan_amount_passes_the_checks (user_id : Z) (text token : string)
    (st : bot_state) (user : User) :
  user_data st = {| current_token := Some token; awaiting_custom_amount := true |} →
  token ≠ EmptyString →
  float_of_str (world env) (comma_to_dot text) = Some PNan →
  (get_user (db_env env m_get_user) user_id (db st)).2 = Some user →
  let balance := get_balance (world env) (wallet_address user) in
  let error := match keypair_pubkey (world env) (private_key user) with
               | Ret _ => "cannot convert float NaN to integer"
               | Exc msg => msg
               end in
  handle_message env user_id text st
  = ({| db := db st;
        user_data := {| current_token := Some token; awaiting_custom_amount := false |};
        trace := trace st ++ [Db m_get_user] ++ (Net <$> balance.1) ++
                 [Say msg_executing_buy; Db m_get_settings;
                  Say (msg_buy_failed error PNan)] |}, Ret ()).
Proof.
  intros Hd Hne Hf Hu balance error.
  unfold handle_message, mbind, bot_mbind, get_user_data.
  rewrite Hd. cbn [awaiting_custom_amount current_token]. cbv iota.
  unfold set_user_data at 1. cbn [no_token]. rewrite bool_decide_eq_false_2 by done.
  rewrite Hf. cbn [float_le]. cbv iota. rewrite call_db_get_user.
  cbn [db user_data trace]. rewrite Hu.
  unfold check_balance_and_buy, mbind, bot_mbind, call_trader.
  cbn [db user_data trace fst snd].
  replace (float_lt (get_balance (world env) (wallet_address user)).2 PNan) with false
    by (by destruct (get_balance _ _).2).
  unfold say at 1, emit. cbn [db user_data trace fst snd].
  rewrite call_db_run. cbn [db user_data trace fst snd]. rewrite get_settings_tables.
  assert (swap_sol_for_token (world env) (private_key user) (default "" (Some token)) PNan
            (slippage (get_settings (db_env env m_get_settings) user_id (db st)).2)
          = ([], SwapFailed error)) as ->.
  { unfold swap_sol_for_token, error, mbind, io_mbind.
    destruct (keypair_pubkey _ _); reflexivity. }
  unfold say, emit. simpl. by rewrite <- !app_assoc.
Qed.

(** X27.  A trade adds at most its own row to the store.  After the
    balance check and the buy, the tables are as before unless the swap
    returned success, and then they differ at most by the one [BUY] row
    appended to the trades, carrying the amount asked for and the
    swap's [amount_out] and signature.  After the sell branch the tables
    are as before unless the swap returned success, and then they differ
    at most by the one [SELL] row with the swap's amounts and
    signature, for the token selected in the flags. *)
Theorem a_trade_adds_at_most_its_row (user_id : Z) (user : User) (st : bot_state) :
  (∀ token amount,
     let st' := (check_balance_and_buy env user_id user token amount st).1 in
     let settings := (get_settings (db_env env m_get_settings) user_id (db st)).2 in
     let result := (swap_sol_for_token (world env) (private_key user) token amount
                      (slippage settings)).2 in
     db st' = db st ∨
     ∃ sig a_in a_out impact,
       result = SwapOk sig a_in a_out impact ∧
       db st' = with_trades
                  (λ l, l ++ [trade_row (db_env env m_log_trade) user_id token "BUY"
                                (VFloat amount) a_out sig])
                  (db st)) ∧
  (∀ data,
     let st' := (sell_branch env user_id user data st).1 in
     db st' = db st ∨
     ∃ percentage token sig a_in a_out impact,
       int_of_str (world env) <$> (split_underscore data !! 1%nat)
         = Some (Some percentage) ∧
       current_token (user_data st) = Some token ∧
       (swap_token_for_sol (world env) (private_key user) token percentage
          (slippage (get_settings (db_env env m_get_settings) user_id (db st)).2)).2
         = SwapOk sig a_in a_out impact ∧
       db st' = with_trades
                  (λ l, l ++ [trade_row (db_env env m_log_trade) user_id token "SELL"
                                a_in a_out sig]) (db st)).
Proof.
  split.
  - intros token amount. apply buy_store_outcomes.
  - intros data. apply sell_store_outcomes.
Qed.

End HandlerPaths.

(** X28.  Within the exact range of a float a sell never asks for more
    than the balance.  For a balance [B] and a percentage [p] between 0
    and 100 with [B * p] below 2^53, the amount
    [int(token_balance * percentage / 100)] is the floor of
    [B * p / 100], and it lies between 0 and [B]. *)
Theorem sell_amount_within_balance (B p : Z) :
  0 ≤ B → 0 ≤ p ≤ 100 → B * p < 2 ^ 53 →
  sell_amount_of B p = Some (B * p / 100) ∧ 0 ≤ B * p / 100 ≤ B.
Proof.
  intros HB Hp Hlt. split; [apply sell_amount_floor_below_2_53; nia|].
  split; [apply Z.div_pos; nia|]. apply Z.div_le_upper_bound; nia.
Qed.

(** ** The token lookup *)

Section TokenLookup.

Import Chain TokenInfo.

Variable w : Sources.

Lemma find_token_none (token_address : string) (items : list jvalue) :
  find_token token_address items = Ret None ↔ Forall (other_token token_address) items.
Proof.
  induction items as [|token rest IH]; simpl; [done|].
  rewrite Forall_cons, <- IH. unfold other_token, mbind, result_mbind.
  destruct token as [| | | | | |fields]; simpl;
    try (split; [done|by intros [(? & ? & ?) _]]).
  destruct (py_eq_str _ _) eqn:He; simpl.
  - split; [done|]. intros [(f & [= <-] & Hf) _]. congruence.
  - split; [|by intros [_ ?]]. intros H. split; [|done]. by exists fields.
Qed.

Lemma find_token_first (token_address : string) (before after : list jvalue)
    (fields : gmap string jvalue) :
  Forall (other_token token_address) before →
  fields !! "address" = Some (JStr token_address) →
  find_token token_address (before ++ JObj fields :: after)
  = Ret (Some (Listed (default (JStr "Unknown") (fields !! "name"))
                      (default (JStr "???") (fields !! "symbol"))
                      (default (JInt 9) (fields !! "decimals")) token_address)).
Proof.
  intros Hb Hf. induction Hb as [|token before (f & -> & Hne) _ IH]; simpl.
  - unfold mbind, result_mbind. rewrite Hf. simpl. by rewrite String.eqb_refl.
  - unfold mbind, result_mbind. simpl. by rewrite Hne.
Qed.

(** X29.  A token on the strict list is reported from the list, and the
    first entry with the address wins.  When the service answers with
    status 200 and a list in which the entries before the first one with
    the address are dicts with other addresses, the lookup returns the
    name, symbol and decimals of that entry (["Unknown"], ["???"] and 9
    for the ones it lacks), and DexScreener is not asked. *)
Theorem listed_token_found_first (token_address : string)
    (response : http_response jvalue) (before after : list jvalue)
    (fields : gmap string jvalue) :
  strict_api w = Ret response →
  status_code response = 200 →
  json response = Ret (JList (before ++ JObj fields :: after)) →
  Forall (other_token token_address) before →
  fields !! "address" = Some (JStr token_address) →
  get_token_info w token_address
  = ([get_strict_list],
     Listed (default (JStr "Unknown") (fields !! "name"))
            (default (JStr "???") (fields !! "symbol"))
            (default (JInt 9) (fields !! "decimals")) token_address).
Proof.
  intros Hs Hst Hj Hb Hf. unfold get_token_info. rewrite Hs.
  unfold mbind, fetch_mbind, send, pure. rewrite Hst, Hj. simpl.
  by rewrite (find_token_first _ _ _ _ Hb Hf).
Qed.

Ltac dex_stage :=
  repeat first
    [ progress cbn [mbind fetch_mbind mret fetch_mret send pure try_fetch fst snd app]
    | match goal with
      | |- context [dexscreener_api ?s ?a] => destruct (dexscreener_api s a)
      | |- context [match ?r with Ret _ => _ | Exc _ => _ end] => destruct r
      | |- context [if ?b then _ else _] => destruct b
      end ].

(** X30.  DexScreener is asked only after the strict list was read to its
    end.  The lookup sends the request for the strict list, and then at
    most the one for DexScreener; the second request is sent exactly when
    the first service answered and either its status was not 200, or its
    body could be read and gone through to the end with every entry a
    dict with another address.  So a failure of the first request, a body
    that is not JSON, or an entry that is not a dict before the token is
    found, ends the lookup without the second source being tried. *)
Theorem dexscreener_asked_only_after_strict_list (token_address : string) :
  let calls := (get_token_info w token_address).1 in
  (calls = [get_strict_list] ∨
   calls = [get_strict_list; get_dex_tokens token_address]) ∧
  (get_dex_tokens token_address ∈ calls ↔ strict_list_passed w token_address).
Proof.
  assert (∀ q : request, q ∈ [get_strict_list] → q = get_strict_list) as Hone.
  { intros q Hq. apply elem_of_cons in Hq as [->|Hq]; [done|]. by apply elem_of_nil in Hq. }
  assert (get_dex_tokens token_address
            ∈ [get_strict_list; get_dex_tokens token_address]) as Hin.
  { apply elem_of_cons. right. apply elem_of_cons. by left. }
  unfold get_token_info, strict_list_passed.
  destruct (strict_api w) as [response|e] eqn:Hs.
  2: { simpl. split; [by left|]. split; [by intros ?%Hone|by intros (? & ? & _)]. }
  cbn [mbind fetch_mbind mret fetch_mret send pure try_fetch fst snd app].
  destruct (status_code response =? 200) eqn:Hst.
  - destruct (json response) as [tokens|e] eqn:Hj.
    2: { simpl. split; [by left|]. split; [by intros ?%Hone|].
         intros (r & [= <-] & [Hne|(? & ? & ? & _)]); [|congruence].
         by apply Z.eqb_eq in Hst. }
    destruct (py_iter tokens) as [items|e] eqn:Hi.
    2: { simpl. split; [by left|]. split; [by intros ?%Hone|].
         intros (r & [= <-] & [Hne|(? & ? & ? & ? & _)]); [|congruence].
         by apply Z.eqb_eq in Hst. }
    destruct (find_token token_address items) as [[info|]|e] eqn:Hf.
    + simpl. split; [by left|]. split; [by intros ?%Hone|].
      intros (r & [= <-] & [Hne|(? & ? & ? & ? & Hall)]); [by apply Z.eqb_eq in Hst|].
      apply find_token_none in Hall. congruence.
    + assert (∃ r, Ret response = Ret r ∧
                (status_code r ≠ 200 ∨
                 ∃ tokens0 items0, json r = Ret tokens0 ∧ py_iter tokens0 = Ret items0 ∧
                                   Forall (other_token token_address) items0)) as Hpassed.
      { exists response. split; [done|]. right. exists tokens, items.
        by rewrite find_token_none in Hf. }
      dex_stage; (split; [by right|done]).
    + simpl. split; [by left|]. split; [by intros ?%Hone|].
      intros (r & [= <-] & [Hne|(? & ? & ? & ? & Hall)]); [by apply Z.eqb_eq in Hst|].
      apply find_token_none in Hall. congruence.
  - assert (∃ r, Ret response = Ret r ∧
              (status_code r ≠ 200 ∨
               ∃ tokens0 items0, json r = Ret tokens0 ∧ py_iter tokens0 = Ret items0 ∧
                                 Forall (other_token token_address) items0)) as Hpassed.
    { exists response. split; [done|]. left. by apply Z.eqb_neq. }
    dex_stage; (split; [by right|done]).
Qed.

End TokenLookup.

(** ** Runs of the further properties *)

Section FurtherRuns.

Import Chain Store Bot Commands Operations Kept Shapes Scenario TokenInfo Cases.

(** Bob registers in a store where alice has her two rows. *)
Lemma store_keeps_one_settings_row_per_user_witness :
  let db' := (run quiet false (call_create_user 7 "bob" "W7" "K7") registered).2 in
  dom (settings registered) = dom (users registered) ∧
  dom (settings db') = dom (users db').
Proof.
  assert (dom (settings registered) = dom (users registered)) as H.
  { unfold registered. simpl. by rewrite !dom_singleton_L. }
  split; [exact H|].
  exact (store_keeps_one_settings_row_per_user quiet false
           (call_create_user 7 "bob" "W7" "K7") registered H).
Defined.

(** Bob's row can be read back, and alice's is as before. *)
Lemma create_user_then_lookup_witness :
  let db' := (create_user quiet false 7 "bob" "W7" "K7" registered).1.2 in
  (get_user quiet 7 db').2
  = Some {| username := "bob"; wallet_address := "W7"; private_key := "K7";
            user_created_at := 7%nat |} ∧
  (get_user quiet alice db').2 = (get_user quiet alice registered).2.
Proof.
  pose proof (create_user_then_lookup quiet quiet false 7 "bob" "W7" "K7" registered
                eq_refl eq_refl) as H.
  cbv zeta in H. destruct H as (Hu & _ & Ho).
  split; [exact Hu|]. apply Ho. by vm_compute.
Defined.

(** Alice sets her slippage to the int 25: it is read back as the
    float 25.0. *)
Lemma update_settings_then_get_witness :
  let after := update_settings quiet alice [("slippage", VInt 25)] registered in
  after.2 = true ∧
  column "slippage" (get_settings quiet alice after.1.2).2
  = Some (VFloat (binary64_of_ratio 25 1)).
Proof.
  assert (healthy quiet) as Hq by (by repeat split).
  assert (NoDup [("slippage", VInt 25)].*1) as Hnd by apply NoDup_singleton.
  pose proof (update_settings_then_get quiet quiet alice [("slippage", VInt 25)]
                registered (default_settings_row false) Hq Hnd eq_refl eq_refl) as H.
  cbv zeta in H. destruct H as (Ht & _ & Hc).
  split; [exact Ht|].
  destruct (Hc "slippage" (VInt 25)) as (c & Hcol & Hval);
    [apply elem_of_cons; by left..|].
  injection Hcol as <-. exact Hval.
Defined.

(** A slippage for bob, who has no settings row. *)
Lemma update_settings_without_row_witness :
  settings registered !! 7 = None ∧
  (update_settings quiet 7 [("slippage", VInt 25)] registered).1.2 = registered.
Proof.
  split; [reflexivity|].
  exact (proj1 (update_settings_without_row quiet 7 [("slippage", VInt 25)] registered
                  eq_refl)).
Defined.

(** Alice's one position is listed. *)
Lemma get_positions_lists_open_positions_witness :
  through quiet = true ∧
  Concurrent.binary64_order quiet ∧
  (token, alice_position) ∈ (get_positions quiet alice holding).2.
Proof.
  split; [reflexivity|]. split; [by intros x|].
  pose proof (get_positions_lists_open_positions quiet alice holding eq_refl) as H.
  cbv zeta in H.
  apply (proj1 (proj2 H) (λ x, eq_refl) token alice_position (PFin (Qc_of_Z 500000))
           eq_refl).
  split; [reflexivity|by vm_compute].
Defined.

(** Alice's one trade, with a limit of ten. *)
Lemma get_trades_lists_recent_trades_witness :
  through quiet = true ∧
  (length (get_trades quiet alice 10 holding).2 ≤ 10)%nat.
Proof.
  split; [reflexivity|].
  pose proof (get_trades_lists_recent_trades quiet alice 10 holding eq_refl) as H.
  cbv zeta in H. exact (proj1 H).
Defined.

(** A second buy of 100 units of the token under another symbol and
    name. *)
Lemma update_position_keeps_metadata_witness :
  let after := update_position quiet alice token "XYZ" "Renamed"
                 (VFloat (PFin (Qc_of_Z 100))) (VInt 1) holding in
  positions holding !! (alice, token) = Some alice_position ∧
  after.2 = true ∧
  symbol <$> positions after.1.2 !! (alice, token) = Some "TKN" ∧
  amount <$> positions after.1.2 !! (alice, token)
  = Some (VFloat (PFin (Qc_of_Z (500000 + 100)))).
Proof.
  assert ((update_position quiet alice token "XYZ" "Renamed"
             (VFloat (PFin (Qc_of_Z 100))) (VInt 1) holding).2 = true) as Ht
    by reflexivity.
  split; [reflexivity|]. split; [exact Ht|].
  pose proof (update_position_keeps_metadata quiet alice token "XYZ" "Renamed"
                (VFloat (PFin (Qc_of_Z 100))) (VInt 1) holding alice_position
                eq_refl) as H.
  cbv zeta in H. destruct (proj1 H Ht) as (Hp & Hsum & _).
  rewrite Hp. split; [done|]. simpl. f_equal.
  apply (Hsum 500000 100 quiet_binary64 eq_refl eq_refl). by vm_compute.
Defined.

(** A first buy, undone. *)
Lemma upsert_then_delete_witness :
  positions registered !! (alice, token) = None ∧
  (delete_position quiet alice token
     (update_position quiet alice token "TKN" "Token" (VFloat (PFin (Qc_of_Z 5)))
        VNone registered).1.2).1.2 = registered.
Proof.
  split; [reflexivity|].
  exact (proj1 (upsert_then_delete quiet quiet alice token "TKN" "Token"
                  (VFloat (PFin (Qc_of_Z 5))) VNone registered eq_refl)
           eq_refl eq_refl).
Defined.

(** Alice sells all 500000 units. *)
Lemma closed_position_hidden_not_deleted_witness :
  let sold := VFloat (PFin (Qc_of_Z (-500000))) in
  let db' := (update_position quiet alice token "TKN" "Token" sold VNone holding).1.2 in
  is_positive quiet
    (real_add quiet (amount alice_position) (stored quiet positions_amount sold))
  = false ∧
  is_Some (positions db' !! (alice, token)) ∧
  (get_positions quiet alice db').2 = [].
Proof.
  assert (is_positive quiet
            (real_add quiet (amount alice_position)
               (stored quiet positions_amount (VFloat (PFin (Qc_of_Z (-500000))))))
          = false) as Hle by (by vm_compute).
  pose proof (closed_position_hidden_not_deleted quiet quiet alice token "TKN" "Token"
                (VFloat (PFin (Qc_of_Z (-500000)))) VNone holding alice_position
                eq_refl Hle eq_refl eq_refl) as H.
  cbv zeta in H. split; [exact Hle|]. split; [exact (proj1 H)|]. by vm_compute.
Defined.

(** A buy of 1 SOL against the stub aggregator. *)
Lemma buy_success_means_submitted_witness :
  swap_sol_for_token (stub_world 0 0) "KEY" token (PFin (Qc_of_Z 1)) (VInt 15)
  = ([http_get_quote SOL_MINT token 1000000000 1500;
      http_post_swap quote_500000 "WALLET";
      rpc_send_raw_transaction []],
     SwapOk "SIGNATURE" (VFloat (PFin (Qc_of_Z 1))) (VInt 500000) (VStr "0.01")) ∧
  ∃ tx, client_send_raw_transaction (stub_world 0 0) tx = Ret "SIGNATURE".
Proof.
  assert (swap_sol_for_token (stub_world 0 0) "KEY" token (PFin (Qc_of_Z 1)) (VInt 15)
          = ([http_get_quote SOL_MINT token 1000000000 1500;
              http_post_swap quote_500000 "WALLET";
              rpc_send_raw_transaction []],
             SwapOk "SIGNATURE" (VFloat (PFin (Qc_of_Z 1))) (VInt 500000)
               (VStr "0.01"))) as H by (by vm_compute).
  split; [exact H|].
  destruct (buy_success_means_submitted _ _ _ _ _ _ _ _ _ _ H)
    as (wallet & scaled & lamports & bps & quote & tx & out & _ & _ & _ & _ & _ & Hs & _).
  by exists tx.
Defined.

(** A sell of 50 percent of 1000 units. *)
Lemma sell_success_means_submitted_witness :
  ∃ sol,
    swap_token_for_sol (stub_world 0 1000) "KEY" token 50 (VInt 15)
    = ([rpc_get_token_accounts_by_owner "WALLET" token;
        http_get_quote token SOL_MINT 500 1500;
        http_post_swap quote_500000 "WALLET";
        rpc_send_raw_transaction []],
       SwapOk "SIGNATURE" (VInt 500) (VFloat sol) (VStr "0.01")) ∧
    int_truediv 500000 LAMPORTS_PER_SOL = Some sol.
Proof.
  assert (∃ sol,
    swap_token_for_sol (stub_world 0 1000) "KEY" token 50 (VInt 15)
    = ([rpc_get_token_accounts_by_owner "WALLET" token;
        http_get_quote token SOL_MINT 500 1500;
        http_post_swap quote_500000 "WALLET";
        rpc_send_raw_transaction []],
       SwapOk "SIGNATURE" (VInt 500) (VFloat sol) (VStr "0.01"))) as [sol H]
    by (eexists; by vm_compute).
  exists sol. split; [exact H|].
  destruct (sell_success_means_submitted _ _ _ _ _ _ _ _ _ _ H)
    as (wallet & sold & bps & quote & tx & out & sol' & _ & H').
  cbv zeta in H'. destruct H' as (_ & _ & Ht & _ & _ & Ho & Hd & Hv).
  injection Hv as <-. injection Ht as _ Hq _. subst quote.
  injection Ho as <-. exact Hd.
Defined.

(** A buy whose quote has no readable [outAmount]. *)
Lemma buy_reported_failed_after_submission_witness :
  ∃ t,
    swap_sol_for_token unreadable_quote_world "KEY" token (PFin (Qc_of_Z 1)) (VInt 15)
    = (t, SwapFailed "invalid literal for int() with base 10") ∧
    Exists (λ c, is_submission c = true) t.
Proof.
  eexists.
  eapply (buy_reported_failed_after_submission unreadable_quote_world "KEY" token
            (PFin (Qc_of_Z 1)) (VInt 15) "WALLET"); by vm_compute.
Defined.

(** A stranger presses the wallet button. *)
Lemma unregistered_user_is_turned_away_witness :
  (get_user quiet 7 registered).2 = None ∧
  handle_callback (stub_env 0 0) 7 "wallet" token_selected
  = (only_said token_selected [Db m_get_user; Say msg_please_start], Ret ()).
Proof.
  split; [reflexivity|].
  exact (proj1 (unregistered_user_is_turned_away (stub_env 0 0) 7 token_selected
                  eq_refl) "wallet").
Defined.

(** Alice presses "copy address" under her wallet. *)
Lemma unrecognised_callback_is_ignored_witness :
  recognised "copy_address" = false ∧
  handle_callback (stub_env 0 0) alice "copy_address" token_selected
  = (only_said token_selected [Db m_get_user], Ret ()).
Proof.
  split; [reflexivity|].
  exact (unrecognised_callback_is_ignored (stub_env 0 0) alice "copy_address"
           token_selected alice_row eq_refl eq_refl).
Defined.

(** Alice asks for her key. *)
Lemma private_key_shown_only_to_owner_witness :
  trace (handle_callback (stub_env 0 0) alice "export_key" token_selected).1
  = trace token_selected ++ [Db m_get_user; Say (msg_private_key "KEY")] ∧
  ∃ user, users registered !! alice = Some user ∧ private_key user = "KEY".
Proof.
  assert (trace (handle_callback (stub_env 0 0) alice "export_key" token_selected).1
          = trace token_selected ++ [Db m_get_user; Say (msg_private_key "KEY")]) as H
    by reflexivity.
  split; [exact H|].
  refine (proj2 (proj1 (private_key_shown_only_to_owner (stub_env 0 0) alice
                         token_selected) "export_key" _ "KEY" H _)).
  apply elem_of_cons. right. apply elem_of_cons. by left.
Defined.

(** Alice types "abc" for the amount. *)
Lemma bad_custom_amount_is_asked_again_witness :
  float_of_str (world (stub_env 0 0)) (comma_to_dot "abc") = None ∧
  handle_message (stub_env 0 0) alice "abc" awaiting_amount
  = (only_said awaiting_amount [Say msg_invalid_amount], Ret ()).
Proof.
  split; [reflexivity|].
  apply (proj1 (bad_custom_amount_is_asked_again (stub_env 0 0) alice "abc" token
                  awaiting_amount eq_refl ltac:(discriminate))).
  reflexivity.
Defined.

(** Alice presses the 25 percent slippage button. *)
Lemma slippage_button_always_reports_success_witness :
  let updated := update_settings quiet alice [("slippage", VInt 25)] registered in
  String.prefix "slippage_" "slippage_25" = true ∧
  handle_callback (stub_env 0 0) alice "slippage_25" token_selected
  = ({| db := updated.1.2; user_data := user_data token_selected;
        trace := trace token_selected ++
                 [Db m_get_user; Db m_update_settings; Db m_get_settings;
                  Say (msg_slippage_updated 25)] |}, Ret ()).
Proof.
  split; [reflexivity|].
  exact (proj1 (slippage_button_always_reports_success (stub_env 0 0) alice
                  "slippage_25" "25" 25 token_selected alice_row
                  eq_refl eq_refl eq_refl eq_refl)).
Defined.

(** Alice sends [/wallet]. *)
Lemma commands_and_menus_only_read_witness :
  ∃ new, run_command (stub_env 0 0) alice slash_wallet token_selected
         = (only_said token_selected new, Ret ()) ∧
         Forall no_store_write new.
Proof.
  apply (commands_and_menus_only_read (stub_env 0 0) alice token_selected).
  left. by exists slash_wallet.
Defined.

(** Alice types "nan" for the amount. *)
Lemma nan_amount_passes_the_checks_witness :
  float_of_str (world nan_env) (comma_to_dot "nan") = Some PNan ∧
  trace (handle_message nan_env alice "nan" awaiting_amount).1
  = [Db m_get_user; Net (rpc_get_balance "WALLET"); Say msg_executing_buy;
     Db m_get_settings;
     Say (msg_buy_failed "cannot convert float NaN to integer" PNan)].
Proof.
  split; [reflexivity|].
  rewrite (nan_amount_passes_the_checks nan_env alice "nan" token awaiting_amount
             alice_row eq_refl ltac:(discriminate) eq_refl eq_refl).
  reflexivity.
Defined.

(** Half of 1000 units. *)
Lemma sell_amount_within_balance_witness :
  sell_amount_of 1000 50 = Some 500 ∧ 0 ≤ 500 ≤ 1000.
Proof.
  exact (sell_amount_within_balance 1000 50 ltac:(lia) ltac:(lia) ltac:(by vm_compute)).
Defined.

(** The token is the second entry of the strict list. *)
Lemma listed_token_found_first_witness :
  Forall (other_token token) [JObj other_entry] ∧
  get_token_info strict_sources token
  = ([get_strict_list], Listed (JStr "Unknown") (JStr "TKN") (JInt 9) token).
Proof.
  assert (Forall (other_token token) [JObj other_entry]) as Hb.
  { repeat constructor. exists other_entry. split; [done|]. by vm_compute. }
  split; [exact Hb|].
  exact (listed_token_found_first strict_sources token _ [JObj other_entry] []
           token_entry eq_refl eq_refl eq_refl Hb eq_refl).
Defined.

End FurtherRuns.
